(** * ship: routes, groups and the graceful runner

    A shallow embedding of the route builder ([route.go]), the route group
    and the server runner of the [ship] HTTP router, with the properties of
    its specification stated over it.

    Layout of the embedding:
    - Go strings are byte strings, hence [string]; [int] values are [Z];
    - a Go [(T, error)] return is a [result]; a [panic] is the [Panicked]
      case of an [outcome], and the state reached before the panic is kept
      (a panic unwinds the stack, it does not undo writes);
    - a handler is a Go closure run at request time.  The closure built by
      [buildHeaderMiddleware] keeps the pointer [r] and reads the field
      [r.headers] when it runs, so handlers take the heap they read from
      as an argument ([RouteHeap]);
    - code outside the sources (the standard library, [Context], the
      dispatcher) is gathered in the class [Externals] or modelled where a
      comment says so. *)

From Stdlib Require Import ZArith String Ascii List Bool Lia.
From Stdlib Require Import DecimalString.
From stdpp Require Import base gmap strings list.
Import ListNotations.
Open Scope string_scope.
Open Scope Z_scope.
Open Scope list_scope.

(** ** Go values *)

(** A Go [(T, error)] pair: either the value or the error text. *)
Inductive result (A : Type) : Type :=
| Ok (a : A)
| Error (e : string).
Arguments Ok {A} a.
Arguments Error {A} e.

(** How a call ends: it returns, or it panics with a value. *)
Inductive outcome (A : Type) : Type :=
| Returned (a : A)
| Panicked (v : string).
Arguments Returned {A} a.
Arguments Panicked {A} v.

Definition panics {A : Type} (o : outcome A) : Prop :=
  match o with Panicked _ => True | Returned _ => False end.

(** [fmt.Sprintf("%d", n)]. *)
Definition fmt_d (n : Z) : string := NilZero.string_of_int (Z.to_int n).

Definition hexdigit (n : N) : ascii :=
  match n with
  | 0 => "0" | 1 => "1" | 2 => "2" | 3 => "3" | 4 => "4" | 5 => "5"
  | 6 => "6" | 7 => "7" | 8 => "8" | 9 => "9" | 10 => "a" | 11 => "b"
  | 12 => "c" | 13 => "d" | 14 => "e" | _ => "f"
  end%N%char.

(** [fmt.Sprintf("%x", bs)] on a byte slice: two lower-case digits a byte. *)
Fixpoint fmt_x (bs : list Byte.byte) : string :=
  match bs with
  | [] => ""
  | b :: rest =>
      let n := Byte.to_N b in
      String (hexdigit (n / 16)) (String (hexdigit (n mod 16)) (fmt_x rest))
  end.

(** ** Package [strings] *)

(** [strings.Index]: the first position of [substr] in [s], or [-1]. *)
Definition strings_Index (s substr : string) : Z :=
  match String.index 0 substr s with
  | Some i => Z.of_nat i
  | None => -1
  end.

Definition strings_Contains (s substr : string) : bool :=
  0 <=? strings_Index s substr.

Definition strings_HasSuffix (s suffix : string) : bool :=
  (String.length suffix <=? String.length s)%nat
  && String.eqb
       (substring (String.length s - String.length suffix)
                  (String.length suffix) s)
       suffix.

Definition strings_TrimSuffix (s suffix : string) : string :=
  if strings_HasSuffix s suffix
  then substring 0 (String.length s - String.length suffix) s
  else s.

(** [s[0] == c] guarded by [len(s) != 0]. *)
Definition first_byte_is (s : string) (c : ascii) : bool :=
  match String.get 0 s with
  | Some b => Ascii.eqb b c
  | None => false
  end.

(** ** Errors, files, contexts *)

(** [ship.HTTPError]: a status classification wrapping an error text. *)
Record HTTPError := { Code : Z; Err : string }.

(** A Go [error] value; [None] is [nil]. *)
Definition error := option HTTPError.

Definition StatusOK : Z := 200.
Definition StatusBadRequest : Z := 400.
Definition StatusInternalServerError : Z := 500.

(** Modelled from the spec: [NewHTTPError(code).NewError(err)] is not in
    the sources; it yields a failure classified by [code] that carries
    [err]. *)
Definition NewHTTPError (code : Z) (err : string) : error :=
  Some {| Code := code; Err := err |}.

(** Modelled from the spec: [ErrBadRequest], the client-error class. *)
Definition ErrBadRequest (err : string) : error :=
  NewHTTPError StatusBadRequest err.

Record FileInfo := { IsDir : bool; Size : Z }.

(** An open file ([os.File], [http.File]) through the methods used here:
    [Stat], reading to the end of the file (what [io.Copy] does with it)
    and [Readdir]. *)
Record File := {
  Stat : result FileInfo;
  ReadAll : result (list Byte.byte);
  Readdir : Z -> list FileInfo * option string
}.

(** [http.FileSystem]: its one method, [Open]. *)
Definition FileSystem := string -> result File.

(** Modelled from the spec: [Context] is not in the sources.  It gives the
    request header, the bound URL parameters, and the response written so
    far: header, status (none until written) and body. *)
Record Context := {
  reqHeader : gmap string (list string);
  urlParams : gmap string string;
  resHeader : gmap string (list string);
  resStatus : option Z;
  resBody : list Byte.byte
}.

(** Modelled from the spec: the header names [HeaderEtag] and
    [HeaderContentLength] are constants defined outside the sources. *)
Definition HeaderEtag : string := "ETag".
Definition HeaderContentLength : string := "Content-Length".

Definition MethodConnect := "CONNECT".
Definition MethodHead := "HEAD".
Definition MethodOptions := "OPTIONS".
Definition MethodTrace := "TRACE".
Definition MethodGet := "GET".
Definition MethodPost := "POST".
Definition MethodPut := "PUT".
Definition MethodDelete := "DELETE".
Definition MethodPatch := "PATCH".

Definition AllMethods : list string :=
  [MethodConnect; MethodHead; MethodOptions; MethodTrace;
   MethodGet; MethodPost; MethodPut; MethodDelete; MethodPatch].

(** ** Handlers and middlewares *)

Definition addr := nat.

Record kvalues := { Key : string; Values : list string }.

(** What a handler can reach of the heap when it runs: the field [headers]
    of the [Route] object at each address. *)
Definition RouteHeap := addr -> list kvalues.

(** [ship.Handler], a function from a context pointer to an error: run
    on a request, it may write the response and returns an error or
    [nil]. *)
Definition Handler := RouteHeap -> Context -> Context * error.

(** [ship.Middleware], a [func(Handler) Handler]. *)
Definition Middleware := Handler -> Handler.

Module RouteInfo.
Record t := mk {
  Name : string;
  Host : string;
  Path : string;
  Method : string;
  Handler : Handler
}.
End RouteInfo.

(** ** The dispatcher *)

(** The dispatcher, through what the route layer uses of it: the field
    [MiddlewareMaxNum] and the registrations handed to [addRoute], kept in
    call order. *)
Record Ship := {
  MiddlewareMaxNum : Z;
  routes : list RouteInfo.t
}.

(** Registration code: reads and writes the dispatcher, may panic. *)
Definition Reg (A : Type) := Ship -> Ship * outcome A.

Definition ret {A : Type} (a : A) : Reg A := fun s => (s, Returned a).

Definition bind {A B : Type} (m : Reg A) (k : A -> Reg B) : Reg B :=
  fun s =>
    match m s with
    | (s', Returned a) => k a s'
    | (s', Panicked v) => (s', Panicked v)
    end.

Definition panic {A : Type} (v : string) : Reg A := fun s => (s, Panicked v).

Notation "x <- m ;; k" := (bind m (fun x => k))
  (at level 100, m at next level, right associativity).
Notation "m ;; k" := (bind m (fun _ => k))
  (at level 100, right associativity).

(** [for _, x := range l { body(x) }]. *)
Fixpoint forEach {A : Type} (l : list A) (body : A -> Reg unit) : Reg unit :=
  match l with
  | [] => ret tt
  | x :: rest => body x ;; forEach rest body
  end.

(** Modelled from the spec: [Ship.addRoute] is not in the sources.  The
    route layer hands it one (name, host, path, method, handler) tuple a
    call; it is modelled as recording the tuple.  What the router then does
    with it (duplicates, ambiguous patterns) is outside this model. *)
Definition ship_addRoute (name host path method : string) (handler : Handler)
  : Reg unit :=
  fun s =>
    ({| MiddlewareMaxNum := MiddlewareMaxNum s;
        routes := routes s ++ [RouteInfo.mk name host path method handler] |},
     Returned tt).

(** ** Code outside the sources *)

Class Externals := {
  (** [http.CanonicalHeaderKey] *)
  CanonicalHeaderKey : string -> string;
  (** [path.Join] of two elements *)
  path_Join : string -> string -> string;
  (** [md5.New], [io.Copy] into it, [Sum(nil)]: the digest of the bytes *)
  md5_Sum : list Byte.byte -> list Byte.byte;
  (** [os.Open] on the file system the server runs on *)
  os_Open : FileSystem;
  (** [http.Dir(root)] *)
  http_Dir : string -> FileSystem;
  (** [http.StripPrefix(prefix, http.FileServer(fs)).ServeHTTP] *)
  fileServer_ServeHTTP : string -> FileSystem -> Context -> Context;
  (** [ctx.File(path)] *)
  ctx_File : string -> Context -> Context * error;
  (** [ctx.Redirect(code, url)] *)
  ctx_Redirect : Z -> string -> Context -> Context * error;
  (** [ctx.NotFoundHandler()(ctx)] *)
  ctx_NotFound : Context -> Context * error
}.

Section Ship.

Context {ext : Externals}.

(** *** [Context] methods *)

(** Modelled from the spec: the methods of [Context] are not in the
    sources; they are modelled on [net/http]'s [Header], whose [Get],
    [Set] and [Add] canonicalise the key.

    [ctx.GetHeader]: the first value of the request header, [""] if none. *)
Definition GetHeader (ctx : Context) (key : string) : string :=
  match reqHeader ctx !! CanonicalHeaderKey key with
  | Some (v :: _) => v
  | _ => ""
  end.

Definition with_resHeader (ctx : Context) (h : gmap string (list string))
  : Context :=
  {| reqHeader := reqHeader ctx; urlParams := urlParams ctx;
     resHeader := h; resStatus := resStatus ctx; resBody := resBody ctx |}.

(** [ctx.SetHeader]: replaces the values of the response header. *)
Definition SetHeader (ctx : Context) (key value : string) : Context :=
  with_resHeader ctx (<[CanonicalHeaderKey key := [value]]> (resHeader ctx)).

(** [ctx.AddHeader]: appends a value to the response header. *)
Definition AddHeader (ctx : Context) (key value : string) : Context :=
  let k := CanonicalHeaderKey key in
  with_resHeader ctx
    (<[k := default [] (resHeader ctx !! k) ++ [value]]> (resHeader ctx)).

(** The values of a response header. *)
Definition RespHeader (ctx : Context) (key : string) : list string :=
  default [] (resHeader ctx !! CanonicalHeaderKey key).

(** [ctx.NoContent(code)]: writes the status and no body. *)
Definition NoContent (ctx : Context) (code : Z) : Context * error :=
  ({| reqHeader := reqHeader ctx; urlParams := urlParams ctx;
      resHeader := resHeader ctx; resStatus := Some code;
      resBody := resBody ctx |}, None).

(** [ctx.URLParam(name)]. *)
Definition URLParam (ctx : Context) (name : string) : string :=
  default "" (urlParams ctx !! name).

(** ** [Route] *)

(** The state of a [Route] object; [self] is the address of the object,
    the pointer [r] of the methods.  The fields [ship] and [group] are
    pointers to the dispatcher, which is threaded as the state of [Reg],
    and to the owning group, which no method here reads. *)
Record Route := {
  self : addr;
  host : string;
  path : string;
  name : string;
  mdwares : list Middleware;
  headers : list kvalues
}.

(** The heap in which the object of [r] is in state [r]. *)
Definition heap_of (r : Route) : RouteHeap :=
  fun a => if Nat.eqb a (self r) then headers r else [].

(** [newRoute], allocating the object at [a]. *)
Definition newRoute (a : addr) (prefix host path : string)
  (ms : list Middleware) : outcome Route :=
  if String.eqb path "" then Panicked "the route path must not be empty"
  else if negb (first_byte_is path "/")
  then Panicked ("path '" +:+ path +:+ "' must start with '/'")
  else Returned {| self := a; host := host;
                   path := strings_TrimSuffix prefix "/" +:+ path;
                   name := ""; mdwares := [] ++ ms; headers := [] |}.

(** [r.New()], allocating the clone at [a]. *)
Definition New (r : Route) (a : addr) : Route :=
  {| self := a; host := host r; path := path r; name := name r;
     mdwares := [] ++ mdwares r; headers := [] ++ headers r |}.

Definition NoMiddlewares (r : Route) : Route :=
  {| self := self r; host := host r; path := path r; name := name r;
     mdwares := []; headers := headers r |}.

Definition Name (r : Route) (name' : string) : Route :=
  {| self := self r; host := host r; path := path r; name := name';
     mdwares := mdwares r; headers := headers r |}.

Definition Host (r : Route) (host' : string) : Route :=
  {| self := self r; host := host'; path := path r; name := name r;
     mdwares := mdwares r; headers := headers r |}.

Definition Use (r : Route) (middlewares : list Middleware) : Route :=
  {| self := self r; host := host r; path := path r; name := name r;
     mdwares := mdwares r ++ middlewares; headers := headers r |}.

Definition HasHeader (r : Route) (headerK : string) (headerV : list string)
  : Route :=
  {| self := self r; host := host r; path := path r; name := name r;
     mdwares := mdwares r;
     headers := headers r ++
                [{| Key := CanonicalHeaderKey headerK; Values := headerV |}] |}.

(** The inner loop of the header check: [for _, v := range kv.Values]
    returning at the first [v == value]. *)
Fixpoint valueListed (values : list string) (value : string) : bool :=
  match values with
  | [] => false
  | v :: rest => if String.eqb v value then true else valueListed rest value
  end.

(** The body of the closure of [buildHeaderMiddleware], as the loop over
    the predicates it finds in [r.headers] when it runs. *)
Fixpoint checkHeaders (kvs : list kvalues) (next : Handler) (heap : RouteHeap)
  (ctx : Context) : Context * error :=
  match kvs with
  | [] => next heap ctx
  | kv :: rest =>
      let value := GetHeader ctx (Key kv) in
      if (length (Values kv) =? 0)%nat then
        if String.eqb value "" then
          (ctx, ErrBadRequest ("missing the header '" +:+ Key kv +:+ "'"))
        else checkHeaders rest next heap ctx
      else if valueListed (Values kv) value then next heap ctx
      else
        (ctx, ErrBadRequest
                ("invalid header '" +:+ Key kv +:+ ": " +:+ value +:+ "'"))
  end.

(** [r.buildHeaderMiddleware()]; [None] is the [nil] middleware.  The
    length test reads [r.headers] at the call, the closure reads it again,
    through [r], on every request. *)
Definition buildHeaderMiddleware (r : Route) : option Middleware :=
  if (length (headers r) =? 0)%nat then None
  else Some (fun next heap ctx => checkHeaders (heap (self r)) next heap ctx).

(** [for i := n - 1; i >= 0; i-- { handler = middlewares[i](handler) }]. *)
Fixpoint wrapFrom (middlewares : list Middleware) (n : nat) (handler : Handler)
  : Handler :=
  match n with
  | O => handler
  | S i =>
      wrapFrom middlewares i
        (match middlewares !! i with
         | Some m => m handler
         | None => handler
         end)
  end.

(** The slice [middlewares] that [addRoute] composes. *)
Definition composedMiddlewares (r : Route) : list Middleware :=
  match buildHeaderMiddleware r with
  | Some m => ([] ++ mdwares r) ++ [m]
  | None => mdwares r
  end.

Definition addRoute (r : Route) (name host path : string)
  (handler : option Handler) (methods : list string) : Reg unit :=
  match handler with
  | None => panic "handler must not be nil"
  | Some handler =>
      if (length methods =? 0)%nat then panic "the route requires methods"
      else if (String.length path =? 0)%nat || negb (first_byte_is path "/")
      then panic ("path '" +:+ path +:+ "' must start with '/'")
      else if negb (strings_Index path "//" =? -1)
      then panic ("bad path '" +:+ path +:+ "' contains duplicate // at index:"
                  +:+ fmt_d (strings_Index path "//"))
      else
        let middlewares := composedMiddlewares r in
        let middlewaresLen := Z.of_nat (length middlewares) in
        fun s =>
          if middlewaresLen >? MiddlewareMaxNum s
          then panic ("the number of middlewares '" +:+ fmt_d middlewaresLen
                      +:+ "' has exceeded the maximum '"
                      +:+ fmt_d (MiddlewareMaxNum s) +:+ "'") s
          else
            let handler := wrapFrom middlewares (length middlewares) handler in
            forEach methods
              (fun method => ship_addRoute name host path method handler) s
  end.

Definition Method (r : Route) (handler : option Handler)
  (methods : list string) : Reg unit :=
  addRoute r (name r) (host r) (path r) handler methods.

Definition Any (r : Route) (handler : option Handler) : Reg unit :=
  Method r handler AllMethods.
Definition CONNECT (r : Route) (handler : option Handler) : Reg unit :=
  Method r handler [MethodConnect].
Definition OPTIONS (r : Route) (handler : option Handler) : Reg unit :=
  Method r handler [MethodOptions].
Definition HEAD (r : Route) (handler : option Handler) : Reg unit :=
  Method r handler [MethodHead].
Definition PATCH (r : Route) (handler : option Handler) : Reg unit :=
  Method r handler [MethodPatch].
Definition TRACE (r : Route) (handler : option Handler) : Reg unit :=
  Method r handler [MethodTrace].
Definition GET (r : Route) (handler : option Handler) : Reg unit :=
  Method r handler [MethodGet].
Definition PUT (r : Route) (handler : option Handler) : Reg unit :=
  Method r handler [MethodPut].
Definition POST (r : Route) (handler : option Handler) : Reg unit :=
  Method r handler [MethodPost].
Definition DELETE (r : Route) (handler : option Handler) : Reg unit :=
  Method r handler [MethodDelete].

(** [r.Redirect(code, toURL, method...)]. *)
Definition Redirect (r : Route) (code : Z) (toURL : string)
  (method : list string) : Reg unit :=
  let rmethod :=
    match method with
    | m :: _ => if negb (String.eqb m "") then m else MethodGet
    | [] => MethodGet
    end in
  Method r (Some (fun _ ctx => ctx_Redirect code toURL ctx)) [rmethod].

(** [r.Map(method2handlers)].  A [range] over a Go map visits the entries
    in an order of its own choice: [method2handlers] lists the entries in
    the order of the visit. *)
Definition Map (r : Route) (method2handlers : list (string * option Handler))
  : Reg unit :=
  forEach method2handlers (fun mh => Method r (snd mh) [fst mh]).

Definition serveFileMetadata (r : Route) (ctx : Context) (filename : string)
  : Context * error :=
  match os_Open filename with
  | Error err => (ctx, NewHTTPError StatusInternalServerError err)
  | Ok f =>
      match Stat f with
      | Error err => (ctx, NewHTTPError StatusInternalServerError err)
      | Ok fi =>
          if IsDir fi then ctx_NotFound ctx
          else
            match ReadAll f with
            | Error err => (ctx, NewHTTPError StatusInternalServerError err)
            | Ok content =>
                let ctx := SetHeader ctx HeaderEtag (fmt_x (md5_Sum content)) in
                let ctx :=
                  SetHeader ctx HeaderContentLength (fmt_d (Size fi)) in
                NoContent ctx StatusOK
            end
      end
  end.

Definition StaticFile (r : Route) (filePath : string) : Reg unit :=
  if strings_Contains (path r) ":" || strings_Contains (path r) "*"
  then panic "URL parameters cannot be used when serving a static file"
  else
    addRoute r "" (host r) (path r)
      (Some (fun _ ctx => ctx_File filePath ctx)) [MethodGet] ;;
    addRoute r "" (host r) (path r)
      (Some (fun _ ctx => serveFileMetadata r ctx filePath)) [MethodHead].

Definition StaticFS (r : Route) (fs : FileSystem) : Reg unit :=
  if strings_Contains (path r) ":" || strings_Contains (path r) "*"
  then panic "URL parameters cannot be used when serving a static file"
  else
    let fileServer := fileServer_ServeHTTP (path r) fs in
    let rpath := path_Join (path r) "/*" in
    addRoute r "" (host r) rpath
      (Some (fun _ ctx =>
               match fs (URLParam ctx "*") with
               | Error _ => ctx_NotFound ctx
               | Ok _ => (fileServer ctx, None)
               end))
      [MethodHead; MethodGet].

(** [notDirFile]: the embedded file with [Readdir] overridden. *)
Definition notDirFile (f : File) : File :=
  {| Stat := Stat f; ReadAll := ReadAll f;
     Readdir := fun count => ([], None) |}.

(** [onlyFileFS{fs}.Open]. *)
Definition onlyFileFS (fs : FileSystem) : FileSystem :=
  fun name =>
    match fs name with
    | Error err => Error err
    | Ok f => Ok (notDirFile f)
    end.

Definition newOnlyFileFS (root : string) : FileSystem :=
  onlyFileFS (http_Dir root).

Definition Static (r : Route) (dirpath : string) : Reg unit :=
  StaticFS r (newOnlyFileFS dirpath).

(** ** Reading the properties *)

(** The decorator nesting [m1 (m2 (... (mn h)))] of a middleware list. *)
Definition nest (ms : list Middleware) (h : Handler) : Handler :=
  fold_right (fun m acc => m acc) h ms.

(** The header under which the probes below leave their marks. *)
Definition TraceHeader : string := "X-Trace".

(** A middleware that marks the response on the way in and on the way
    out, as a middleware with pre and post behaviour does. *)
Definition tracing (label : string) : Middleware :=
  fun next heap ctx =>
    let entered := AddHeader ctx TraceHeader (label +:+ "-enter") in
    let '(ctx', err) := next heap entered in
    (AddHeader ctx' TraceHeader (label +:+ "-exit"), err).

Definition enterAll (labels : list string) (ctx : Context) : Context :=
  fold_left (fun c l => AddHeader c TraceHeader (l +:+ "-enter")) labels ctx.

Definition exitAll (labels : list string) (ctx : Context) : Context :=
  fold_left (fun c l => AddHeader c TraceHeader (l +:+ "-exit")) labels ctx.

(** The registrations a successful [addRoute] hands to the dispatcher. *)
Definition registrations (name host path : string) (methods : list string)
  (handler : Handler) : list RouteInfo.t :=
  map (fun method => RouteInfo.mk name host path method handler) methods.

(** The conditions under which [addRoute] gives up. *)
Definition malformed (path : string) : Prop :=
  path = "" \/ String.get 0 path <> Some "/"%char.

Definition contains (s substr : string) : Prop :=
  exists i : nat, substring i (String.length substr) s = substr.

Definition crowded (r : Route) (s : Ship) : Prop :=
  Z.of_nat (length (composedMiddlewares r)) > MiddlewareMaxNum s.

Definition rejected (r : Route) (path : string) (handler : option Handler)
  (methods : list string) (s : Ship) : Prop :=
  handler = None \/
  methods = [] \/
  malformed path \/
  contains path "//" \/
  crowded r s.

(** What [Map] has handed to the dispatcher once it is through the
    entries [entries]. *)
Definition registeredBy (r : Route) (entries : list (string * option Handler))
  : list RouteInfo.t :=
  flat_map
    (fun mh =>
       match snd mh with
       | Some h =>
           registrations (name r) (host r) (path r) [fst mh]
             (nest (composedMiddlewares r) h)
       | None => []
       end)
    entries.

(** An entry of [Map] that [Method] takes. *)
Definition accepted (r : Route) (s : Ship) (mh : string * option Handler)
  : Prop :=
  ~ rejected r (path r) (snd mh) [fst mh] s.

(** A predicate that lets the request through to the next predicate: it
    lists no values and the request carries its header. *)
Definition present (ctx : Context) (kv : kvalues) : Prop :=
  Values kv = [] /\ GetHeader ctx (Key kv) <> "".

End Ship.

(** ** [Group] *)

Module Group.

(** The state of a [Group]; the field [ship] points to the dispatcher,
    which no method below reads. *)
Record t := {
  prefix : string;
  mdwares : list Middleware
}.

Definition newGroup (pprefix prefix : string)
  (middlewares : list Middleware) : outcome t :=
  let prefix := strings_TrimSuffix prefix "/" in
  if (String.length prefix =? 0)%nat
  then Panicked "the prefix must not be empty"
  else if negb (first_byte_is prefix "/")
  then Panicked ("prefix '" +:+ prefix +:+ "' must start with '/'")
  else
    let ms := [] in
    Returned {| prefix := pprefix +:+ prefix;
                mdwares := ms ++ middlewares |}.

Definition Use (g : t) (middlewares : list Middleware) : t :=
  {| prefix := prefix g; mdwares := mdwares g ++ middlewares |}.

Definition Group (g : t) (prefix' : string) (middlewares : list Middleware)
  : outcome t :=
  newGroup (prefix g) prefix' (mdwares g ++ middlewares).

Definition GroupNone (g : t) (prefix' : string)
  (middlewares : list Middleware) : outcome t :=
  newGroup (prefix g) prefix' middlewares.

(** Descending through nested [Group] calls, one prefix a level. *)
Fixpoint descend (g : t) (prefixes : list string) : outcome t :=
  match prefixes with
  | [] => Returned g
  | p :: rest =>
      match Group g p [] with
      | Returned child => descend child rest
      | Panicked v => Panicked v
      end
  end.

End Group.

(** A prefix [newGroup] accepts: what is left of it once a trailing slash
    is trimmed is not empty and starts with a slash. *)
Definition validPrefix (p : string) : Prop :=
  strings_TrimSuffix p "/" <> "" /\
  String.get 0 (strings_TrimSuffix p "/") = Some "/"%char.

(** The segments of a chain of prefixes, put end to end. *)
Definition segments (prefixes : list string) : string :=
  fold_right String.append "" (map (fun p => strings_TrimSuffix p "/") prefixes).


(** ** [Runner] *)

Module Runner.

Section World.

(** What the shutdown functions act on. *)
Variable W : Type.

(** Modelled from the spec: [OnceRunner] is not in the sources; it wraps
    a function so that it is executed by the first [Run] only. *)
Record OnceRunner := {
  task : W -> W;
  ran : bool
}.

Definition NewOnceRunner (f : W -> W) : OnceRunner :=
  {| task := f; ran := false |}.

Definition Run (o : OnceRunner) (w : W) : OnceRunner * W :=
  if ran o then (o, w) else ({| task := task o; ran := true |}, task o w).

(** The state of a [Runner].  [Server] is [None] for [nil]; of the server
    only the error its [Shutdown] returns matters here.  [stop] and
    [shut] are the guards of the two once-runners made by [NewRunner]
    (true once run); [done] is true once the channel is closed.
    [runStopfs] is reached through the guard [stop] only, so the channel
    is closed once. *)
Record Runner := {
  Server : option (option string);
  stopfs : list OnceRunner;
  stop : bool;
  shut : bool;
  done : bool
}.

Definition NewRunner : Runner :=
  {| Server := None; stopfs := []; stop := false; shut := false;
     done := false |}.

Definition RegisterOnShutdown (r : Runner) (functions : list (W -> W))
  : Runner :=
  fold_left
    (fun r f =>
       {| Server := Server r; stopfs := stopfs r ++ [NewOnceRunner f];
          stop := stop r; shut := shut r; done := done r |})
    functions r.

Definition with_stopfs (r : Runner) (fs : list OnceRunner) : Runner :=
  {| Server := Server r; stopfs := fs; stop := stop r; shut := shut r;
     done := done r |}.

(** [for _len := n - 1; _len >= 0; _len-- { r.stopfs[_len].Run() }]. *)
Fixpoint runHooks (r : Runner) (n : nat) (w : W) : Runner * W :=
  match n with
  | O => (r, w)
  | S i =>
      match stopfs r !! i with
      | Some f =>
          let '(f', w') := Run f w in
          runHooks (with_stopfs r (<[i := f']> (stopfs r))) i w'
      | None => runHooks r i w
      end
  end.

(** [close(r.done)]. *)
Definition close_done (r : Runner) : Runner :=
  {| Server := Server r; stopfs := stopfs r; stop := stop r;
     shut := shut r; done := true |}.

(** The states the runner and the world are in after each turn of the
    loop of [runStopfs], the first turn first: what a goroutine that looks
    at the runner while the loop runs can find. *)
Fixpoint hookSteps (r : Runner) (n : nat) (w : W) : list (Runner * W) :=
  match n with
  | O => []
  | S i =>
      match stopfs r !! i with
      | Some f =>
          let '(f', w') := Run f w in
          let r' := with_stopfs r (<[i := f']> (stopfs r)) in
          (r', w') :: hookSteps r' i w'
      | None => (r, w) :: hookSteps r i w
      end
  end.

(** [runStopfs], step by step: the states after each turn of the loop,
    then the state after the deferred [close(r.done)], which runs when the
    function returns, that is when the loop is over. *)
Definition runStopfsSteps (r : Runner) (w : W) : list (Runner * W) :=
  let '(r', w') := runHooks r (length (stopfs r)) w in
  hookSteps r (length (stopfs r)) w ++ [(close_done r', w')].

(** [runStopfs]: the state its last step leaves. *)
Definition runStopfs (r : Runner) (w : W) : Runner * W :=
  List.last (runStopfsSteps r w) (r, w).

(** [r.stop.Run()]. *)
Definition stop_Run (r : Runner) (w : W) : Runner * W :=
  if stop r then (r, w)
  else runStopfs {| Server := Server r; stopfs := stopfs r; stop := true;
                    shut := shut r; done := done r |} w.

Definition Shutdown (r : Runner) (w : W) : Runner * W * option string :=
  match Server r with
  | None => (r, w, Some "the server has not been started")
  | Some err =>
      let '(r', w') := stop_Run r w in (r', w', err)
  end.

Definition runShutdown (r : Runner) (w : W) : Runner * W :=
  fst (Shutdown r w).

(** [r.Stop()], that is [r.shut.Run()]. *)
Definition Stop (r : Runner) (w : W) : Runner * W :=
  if shut r then (r, w)
  else runShutdown {| Server := Server r; stopfs := stopfs r;
                      stop := stop r; shut := true; done := done r |} w.

(** [r.Wait()] returns once [done] is closed and blocks until then. *)
Definition Wait (r : Runner) : option unit :=
  if done r then Some tt else None.

(** A way to ask the runner to stop. *)
Inductive trigger := CallStop | CallShutdown.

Definition fire (t : trigger) (r : Runner) (w : W) : Runner * W :=
  match t with
  | CallStop => Stop r w
  | CallShutdown => fst (Shutdown r w)
  end.

Fixpoint fireAll (ts : list trigger) (r : Runner) (w : W) : Runner * W :=
  match ts with
  | [] => (r, w)
  | t :: rest => let '(r', w') := fire t r w in fireAll rest r' w'
  end.

(** A runner whose field [Server] has been set. *)
Definition with_Server (r : Runner) (err : option string) : Runner :=
  {| Server := Some err; stopfs := stopfs r; stop := stop r;
     shut := shut r; done := done r |}.

(** Running functions one after the other, the first of [order] first. *)
Definition runInOrder (order : list (W -> W)) (w : W) : W :=
  fold_left (fun w f => f w) order w.

(** A once-runner after a call of [Run], and what that call does to the
    world. *)
Definition settle (o : OnceRunner) : OnceRunner :=
  {| task := task o; ran := true |}.

Definition runDue (o : OnceRunner) (w : W) : W :=
  if ran o then w else task o w.

End World.

Arguments NewRunner {W}.
Arguments task {W} o w.
Arguments ran {W} o.
Arguments Server {W} r.
Arguments stopfs {W} r.
Arguments stop {W} r.
Arguments shut {W} r.
Arguments done {W} r.
Arguments NewOnceRunner {W} f.
Arguments Run {W} o w.
Arguments RegisterOnShutdown {W} r functions.
Arguments with_stopfs {W} r fs.
Arguments runHooks {W} r n w.
Arguments close_done {W} r.
Arguments hookSteps {W} r n w.
Arguments runStopfsSteps {W} r w.
Arguments runStopfs {W} r w.
Arguments stop_Run {W} r w.
Arguments Shutdown {W} r w.
Arguments runShutdown {W} r w.
Arguments Stop {W} r w.
Arguments Wait {W} r.
Arguments fire {W} t r w.
Arguments fireAll {W} ts r w.
Arguments with_Server {W} r err.
Arguments runInOrder {W} order w.
Arguments settle {W} o.
Arguments runDue {W} o w.

End Runner.

(** ** Registration in full *)

(** [Ship.addRoute] as the route layer sees it: a call that may write the
    dispatcher and may panic (the router refuses a duplicate or an
    ambiguous pattern).  [ship_addRoute] above is the one that records and
    never refuses. *)
Definition Dispatcher :=
  string -> string -> string -> string -> Handler -> Reg unit.

(** Handing registrations to a dispatcher, in order, until it refuses
    one. *)
Definition handOver (dispatch : Dispatcher) (l : list RouteInfo.t)
  : Reg unit :=
  forEach l
    (fun ri =>
       dispatch (RouteInfo.Name ri) (RouteInfo.Host ri) (RouteInfo.Path ri)
         (RouteInfo.Method ri) (RouteInfo.Handler ri)).

(** The registration path of [route.go] once more, with the two things
    the embedding above leaves out: the dispatcher is any [Dispatcher],
    and a middleware may be [nil] ([None]), as after [r.Use(nil)].  A
    middleware that is not nil is taken to return when it is applied. *)
Module Registering.

Section Registering.

Context {ext : Externals}.

Variable dispatch : Dispatcher.

(** The state of a [Route] object, as before but for the middlewares. *)
Record t := {
  self : addr;
  host : string;
  path : string;
  name : string;
  mdwares : list (option Middleware);
  headers : list kvalues
}.

Definition Use (r : t) (middlewares : list (option Middleware)) : t :=
  {| self := self r; host := host r; path := path r; name := name r;
     mdwares := mdwares r ++ middlewares; headers := headers r |}.

Definition HasHeader (r : t) (headerK : string) (headerV : list string) : t :=
  {| self := self r; host := host r; path := path r; name := name r;
     mdwares := mdwares r;
     headers := headers r ++
                [{| Key := CanonicalHeaderKey headerK; Values := headerV |}] |}.

Definition buildHeaderMiddleware (r : t) : option Middleware :=
  if (length (headers r) =? 0)%nat then None
  else Some (fun next heap ctx => checkHeaders (heap (self r)) next heap ctx).

(** The slice [middlewares] that [addRoute] composes. *)
Definition composedMiddlewares (r : t) : list (option Middleware) :=
  match buildHeaderMiddleware r with
  | Some m => ([] ++ mdwares r) ++ [Some m]
  | None => mdwares r
  end.

(** [for i := n - 1; i >= 0; i-- { handler = middlewares[i](handler) }];
    calling a nil function is a run-time panic. *)
Fixpoint wrapFrom (middlewares : list (option Middleware)) (n : nat)
  (handler : Handler) : outcome Handler :=
  match n with
  | O => Returned handler
  | S i =>
      match middlewares !! i with
      | Some (Some m) => wrapFrom middlewares i (m handler)
      | Some None =>
          Panicked "invalid memory address or nil pointer dereference"
      | None => wrapFrom middlewares i handler
      end
  end.

Definition addRoute (r : t) (name host path : string)
  (handler : option Handler) (methods : list string) : Reg unit :=
  match handler with
  | None => panic "handler must not be nil"
  | Some handler =>
      if (length methods =? 0)%nat then panic "the route requires methods"
      else if (String.length path =? 0)%nat || negb (first_byte_is path "/")
      then panic ("path '" +:+ path +:+ "' must start with '/'")
      else if negb (strings_Index path "//" =? -1)
      then panic ("bad path '" +:+ path +:+ "' contains duplicate // at index:"
                  +:+ fmt_d (strings_Index path "//"))
      else
        let middlewares := composedMiddlewares r in
        let middlewaresLen := Z.of_nat (length middlewares) in
        fun s =>
          if middlewaresLen >? MiddlewareMaxNum s
          then panic ("the number of middlewares '" +:+ fmt_d middlewaresLen
                      +:+ "' has exceeded the maximum '"
                      +:+ fmt_d (MiddlewareMaxNum s) +:+ "'") s
          else
            match wrapFrom middlewares (length middlewares) handler with
            | Panicked v => panic v s
            | Returned handler =>
                forEach methods
                  (fun method => dispatch name host path method handler) s
            end
  end.

Definition Method (r : t) (handler : option Handler) (methods : list string)
  : Reg unit :=
  addRoute r (name r) (host r) (path r) handler methods.

Definition Any (r : t) (handler : option Handler) : Reg unit :=
  Method r handler AllMethods.
Definition CONNECT (r : t) (handler : option Handler) : Reg unit :=
  Method r handler [MethodConnect].
Definition OPTIONS (r : t) (handler : option Handler) : Reg unit :=
  Method r handler [MethodOptions].
Definition HEAD (r : t) (handler : option Handler) : Reg unit :=
  Method r handler [MethodHead].
Definition PATCH (r : t) (handler : option Handler) : Reg unit :=
  Method r handler [MethodPatch].
Definition TRACE (r : t) (handler : option Handler) : Reg unit :=
  Method r handler [MethodTrace].
Definition GET (r : t) (handler : option Handler) : Reg unit :=
  Method r handler [MethodGet].
Definition PUT (r : t) (handler : option Handler) : Reg unit :=
  Method r handler [MethodPut].
Definition POST (r : t) (handler : option Handler) : Reg unit :=
  Method r handler [MethodPost].
Definition DELETE (r : t) (handler : option Handler) : Reg unit :=
  Method r handler [MethodDelete].

Definition Redirect (r : t) (code : Z) (toURL : string)
  (method : list string) : Reg unit :=
  let rmethod :=
    match method with
    | m :: _ => if negb (String.eqb m "") then m else MethodGet
    | [] => MethodGet
    end in
  Method r (Some (fun _ ctx => ctx_Redirect code toURL ctx)) [rmethod].

(** [method2handlers] lists the entries of the Go map in the order of the
    visit. *)
Definition Map (r : t) (method2handlers : list (string * option Handler))
  : Reg unit :=
  forEach method2handlers (fun mh => Method r (snd mh) [fst mh]).

Definition serveFileMetadata (r : t) (ctx : Context) (filename : string)
  : Context * error :=
  match os_Open filename with
  | Error err => (ctx, NewHTTPError StatusInternalServerError err)
  | Ok f =>
      match Stat f with
      | Error err => (ctx, NewHTTPError StatusInternalServerError err)
      | Ok fi =>
          if IsDir fi then ctx_NotFound ctx
          else
            match ReadAll f with
            | Error err => (ctx, NewHTTPError StatusInternalServerError err)
            | Ok content =>
                let ctx := SetHeader ctx HeaderEtag (fmt_x (md5_Sum content)) in
                let ctx :=
                  SetHeader ctx HeaderContentLength (fmt_d (Size fi)) in
                NoContent ctx StatusOK
            end
      end
  end.

Definition StaticFile (r : t) (filePath : string) : Reg unit :=
  if strings_Contains (path r) ":" || strings_Contains (path r) "*"
  then panic "URL parameters cannot be used when serving a static file"
  else
    addRoute r "" (host r) (path r)
      (Some (fun _ ctx => ctx_File filePath ctx)) [MethodGet] ;;
    addRoute r "" (host r) (path r)
      (Some (fun _ ctx => serveFileMetadata r ctx filePath)) [MethodHead].

(** The handler [StaticFS] registers. *)
Definition serveFS (r : t) (fs : FileSystem) : Handler :=
  fun _ ctx =>
    match fs (URLParam ctx "*") with
    | Error _ => ctx_NotFound ctx
    | Ok _ => (fileServer_ServeHTTP (path r) fs ctx, None)
    end.

Definition StaticFS (r : t) (fs : FileSystem) : Reg unit :=
  if strings_Contains (path r) ":" || strings_Contains (path r) "*"
  then panic "URL parameters cannot be used when serving a static file"
  else
    let rpath := path_Join (path r) "/*" in
    addRoute r "" (host r) rpath (Some (serveFS r fs))
      [MethodHead; MethodGet].

Definition Static (r : t) (dirpath : string) : Reg unit :=
  StaticFS r (newOnlyFileFS dirpath).

(** *** Reading the properties *)

(** The middlewares that are not nil. *)
Definition nonNil (ms : list (option Middleware)) : list Middleware :=
  omap id ms.

(** The handler [addRoute] hands over when no middleware is nil. *)
Definition wrapped (r : t) (h : Handler) : Handler :=
  nest (nonNil (composedMiddlewares r)) h.

Definition crowded (r : t) (s : Ship) : Prop :=
  Z.of_nat (length (composedMiddlewares r)) > MiddlewareMaxNum s.

(** The conditions under which [addRoute] gives up before it calls the
    dispatcher. *)
Definition refused (r : t) (path : string) (handler : option Handler)
  (methods : list string) (s : Ship) : Prop :=
  handler = None \/
  methods = [] \/
  malformed path \/
  contains path "//" \/
  crowded r s \/
  In None (mdwares r).

(** The entries of [Map] as registrations. *)
Definition registeredBy (r : t) (entries : list (string * option Handler))
  : list RouteInfo.t :=
  flat_map
    (fun mh =>
       match snd mh with
       | Some h =>
           registrations (name r) (host r) (path r) [fst mh] (wrapped r h)
       | None => []
       end)
    entries.

End Registering.

(** A registration call fails by itself: it panics whatever the
    dispatcher is and leaves the dispatcher's state as it was, so the
    panic comes before any call of the dispatcher. *)
Definition failsByItself (call : Dispatcher -> Reg unit) (s : Ship) : Prop :=
  exists v : string, forall dispatch : Dispatcher,
    call dispatch s = (s, Panicked v).

(** A dispatcher that leaves [MiddlewareMaxNum] alone. *)
Definition keepsTheMaximum (dispatch : Dispatcher) : Prop :=
  forall (name host path method : string) (handler : Handler) (s : Ship),
    MiddlewareMaxNum (fst (dispatch name host path method handler s))
    = MiddlewareMaxNum s.

End Registering.

(** The routes of the embedding above are the routes without nil
    middleware. *)
Definition fromBuilder (r : Route) : Registering.t :=
  {| Registering.self := self r; Registering.host := host r;
     Registering.path := path r; Registering.name := name r;
     Registering.mdwares := map Some (mdwares r);
     Registering.headers := headers r |}.

(** ** The CORS middleware *)

(** [strings.Join]. *)
Fixpoint strings_Join (elems : list string) (sep : string) : string :=
  match elems with
  | [] => ""
  | [e] => e
  | e :: rest => e +:+ sep +:+ strings_Join rest sep
  end.

Module CORS.

Record CORSConfig := {
  AllowOrigins : list string;
  AllowHeaders : list string;
  AllowMethods : list string;
  ExposeHeaders : list string;
  AllowCredentials : bool;
  MaxAge : Z
}.

(** The zero value of [CORSConfig]. *)
Definition zeroConfig : CORSConfig :=
  {| AllowOrigins := []; AllowHeaders := []; AllowMethods := [];
     ExposeHeaders := []; AllowCredentials := false; MaxAge := 0 |}.

(** The header names of package [ship] the middleware uses; they are
    constants defined outside the sources, taken with their HTTP names. *)
Definition HeaderOrigin := "Origin".
Definition HeaderVary := "Vary".
Definition HeaderAccessControlRequestMethod := "Access-Control-Request-Method".
Definition HeaderAccessControlRequestHeaders :=
  "Access-Control-Request-Headers".
Definition HeaderAccessControlAllowOrigin := "Access-Control-Allow-Origin".
Definition HeaderAccessControlAllowMethods := "Access-Control-Allow-Methods".
Definition HeaderAccessControlAllowHeaders := "Access-Control-Allow-Headers".
Definition HeaderAccessControlAllowCredentials :=
  "Access-Control-Allow-Credentials".
Definition HeaderAccessControlExposeHeaders :=
  "Access-Control-Expose-Headers".
Definition HeaderAccessControlMaxAge := "Access-Control-Max-Age".

Definition StatusNoContent : Z := 204.

Section Middleware.

Context {ext : Externals}.

(** [matchSubdomain] of package [middleware] and [ctx.Method()] are
    outside the sources. *)
Variable matchSubdomain : string -> string -> bool.
Variable ctx_Method : Context -> string.

(** The configuration after the defaults are filled in. *)
Definition defaults (config : list CORSConfig) : CORSConfig :=
  let conf := match config with c :: _ => c | [] => zeroConfig end in
  let conf :=
    if (length (AllowOrigins conf) =? 0)%nat
    then {| AllowOrigins := ["*"]; AllowHeaders := AllowHeaders conf;
            AllowMethods := AllowMethods conf;
            ExposeHeaders := ExposeHeaders conf;
            AllowCredentials := AllowCredentials conf;
            MaxAge := MaxAge conf |}
    else conf in
  if (length (AllowMethods conf) =? 0)%nat
  then {| AllowOrigins := AllowOrigins conf;
          AllowHeaders := AllowHeaders conf;
          AllowMethods := [MethodHead; MethodGet; MethodPost; MethodPut;
                           MethodPatch; MethodDelete];
          ExposeHeaders := ExposeHeaders conf;
          AllowCredentials := AllowCredentials conf;
          MaxAge := MaxAge conf |}
  else conf.

(** The loop [for _, o := range conf.AllowOrigins] with its two [break]s;
    [allowOrigin] is the value of the variable on entry. *)
Fixpoint pickOrigin (credentials : bool) (origin : string)
  (origins : list string) (allowOrigin : string) : string :=
  match origins with
  | [] => allowOrigin
  | o :: rest =>
      if String.eqb o "*" then
        let allowOrigin := if credentials then origin else o in
        if matchSubdomain origin o then origin
        else pickOrigin credentials origin rest allowOrigin
      else if String.eqb o origin then o
      else if matchSubdomain origin o then origin
      else pickOrigin credentials origin rest allowOrigin
  end.

Definition CORS (config : list CORSConfig) : Middleware :=
  let conf := defaults config in
  let allowMethods := strings_Join (AllowMethods conf) "," in
  let allowHeaders := strings_Join (AllowHeaders conf) "," in
  let exposeHeaders := strings_Join (ExposeHeaders conf) "," in
  let maxAge := fmt_d (MaxAge conf) in
  fun next heap ctx =>
    let origin := GetHeader ctx HeaderOrigin in
    let allowOrigin :=
      pickOrigin (AllowCredentials conf) origin (AllowOrigins conf) "" in
    if negb (String.eqb (ctx_Method ctx) MethodOptions) then
      let ctx := AddHeader ctx HeaderVary HeaderOrigin in
      let ctx := SetHeader ctx HeaderAccessControlAllowOrigin allowOrigin in
      let ctx :=
        if AllowCredentials conf
        then SetHeader ctx HeaderAccessControlAllowCredentials "true"
        else ctx in
      let ctx :=
        if negb (String.eqb exposeHeaders "")
        then SetHeader ctx HeaderAccessControlExposeHeaders exposeHeaders
        else ctx in
      next heap ctx
    else
      let ctx := AddHeader ctx HeaderVary HeaderOrigin in
      let ctx := AddHeader ctx HeaderVary HeaderAccessControlRequestMethod in
      let ctx := AddHeader ctx HeaderVary HeaderAccessControlRequestHeaders in
      let ctx := SetHeader ctx HeaderAccessControlAllowOrigin allowOrigin in
      let ctx := SetHeader ctx HeaderAccessControlAllowMethods allowMethods in
      let ctx :=
        if AllowCredentials conf
        then SetHeader ctx HeaderAccessControlAllowCredentials "true"
        else ctx in
      let ctx :=
        if negb (String.eqb allowHeaders "")
        then SetHeader ctx HeaderAccessControlAllowHeaders allowHeaders
        else
          let h := GetHeader ctx HeaderAccessControlRequestHeaders in
          if negb (String.eqb h "")
          then SetHeader ctx HeaderAccessControlAllowHeaders h
          else ctx in
      let ctx :=
        if MaxAge conf >? 0
        then SetHeader ctx HeaderAccessControlMaxAge maxAge
        else ctx in
      NoContent ctx StatusNoContent.

End Middleware.

End CORS.

(** ** [Runner.Start] *)

Module Serving.

Section Handler.

(** The [http.Handler] values. *)
Variable H : Type.

(** The fields of [http.Server] that [Start] and [startServer] read:
    [Addr], [Handler] ([None] for [nil]) and whether [TLSConfig] is set. *)
Record HTTPServer := {
  Addr : string;
  Handler : option H;
  TLSConfig : bool
}.

(** The fields of [Runner] that [Start] reads and writes. *)
Record Fields := {
  Server : option HTTPServer;
  RunnerHandler : option H
}.

(** The call that serves, with what it is given. *)
Inductive serving :=
| ListenAndServe (server : HTTPServer)
| ListenAndServeTLS (server : HTTPServer) (certFile keyFile : string).

(** [startServer] up to the serving call: the check of the handler and the
    choice between the two ways to serve. *)
Definition startServer (server : HTTPServer) (certFile keyFile : string)
  : outcome serving :=
  match Handler server with
  | None => Panicked "Runner: Server.Handler is nil"
  | Some _ =>
      if TLSConfig server
         || negb (String.eqb certFile "") && negb (String.eqb keyFile "")
      then Returned (ListenAndServeTLS server certFile keyFile)
      else Returned (ListenAndServe server)
  end.

(** [Start] up to the serving call. *)
Definition Start (r : Fields) (addr : string) (tlsFiles : list string)
  : outcome serving :=
  let '(cert, key) :=
    match tlsFiles with
    | [c; k] =>
        if negb (String.eqb c "") && negb (String.eqb k "")
        then (c, k) else ("", "")
    | _ => ("", "")
    end in
  let server :=
    match Server r with
    | None => {| Addr := addr; Handler := RunnerHandler r;
                 TLSConfig := false |}
    | Some server => server
    end in
  let server :=
    match Handler server with
    | None => {| Addr := Addr server; Handler := RunnerHandler r;
                 TLSConfig := TLSConfig server |}
    | Some _ => server
    end in
  if String.eqb (Addr server) "" then
    startServer {| Addr := addr; Handler := Handler server;
                   TLSConfig := TLSConfig server |} cert key
  else if negb (String.eqb (Addr server) addr) then
    Panicked ("Runner.Server.Addr is not set to '" +:+ addr +:+ "'")
  else startServer server cert key.

(** The server a serving call is made on. *)
Definition served (c : serving) : HTTPServer :=
  match c with
  | ListenAndServe server => server
  | ListenAndServeTLS server _ _ => server
  end.

Definition overTLS (c : serving) : bool :=
  match c with
  | ListenAndServe _ => false
  | ListenAndServeTLS _ _ _ => true
  end.

End Handler.

Arguments Addr {H} h.
Arguments Handler {H} h.
Arguments TLSConfig {H} h.
Arguments Server {H} f.
Arguments RunnerHandler {H} f.
Arguments ListenAndServe {H} server.
Arguments ListenAndServeTLS {H} server certFile keyFile.
Arguments startServer {H} server certFile keyFile.
Arguments Start {H} r addr tlsFiles.
Arguments served {H} c.
Arguments overTLS {H} c.

End Serving.

(** ** The index of the profiling routes *)

(** The handler of [pprof_index] in [HTTPPprofToRouteInfo], as the choice
    it makes on the request path: the name of the profile it serves
    ([path[_len:]]), or [None] when it serves the index page. *)
Definition pprofIndexTarget (path : string) : option string :=
  let i := strings_Index path "/debug/pprof/" in
  let _len := i + 13 in
  if Z.of_nat (String.length path) >? _len
  then Some (substring (Z.to_nat _len)
               (String.length path - Z.to_nat _len) path)
  else None.

(** ** Sample collaborators and inputs for the examples *)

Definition sampleFile : File :=
  {| Stat := Ok {| IsDir := false; Size := 3 |};
     ReadAll := Ok [Byte.x61; Byte.x62; Byte.x63];
     Readdir := fun _ => ([], None) |}.

Definition sampleDir : File :=
  {| Stat := Ok {| IsDir := true; Size := 4096 |};
     ReadAll := Error "is a directory";
     Readdir := fun _ => ([{| IsDir := false; Size := 3 |}], None) |}.

Definition sampleFS : FileSystem :=
  fun name =>
    if String.eqb name "/srv/a.txt" then Ok sampleFile
    else if String.eqb name "/srv" then Ok sampleDir
    else Error "no such file or directory".

(** Stand-ins for the standard library: header keys already canonical,
    paths joined as they are, a digest that keeps the bytes. *)
Definition sampleExternals : Externals :=
  {| CanonicalHeaderKey := fun k => k;
     path_Join := fun a b => a +:+ b;
     md5_Sum := fun content => content;
     os_Open := sampleFS;
     http_Dir := fun root name => sampleFS (root +:+ name);
     fileServer_ServeHTTP := fun _ _ ctx => ctx;
     ctx_File := fun _ ctx => (ctx, None);
     ctx_Redirect := fun _ _ ctx => (ctx, None);
     ctx_NotFound := fun ctx => (ctx, Some {| Code := 404; Err := "Not Found" |})
  |}.

Definition sampleShip : Ship := {| MiddlewareMaxNum := 128; routes := [] |}.

Definition emptyContext : Context :=
  {| reqHeader := ∅; urlParams := ∅; resHeader := ∅; resStatus := None;
     resBody := [] |}.

(** A request that carries the header [key: value] and nothing else. *)
Definition requestWith (key value : string) : Context :=
  {| reqHeader := {[ key := [value] ]}; urlParams := ∅; resHeader := ∅;
     resStatus := None; resBody := [] |}.

(** A terminal handler that answers 200. *)
Definition okHandler : Handler :=
  fun _ ctx =>
    ({| reqHeader := reqHeader ctx; urlParams := urlParams ctx;
        resHeader := resHeader ctx; resStatus := Some StatusOK;
        resBody := resBody ctx |}, None).

Definition sampleRoute (path : string) : Route :=
  {| self := 0%nat; host := ""; path := path; name := ""; mdwares := [];
     headers := [] |}.


(** A terminal handler that leaves its mark like the probes of [tracing]. *)
Definition markHandler : Handler :=
  fun _ ctx => (@AddHeader sampleExternals ctx TraceHeader "H", None).

(** A route with two probing middlewares and no header predicate. *)
Definition tracedRoute : Route :=
  {| self := 0%nat; host := ""; path := "/p"; name := "";
     mdwares := map (@tracing sampleExternals) ["A"; "B"]; headers := [] |}.

(** A route that asks for the header [X-Key], then for [X-Mode] to be
    [v1] or [v2]. *)
Definition guardedRoute : Route :=
  @HasHeader sampleExternals
    (@HasHeader sampleExternals (sampleRoute "/p") "X-Key" [])
    "X-Mode" ["v1"; "v2"].

(** Shutdown functions that write their name in a log. *)
Definition logHook (label : string) : list string -> list string :=
  fun log => log ++ [label].


(** Modelled from the spec: a dispatcher for which a duplicate route is
    fatal.  It refuses a registration whose host, method and path are
    registered already and records the others. *)
Definition refusingDuplicates : Dispatcher :=
  fun name host path method handler s =>
    if existsb
         (fun ri =>
            String.eqb (RouteInfo.Host ri) host
            && String.eqb (RouteInfo.Method ri) method
            && String.eqb (RouteInfo.Path ri) path)
         (routes s)
    then (s, Panicked "the route has been registered")
    else ship_addRoute name host path method handler s.

(** A route to which [Use(nil)] has been applied. *)
Definition nilRoute : Registering.t :=
  Registering.Use (fromBuilder (sampleRoute "/p")) [None].

(** A dispatcher that takes two middlewares a route. *)
Definition tightShip : Ship := {| MiddlewareMaxNum := 2; routes := [] |}.

(** Stand-ins for the two collaborators of the CORS middleware: no
    subdomain pattern matches, and every request is a preflight. *)
Definition noSubdomain : string -> string -> bool := fun _ _ => false.
Definition alwaysOptions : Context -> string := fun _ => MethodOptions.

(** A configuration that lists two origins and allows credentials. *)
Definition sampleCORS : CORS.CORSConfig :=
  {| CORS.AllowOrigins := ["https://a.example"; "https://b.example"];
     CORS.AllowHeaders := []; CORS.AllowMethods := [];
     CORS.ExposeHeaders := []; CORS.AllowCredentials := true;
     CORS.MaxAge := 600 |}.

(** A runner with one shutdown function and no server. *)
Definition idleRunner : Runner.Runner (list string) :=
  Runner.RegisterOnShutdown Runner.NewRunner [logHook "h1"].

(** * Properties *)

Section Properties.

Context {ext : Externals}.

(** ** The middleware chain *)

Lemma wrapFrom_prefix (ms1 : list Middleware) :
  forall (ms2 : list Middleware) (h : Handler),
    wrapFrom (ms1 ++ ms2) (length ms1) h = nest ms1 h.
Proof.
  induction ms1 as [|m ms1 IH] using rev_ind; intros ms2 h.
  - reflexivity.
  - rewrite length_app, Nat.add_1_r. cbn [wrapFrom].
    rewrite <- app_assoc. cbn [app].
    rewrite list_lookup_middle by reflexivity.
    rewrite IH. unfold nest. now rewrite fold_right_app.
Qed.

Lemma wrapFrom_nest (ms : list Middleware) (h : Handler) :
  wrapFrom ms (length ms) h = nest ms h.
Proof.
  rewrite <- (app_nil_r ms) at 1. apply wrapFrom_prefix.
Qed.

Lemma nest_tracing (h : Handler) (heap : RouteHeap) (labels : list string) :
  forall ctx : Context,
    nest (map tracing labels) h heap ctx =
    let '(ctx', err) := h heap (enterAll labels ctx) in
    (exitAll (rev labels) ctx', err).
Proof.
  induction labels as [|l labels IH]; intros ctx.
  - cbn. now destruct (h heap ctx).
  - cbn [map nest fold_right]. unfold tracing at 1.
    fold (nest (map tracing labels) h). rewrite IH.
    cbn [enterAll fold_left].
    fold (enterAll labels (AddHeader ctx TraceHeader (l +:+ "-enter"))).
    destruct (h heap _) as [ctx' err].
    cbn [rev]. unfold exitAll. rewrite fold_left_app. reflexivity.
Qed.

(** ** What [addRoute] does *)

Lemma forEach_ship_addRoute (name host path : string) (handler : Handler)
  (methods : list string) :
  forall s : Ship,
    forEach methods
      (fun method => ship_addRoute name host path method handler) s =
    ({| MiddlewareMaxNum := MiddlewareMaxNum s;
        routes := routes s ++ registrations name host path methods handler |},
     Returned tt).
Proof.
  induction methods as [|m methods IH]; intros s.
  - cbn. rewrite app_nil_r. now destruct s.
  - cbn [forEach]. unfold bind. cbn [ship_addRoute].
    rewrite IH. cbn. now rewrite <- app_assoc.
Qed.

Lemma composed_without_headers (r : Route) :
  headers r = [] -> composedMiddlewares r = mdwares r.
Proof.
  intros H. unfold composedMiddlewares, buildHeaderMiddleware.
  now rewrite H.
Qed.

Lemma composed_with_headers (r : Route) :
  headers r <> [] ->
  exists m : Middleware,
    buildHeaderMiddleware r = Some m /\
    composedMiddlewares r = mdwares r ++ [m].
Proof.
  intros H. unfold composedMiddlewares, buildHeaderMiddleware.
  destruct (headers r) as [|kv kvs]; [congruence|].
  cbn. eauto.
Qed.

Lemma strings_Index_none (s substr : string) :
  substr <> "" ->
  strings_Index s substr = -1 <->
  (forall i : nat, substring i (String.length substr) s <> substr).
Proof.
  intros Hne. unfold strings_Index.
  destruct (String.index 0 substr s) as [m|] eqn:E.
  - split; [lia|]. intros H. exfalso.
    apply (H m). eapply index_correct1; eauto.
  - split; [|reflexivity]. intros _ i.
    eapply index_correct3; eauto. lia.
Qed.

Lemma first_byte_is_false (s : string) (c : ascii) :
  first_byte_is s c = false <-> (s = "" \/ String.get 0 s <> Some c).
Proof.
  unfold first_byte_is. destruct s as [|b s]; cbn.
  - tauto.
  - destruct (Ascii.eqb_spec b c) as [->|Hne]; split; intros H;
      try discriminate; try (right; congruence).
    + destruct H as [H|H]; [discriminate | congruence].
    + reflexivity.
Qed.

Lemma addRoute_accepts (r : Route) (name host path : string) (h : Handler)
  (methods : list string) (s : Ship) :
  ~ rejected r path (Some h) methods s ->
  addRoute r name host path (Some h) methods s =
  ({| MiddlewareMaxNum := MiddlewareMaxNum s;
      routes := routes s ++
                registrations name host path methods
                  (nest (composedMiddlewares r) h) |},
   Returned tt).
Proof.
  intros Hok. unfold rejected, malformed, contains, crowded in Hok.
  unfold addRoute.
  destruct methods as [|m methods]; [tauto|]. cbn [length Nat.eqb].
  destruct (first_byte_is path "/") eqn:Hf.
  2:{ apply first_byte_is_false in Hf. tauto. }
  assert (Hlen : (String.length path =? 0)%nat = false).
  { destruct path; [discriminate | reflexivity]. }
  rewrite Hlen. cbn [orb negb].
  assert (Hidx : strings_Index path "//" = -1).
  { apply strings_Index_none; [discriminate|]. intros i Hi.
    apply Hok. do 3 right. left. exists i. exact Hi. }
  rewrite Hidx, Z.eqb_refl. cbn [negb]. cbv beta zeta.
  destruct (Z.gtb_spec (Z.of_nat (length (composedMiddlewares r)))
              (MiddlewareMaxNum s)) as [Hgt|Hle].
  { exfalso. apply Hok. do 4 right. lia. }
  rewrite forEach_ship_addRoute, wrapFrom_nest. reflexivity.
Qed.

Lemma addRoute_rejects (r : Route) (name host path : string)
  (handler : option Handler) (methods : list string) (s : Ship) :
  rejected r path handler methods s ->
  exists v : string,
    addRoute r name host path handler methods s = (s, Panicked v).
Proof.
  intros Hbad. unfold rejected, malformed, contains, crowded in Hbad.
  unfold addRoute.
  destruct handler as [h|]; [|eexists; reflexivity].
  destruct methods as [|m methods]; [eexists; reflexivity|].
  cbn [length Nat.eqb].
  destruct (first_byte_is path "/") eqn:Hf.
  2:{ rewrite orb_true_r. eexists; reflexivity. }
  assert (Hlen : (String.length path =? 0)%nat = false).
  { destruct path; [discriminate | reflexivity]. }
  rewrite Hlen. cbn [orb negb].
  destruct (Z.eqb_spec (strings_Index path "//") (-1)) as [Hidx|Hidx].
  2:{ cbn [negb]. eexists; reflexivity. }
  cbn [negb]. cbv beta zeta.
  destruct (Z.gtb_spec (Z.of_nat (length (composedMiddlewares r)))
              (MiddlewareMaxNum s)) as [Hgt|Hle].
  { eexists; reflexivity. }
  exfalso. destruct Hbad as [H|[H|[H|[H|H]]]]; try discriminate; try lia.
  - assert (first_byte_is path "/" = false) by now apply first_byte_is_false.
    congruence.
  - destruct H as [i Hi].
    apply (proj1 (strings_Index_none path "//" ltac:(discriminate)) Hidx i Hi).
Qed.

(** ** C1: the registered handler is the decorator nesting *)

Lemma addRoute_panics_rejected (r : Route) (name host path : string)
  (handler : option Handler) (methods : list string) (s : Ship) :
  panics (snd (addRoute r name host path handler methods s)) ->
  rejected r path handler methods s.
Proof.
  unfold addRoute, rejected, malformed, contains, crowded.
  destruct handler as [h|]; [|now left].
  destruct methods as [|m methods]; [now (right; left)|].
  cbn [length Nat.eqb].
  destruct (first_byte_is path "/") eqn:Hf.
  2:{ intros _. do 2 right. left. now apply first_byte_is_false. }
  assert (Hlen : (String.length path =? 0)%nat = false).
  { destruct path; [discriminate | reflexivity]. }
  rewrite Hlen. cbn [orb negb].
  destruct (Z.eqb_spec (strings_Index path "//") (-1)) as [Hidx|Hidx].
  2:{ intros _. do 3 right. left. unfold strings_Index in Hidx.
      destruct (String.index 0 "//" path) as [i|] eqn:E; [|congruence].
      exists i. apply (index_correct1 _ _ _ _ E). }
  cbn [negb]. cbv beta zeta.
  destruct (Z.gtb_spec (Z.of_nat (length (composedMiddlewares r)))
              (MiddlewareMaxNum s)) as [Hgt|Hle].
  { intros _. do 4 right. lia. }
  rewrite forEach_ship_addRoute. cbn. tauto.
Qed.

Lemma addRoute_registered (r : Route) (name host path : string)
  (h : Handler) (methods : list string) (s : Ship) :
  ~ panics (snd (addRoute r name host path (Some h) methods s)) ->
  routes (fst (addRoute r name host path (Some h) methods s)) =
  routes s ++
  registrations name host path methods (nest (composedMiddlewares r) h).
Proof.
  intros Hok.
  assert (Hacc : ~ rejected r path (Some h) methods s).
  { intros Hbad. apply Hok.
    destruct (addRoute_rejects r name host path _ _ _ Hbad) as [v ->].
    exact I. }
  now rewrite (addRoute_accepts _ _ _ _ _ _ _ Hacc).
Qed.

(** C1.  When [addRoute] registers (it does not panic), the handler it
    hands to the dispatcher for every requested method is the nesting
    [m1 (m2 (... (mn h)))] of the slice it composes.  Without header
    predicates that slice is the route's middleware list, and for the
    empty list the handler is [h] itself; with header predicates the
    synthesized check is the innermost layer.  On a request the layers are
    entered first to last, then [h] runs, then the layers are left last
    to first.  [Method], [Any] and the nine verb shorthands register that
    same nesting, under the route's name, host and path, for the methods
    given to [Method], for all the methods, and for their own method. *)
Theorem addRoute_registers_nesting (r : Route) (name' host' path' : string)
  (h : Handler) (methods : list string) (s : Ship) :
  ~ panics (snd (addRoute r name' host' path' (Some h) methods s)) ->
  let registered := nest (composedMiddlewares r) h in
  routes (fst (addRoute r name' host' path' (Some h) methods s)) =
    routes s ++ registrations name' host' path' methods registered
  /\ (headers r = [] -> registered = nest (mdwares r) h)
  /\ (headers r = [] -> mdwares r = [] -> registered = h)
  /\ (headers r <> [] ->
      exists m : Middleware,
        buildHeaderMiddleware r = Some m /\
        registered = nest (mdwares r) (m h))
  /\ (forall labels : list string,
        headers r = [] -> mdwares r = map tracing labels ->
        forall (heap : RouteHeap) (ctx : Context),
          registered heap ctx =
          let '(ctx', err) := h heap (enterAll labels ctx) in
          (exitAll (rev labels) ctx', err))
  /\ (forall (verb : Route -> option Handler -> Reg unit)
             (verbMethods : list string),
        In (verb, verbMethods)
           [(fun r handler => Method r handler methods, methods);
            (Any, AllMethods);
            (CONNECT, [MethodConnect]);
            (OPTIONS, [MethodOptions]);
            (HEAD, [MethodHead]);
            (PATCH, [MethodPatch]);
            (TRACE, [MethodTrace]);
            (GET, [MethodGet]);
            (PUT, [MethodPut]);
            (POST, [MethodPost]);
            (DELETE, [MethodDelete])] ->
        ~ panics (snd (verb r (Some h) s)) ->
        routes (fst (verb r (Some h) s)) =
          routes s ++
          registrations (name r) (host r) (path r) verbMethods registered).
Proof.
  intros Hok registered.
  split; [now apply addRoute_registered|].
  split; [|split; [|split; [|split]]].
  - intros Hh. unfold registered. now rewrite composed_without_headers.
  - intros Hh Hm. unfold registered.
    rewrite composed_without_headers by assumption. now rewrite Hm.
  - intros Hh. destruct (composed_with_headers r Hh) as (m & Hm & Hc).
    exists m. split; [assumption|]. unfold registered, nest.
    now rewrite Hc, fold_right_app.
  - intros labels Hh Hm heap ctx. unfold registered.
    rewrite composed_without_headers by assumption. rewrite Hm.
    apply nest_tracing.
  - intros verb verbMethods Hin.
    cbn [In] in Hin.
    repeat (destruct Hin as [[= <- <-]|Hin];
            [intros Hnp; exact (addRoute_registered r _ _ _ h _ s Hnp)|]).
    destruct Hin.
Qed.

(** ** C2: the header check *)

Lemma valueListed_In (values : list string) (value : string) :
  valueListed values value = true <-> In value values.
Proof.
  induction values as [|v values IH]; cbn.
  - split; [discriminate | tauto].
  - destruct (String.eqb_spec v value) as [->|Hne].
    + split; auto.
    + rewrite IH. split; [auto | intros [H|H]; congruence].
Qed.

Lemma checkHeaders_present (next : Handler) (heap : RouteHeap) (ctx : Context)
  (before : list kvalues) :
  Forall (present ctx) before ->
  forall rest : list kvalues,
    checkHeaders (before ++ rest) next heap ctx =
    checkHeaders rest next heap ctx.
Proof.
  induction 1 as [|kv before [Hv Hp] _ IH]; intros rest; [reflexivity|].
  cbn [app checkHeaders]. rewrite Hv. cbn [length Nat.eqb].
  destruct (String.eqb_spec (GetHeader ctx (Key kv)) "") as [E|_];
    [contradiction | apply IH].
Qed.

(** C2.  On a route with header predicates the synthesized middleware
    walks the predicates it finds in [r.headers], in registration order.
    With every earlier predicate present: a predicate without values
    whose header is missing ends the request with a bad-request error and
    [next] is not called; a predicate with values one of which equals the
    header calls [next] at once, whatever follows it; a predicate with
    values none of which equals the header ends the request with a
    bad-request error.  When the whole list has been walked, [next]
    runs. *)
Theorem header_check_in_order (r : Route) (next : Handler) (heap : RouteHeap)
  (ctx : Context) :
  headers r <> [] ->
  exists m : Middleware,
    buildHeaderMiddleware r = Some m
    /\ (Forall (present ctx) (heap (self r)) ->
        m next heap ctx = next heap ctx)
    /\ (forall (before : list kvalues) (kv : kvalues) (after : list kvalues),
          heap (self r) = before ++ kv :: after ->
          Forall (present ctx) before ->
          let value := GetHeader ctx (Key kv) in
          (Values kv = [] -> value = "" ->
           exists e : string,
             m next heap ctx =
             (ctx, Some {| Code := StatusBadRequest; Err := e |}))
          /\ (Values kv <> [] -> In value (Values kv) ->
              m next heap ctx = next heap ctx)
          /\ (Values kv <> [] -> ~ In value (Values kv) ->
              exists e : string,
                m next heap ctx =
                (ctx, Some {| Code := StatusBadRequest; Err := e |}))).
Proof.
  intros Hh. destruct (composed_with_headers r Hh) as (m & Hm & _).
  exists m. split; [assumption|].
  unfold buildHeaderMiddleware in Hm.
  destruct (length (headers r) =? 0)%nat; [discriminate|].
  injection Hm as <-. split.
  - intros Hall. rewrite <- (app_nil_r (heap (self r))).
    now rewrite checkHeaders_present.
  - intros before kv after Hsplit Hall value. rewrite Hsplit.
    rewrite checkHeaders_present by assumption. cbn [checkHeaders].
    fold value. repeat split.
    + intros Hv Hval. rewrite Hv, Hval. cbn. eauto.
    + intros Hv Hin. destruct (Values kv) as [|v vs] eqn:E; [congruence|].
      cbn [length Nat.eqb]. apply valueListed_In in Hin. now rewrite Hin.
    + intros Hv Hin. destruct (Values kv) as [|v vs] eqn:E; [congruence|].
      cbn [length Nat.eqb].
      destruct (valueListed (v :: vs) value) eqn:L.
      * apply valueListed_In in L. contradiction.
      * unfold ErrBadRequest, NewHTTPError. eauto.
Qed.


(** ** C10, and the lemmas on which registrations fail *)

Lemma strings_Contains_true (s substr : string) :
  substr <> "" ->
  strings_Contains s substr = true <-> contains s substr.
Proof.
  intros Hne. unfold strings_Contains, contains.
  destruct (Z.eq_dec (strings_Index s substr) (-1)) as [E|E].
  - rewrite E. split; [discriminate|]. intros [i Hi].
    exfalso. exact (proj1 (strings_Index_none s substr Hne) E i Hi).
  - unfold strings_Index in *.
    destruct (String.index 0 substr s) as [m|] eqn:I; [|congruence].
    split; [|intros _; apply Z.leb_le; lia].
    intros _. exists m. apply (index_correct1 _ _ _ _ I).
Qed.

Lemma addRoute_decides (r : Route) (path : string) (handler : option Handler)
  (methods : list string) (s : Ship) :
  rejected r path handler methods s \/ ~ rejected r path handler methods s.
Proof.
  destruct (snd (addRoute r "" "" path handler methods s)) as [u|v] eqn:E.
  - right. intros Hbad.
    destruct (addRoute_rejects r "" "" path _ _ _ Hbad) as [v Hv].
    rewrite Hv in E. discriminate.
  - left. apply (addRoute_panics_rejected r "" ""). now rewrite E.
Qed.

Lemma static_guard (p : string) :
  strings_Contains p ":" || strings_Contains p "*" = true <->
  contains p ":" \/ contains p "*".
Proof.
  rewrite orb_true_iff.
  now rewrite !strings_Contains_true by discriminate.
Qed.

Lemma StaticFile_cases (r : Route) (filePath : string) (s : Ship) :
  let bad := contains (path r) ":" \/ contains (path r) "*" \/
             malformed (path r) \/ contains (path r) "//" \/ crowded r s in
  (bad /\ exists v : string, StaticFile r filePath s = (s, Panicked v))
  \/ (~ bad /\
      StaticFile r filePath s =
      ({| MiddlewareMaxNum := MiddlewareMaxNum s;
          routes :=
            routes s ++
            [RouteInfo.mk "" (host r) (path r) MethodGet
               (nest (composedMiddlewares r)
                  (fun _ ctx => ctx_File filePath ctx));
             RouteInfo.mk "" (host r) (path r) MethodHead
               (nest (composedMiddlewares r)
                  (fun _ ctx => serveFileMetadata r ctx filePath))] |},
       Returned tt)).
Proof.
  intros bad. unfold StaticFile.
  destruct (strings_Contains (path r) ":" || strings_Contains (path r) "*")
    eqn:G.
  { left. apply static_guard in G. split; [|eexists; reflexivity].
    unfold bad. tauto. }
  assert (Hg : ~ (contains (path r) ":" \/ contains (path r) "*")).
  { intros H. apply static_guard in H. congruence. }
  set (getH := fun (_ : RouteHeap) ctx => ctx_File filePath ctx).
  set (headH := fun (_ : RouteHeap) ctx => serveFileMetadata r ctx filePath).
  destruct (addRoute_decides r (path r) (Some getH) [MethodGet] s)
    as [Hbad|Hok].
  - left. split.
    + unfold bad. unfold rejected in Hbad.
      destruct Hbad as [H|[H|H]]; [discriminate | discriminate | tauto].
    + destruct (addRoute_rejects r "" (host r) (path r) _ _ _ Hbad)
        as [v Hv].
      exists v. unfold bind. now rewrite Hv.
  - right. split.
    + unfold bad. unfold rejected in Hok. tauto.
    + unfold bind. rewrite (addRoute_accepts _ _ _ _ _ _ _ Hok).
      rewrite addRoute_accepts.
      * cbn. now rewrite <- app_assoc.
      * unfold rejected, crowded in *. cbn [MiddlewareMaxNum].
        intros [H|[H|H]]; [discriminate | discriminate | tauto].
Qed.

Lemma rejected_same_max (r : Route) (path : string)
  (handler : option Handler) (methods : list string) (s s' : Ship) :
  MiddlewareMaxNum s' = MiddlewareMaxNum s ->
  rejected r path handler methods s' <-> rejected r path handler methods s.
Proof. intros H. unfold rejected, crowded. now rewrite H. Qed.

Lemma Map_accepted (r : Route) (before : list (string * option Handler)) :
  forall (rest : list (string * option Handler)) (s : Ship),
    Forall (accepted r s) before ->
    Map r (before ++ rest) s =
    Map r rest {| MiddlewareMaxNum := MiddlewareMaxNum s;
                  routes := routes s ++ registeredBy r before |}.
Proof.
  unfold Map.
  induction before as [|[m handler] before IH]; intros rest s Hall.
  - cbn. rewrite app_nil_r. now destruct s.
  - inversion Hall as [|mh l Hok Hall' E]; subst.
    unfold accepted in Hok. cbn [fst snd] in Hok.
    destruct handler as [h|]; [|exfalso; apply Hok; now left].
    cbn [app forEach]. unfold bind at 1. cbn [fst snd].
    change (Method r (Some h) [m] s)
      with (addRoute r (name r) (host r) (path r) (Some h) [m] s).
    rewrite (addRoute_accepts _ _ _ _ _ _ _ Hok).
    rewrite IH.
    + cbn [MiddlewareMaxNum routes registeredBy flat_map fst snd].
      now rewrite <- app_assoc.
    + eapply Forall_impl; [exact Hall'|]. intros mh Hmh. unfold accepted in *.
      intros H. apply Hmh.
      now apply (rejected_same_max r (path r) _ _ s _ eq_refl) in H.
Qed.

(** C10.  [StaticFile] and [StaticFS] (hence [Static]) panic, and the
    dispatcher is left as it was, whenever the route's path contains a
    colon or a star. *)
Theorem static_routes_refuse_parameters (r : Route) (filePath : string)
  (fs : FileSystem) (dirpath : string) (s : Ship) :
  contains (path r) ":" \/ contains (path r) "*" ->
  (exists v : string, StaticFile r filePath s = (s, Panicked v))
  /\ (exists v : string, StaticFS r fs s = (s, Panicked v))
  /\ (exists v : string, Static r dirpath s = (s, Panicked v)).
Proof.
  intros H. apply static_guard in H.
  unfold Static, StaticFile, StaticFS. rewrite H.
  repeat split; eexists; reflexivity.
Qed.


(** ** C7: the metadata of a static file *)

Lemma RespHeader_SetHeader (ctx : Context) (key value : string) :
  RespHeader (SetHeader ctx key value) key = [value].
Proof.
  unfold RespHeader, SetHeader. cbn. now rewrite lookup_insert_eq.
Qed.

Lemma RespHeader_SetHeader_other (ctx : Context) (key key' value : string) :
  CanonicalHeaderKey key <> CanonicalHeaderKey key' ->
  RespHeader (SetHeader ctx key value) key' = RespHeader ctx key'.
Proof.
  intros Hne. unfold RespHeader, SetHeader. cbn.
  now rewrite lookup_insert_ne.
Qed.

(** C7.  The handler [StaticFile] registers for HEAD answers 200 without
    writing a body, with the ETag header set to the hexadecimal MD5 digest
    of the content and the Content-Length header set to the size [Stat]
    reports; it returns an error classified 500 when opening, [Stat] or
    reading fails, and the not-found outcome when the target is a
    directory.  The handler registered for GET on the same path is the
    context's file-serving routine.  (The two header names are taken to be
    distinct once canonical.) *)
Theorem StaticFile_head_metadata (r : Route) (filePath : string) (s : Ship)
  (ctx : Context) :
  CanonicalHeaderKey HeaderEtag <> CanonicalHeaderKey HeaderContentLength ->
  ~ (contains (path r) ":" \/ contains (path r) "*" \/
     malformed (path r) \/ contains (path r) "//" \/ crowded r s) ->
  let head : Handler := fun _ ctx => serveFileMetadata r ctx filePath in
  let get : Handler := fun _ ctx => ctx_File filePath ctx in
  routes (fst (StaticFile r filePath s)) =
    routes s ++
    [RouteInfo.mk "" (host r) (path r) MethodGet
       (nest (composedMiddlewares r) get);
     RouteInfo.mk "" (host r) (path r) MethodHead
       (nest (composedMiddlewares r) head)]
  /\ (forall e : string,
        os_Open filePath = Error e ->
        serveFileMetadata r ctx filePath =
        (ctx, Some {| Code := StatusInternalServerError; Err := e |}))
  /\ (forall (f : File) (e : string),
        os_Open filePath = Ok f -> Stat f = Error e ->
        serveFileMetadata r ctx filePath =
        (ctx, Some {| Code := StatusInternalServerError; Err := e |}))
  /\ (forall (f : File) (fi : FileInfo),
        os_Open filePath = Ok f -> Stat f = Ok fi -> IsDir fi = true ->
        serveFileMetadata r ctx filePath = ctx_NotFound ctx)
  /\ (forall (f : File) (fi : FileInfo) (e : string),
        os_Open filePath = Ok f -> Stat f = Ok fi -> IsDir fi = false ->
        ReadAll f = Error e ->
        serveFileMetadata r ctx filePath =
        (ctx, Some {| Code := StatusInternalServerError; Err := e |}))
  /\ (forall (f : File) (fi : FileInfo) (content : list Byte.byte),
        os_Open filePath = Ok f -> Stat f = Ok fi -> IsDir fi = false ->
        ReadAll f = Ok content ->
        exists ctx' : Context,
          serveFileMetadata r ctx filePath = (ctx', None)
          /\ resStatus ctx' = Some StatusOK
          /\ resBody ctx' = resBody ctx
          /\ RespHeader ctx' HeaderEtag = [fmt_x (md5_Sum content)]
          /\ RespHeader ctx' HeaderContentLength = [fmt_d (Size fi)]).
Proof.
  intros Hkeys Hok head get. split.
  { destruct (StaticFile_cases r filePath s) as [[Hbad _]|[_ ->]];
      [contradiction | reflexivity]. }
  unfold serveFileMetadata.
  split; [|split; [|split; [|split]]].
  - intros e ->. reflexivity.
  - intros f e -> ->. reflexivity.
  - intros f fi -> -> ->. reflexivity.
  - intros f fi e -> -> -> ->. reflexivity.
  - intros f fi content -> -> -> ->. cbv zeta.
    eexists. split; [reflexivity|]. split; [reflexivity|].
    split; [reflexivity|]. split.
    + unfold NoContent, RespHeader. cbn [fst resHeader].
      fold (RespHeader
              (SetHeader
                 (SetHeader ctx HeaderEtag (fmt_x (md5_Sum content)))
                 HeaderContentLength (fmt_d (Size fi))) HeaderEtag).
      rewrite RespHeader_SetHeader_other by congruence.
      apply RespHeader_SetHeader.
    + unfold NoContent, RespHeader. cbn [fst resHeader].
      fold (RespHeader
              (SetHeader
                 (SetHeader ctx HeaderEtag (fmt_x (md5_Sum content)))
                 HeaderContentLength (fmt_d (Size fi))) HeaderContentLength).
      apply RespHeader_SetHeader.
Qed.

(** ** C8: no directory listing *)

(** C8.  [Static] serves through [newOnlyFileFS], which opens what the
    underlying file system opens, and on every file so opened [Readdir]
    returns no entry and no error, whatever the count. *)
Theorem Static_never_lists (r : Route) (dirpath name : string) (f : File)
  (s : Ship) :
  newOnlyFileFS dirpath name = Ok f ->
  (forall count : Z, Readdir f count = ([], None))
  /\ (exists f0 : File,
        http_Dir dirpath name = Ok f0 /\ Stat f = Stat f0 /\
        ReadAll f = ReadAll f0)
  /\ Static r dirpath s = StaticFS r (newOnlyFileFS dirpath) s.
Proof.
  unfold newOnlyFileFS, onlyFileFS.
  destruct (http_Dir dirpath name) as [f0|e]; [|discriminate].
  intros [= <-]. split; [reflexivity|]. split; [|reflexivity].
  exists f0. auto.
Qed.

(** ** C6: groups *)

Lemma append_length (a b : string) :
  String.length (a +:+ b) = (String.length a + String.length b)%nat.
Proof. induction a as [|c a IH]; simpl; [reflexivity | now rewrite IH]. Qed.

Lemma append_assoc (a b c : string) : (a +:+ b) +:+ c = a +:+ (b +:+ c).
Proof.
  induction a as [|x a IH]; [reflexivity|].
  change (String x ((a +:+ b) +:+ c) = String x (a +:+ (b +:+ c))).
  now rewrite IH.
Qed.

Lemma append_empty (a : string) : a +:+ "" = a.
Proof.
  induction a as [|x a IH]; [reflexivity|].
  change (String x (a +:+ "") = String x a). now rewrite IH.
Qed.

Lemma substring_whole (b : string) : substring 0 (String.length b) b = b.
Proof. induction b as [|c b IH]; simpl; [reflexivity | now rewrite IH]. Qed.

Lemma substring_left (a b : string) :
  substring 0 (String.length a) (a +:+ b) = a.
Proof.
  induction a as [|c a IH]; [now destruct b|].
  change (String c (substring 0 (String.length a) (a +:+ b)) = String c a).
  now rewrite IH.
Qed.

Lemma substring_right (a b : string) :
  substring (String.length a) (String.length b) (a +:+ b) = b.
Proof.
  induction a as [|c a IH]; [apply substring_whole | exact IH].
Qed.

Lemma TrimSuffix_slash (q : string) : strings_TrimSuffix (q +:+ "/") "/" = q.
Proof.
  unfold strings_TrimSuffix, strings_HasSuffix.
  rewrite append_length. cbn [String.length].
  replace (String.length q + 1 - 1)%nat with (String.length q) by lia.
  pose proof (substring_right q "/") as Hr. cbn [String.length] in Hr.
  rewrite Hr, String.eqb_refl.
  replace (1 <=? String.length q + 1)%nat with true
    by (symmetry; apply Nat.leb_le; lia).
  apply substring_left.
Qed.

Lemma newGroup_valid (pprefix p : string) (ms : list Middleware) :
  validPrefix p ->
  Group.newGroup pprefix p ms =
  Returned {| Group.prefix := pprefix +:+ strings_TrimSuffix p "/";
              Group.mdwares := ms |}.
Proof.
  intros [Hne Hfirst]. unfold Group.newGroup. cbv zeta.
  destruct (strings_TrimSuffix p "/") as [|c t] eqn:E; [congruence|].
  cbn [String.length Nat.eqb]. unfold first_byte_is. rewrite Hfirst.
  now rewrite Ascii.eqb_refl.
Qed.

Lemma descend_valid (prefixes : list string) :
  Forall validPrefix prefixes ->
  forall g : Group.t,
    Group.descend g prefixes =
    Returned {| Group.prefix := Group.prefix g +:+ segments prefixes;
                Group.mdwares := Group.mdwares g |}.
Proof.
  induction 1 as [|p prefixes Hp _ IH]; intros g.
  - cbn. rewrite append_empty. now destruct g.
  - cbn [Group.descend]. unfold Group.Group.
    rewrite newGroup_valid by assumption. rewrite IH. cbn.
    now rewrite app_nil_r, append_assoc.
Qed.

(** C6.  With prefixes [newGroup] accepts: the child made by [Group] or
    [GroupNone] has the parent's prefix followed by its own prefix, a
    trailing slash trimmed; [Group] gives it the parent's middlewares
    followed by the new ones, [GroupNone] the new ones only; and through
    any chain of nested groups the prefix is the ancestors' prefixes put
    end to end. *)
Theorem Group_prefix_and_middlewares (g : Group.t) (p : string)
  (ms : list Middleware) (chain : list string) :
  validPrefix p -> Forall validPrefix chain ->
  Group.Group g p ms =
    Returned {| Group.prefix := Group.prefix g +:+ strings_TrimSuffix p "/";
                Group.mdwares := Group.mdwares g ++ ms |}
  /\ Group.GroupNone g p ms =
    Returned {| Group.prefix := Group.prefix g +:+ strings_TrimSuffix p "/";
                Group.mdwares := ms |}
  /\ Group.descend g chain =
    Returned {| Group.prefix := Group.prefix g +:+ segments chain;
                Group.mdwares := Group.mdwares g |}
  /\ (forall q : string, strings_TrimSuffix (q +:+ "/") "/" = q).
Proof.
  intros Hp Hchain. unfold Group.Group, Group.GroupNone.
  rewrite !newGroup_valid by assumption.
  split; [reflexivity|]. split; [reflexivity|].
  split; [now apply descend_valid | apply TrimSuffix_slash].
Qed.


(** ** C5: mutating the builder after a registration *)

(** The mutators other than [HasHeader] leave alone what registered
    handlers read. *)
Lemma mutators_keep_heap (r : Route) (ms : list Middleware) (n h : string) :
  heap_of (Use r ms) = heap_of r
  /\ heap_of (Name r n) = heap_of r
  /\ heap_of (Host r h) = heap_of r
  /\ heap_of (NoMiddlewares r) = heap_of r.
Proof. repeat split. Qed.


End Properties.

(** ** The runner *)

Section RunnerProperties.

Import Runner.

Variable W : Type.

Lemma RegisterOnShutdown_fields (fs : list (W -> W)) :
  forall r : Runner W,
    stopfs (RegisterOnShutdown r fs) = stopfs r ++ map NewOnceRunner fs
    /\ Server (RegisterOnShutdown r fs) = Server r
    /\ stop (RegisterOnShutdown r fs) = stop r
    /\ shut (RegisterOnShutdown r fs) = shut r
    /\ done (RegisterOnShutdown r fs) = done r.
Proof.
  induction fs as [|f fs IH]; intros r.
  - cbn. now rewrite app_nil_r.
  - cbn [RegisterOnShutdown fold_left].
    match goal with
    | |- context [fold_left _ fs ?r0] =>
        change (fold_left _ fs r0) with (RegisterOnShutdown r0 fs);
        destruct (IH r0) as (H1 & H2 & H3 & H4 & H5)
    end.
    rewrite H1, H2, H3, H4, H5. cbn. now rewrite <- app_assoc.
Qed.

(** Registering in several calls is registering the functions of all the
    calls, in order. *)
Lemma RegisterOnShutdown_app (r : Runner W) (fs1 fs2 : list (W -> W)) :
  RegisterOnShutdown (RegisterOnShutdown r fs1) fs2 =
  RegisterOnShutdown r (fs1 ++ fs2).
Proof. unfold RegisterOnShutdown. now rewrite fold_left_app. Qed.

Lemma Run_settles (o : OnceRunner W) (w : W) :
  Run o w = (settle o, runDue o w).
Proof. destruct o as [f [|]]; reflexivity. Qed.

Lemma with_stopfs_same (r : Runner W) : with_stopfs r (stopfs r) = r.
Proof. now destruct r. Qed.

Lemma runHooks_prefix (pre : list (OnceRunner W)) :
  forall (post : list (OnceRunner W)) (r : Runner W) (w : W),
    stopfs r = pre ++ post ->
    runHooks r (length pre) w =
    (with_stopfs r (map settle pre ++ post), fold_right runDue w pre).
Proof.
  induction pre as [|o pre IH] using rev_ind; intros post r w Hr.
  - cbn. cbn in Hr. rewrite <- Hr. now rewrite with_stopfs_same.
  - rewrite length_app, Nat.add_1_r. cbn [runHooks].
    rewrite <- app_assoc in Hr. cbn [app] in Hr.
    rewrite Hr, list_lookup_middle by reflexivity.
    rewrite Run_settles.
    rewrite (IH (settle o :: post)).
    + rewrite map_app, fold_right_app, <- app_assoc. reflexivity.
    + cbn [with_stopfs stopfs].
      replace (length pre) with (length pre + 0)%nat by lia.
      now rewrite insert_app_r.
Qed.

Lemma runHooks_all (r : Runner W) (w : W) :
  runHooks r (length (stopfs r)) w =
  (with_stopfs r (map settle (stopfs r)), fold_right runDue w (stopfs r)).
Proof.
  rewrite (runHooks_prefix (stopfs r) [] r w) by now rewrite app_nil_r.
  now rewrite app_nil_r.
Qed.

Lemma runStopfs_eq (r : Runner W) (w : W) :
  runStopfs r w =
  (close_done (with_stopfs r (map settle (stopfs r))),
   fold_right runDue w (stopfs r)).
Proof.
  unfold runStopfs, runStopfsSteps. rewrite runHooks_all.
  apply List.last_last.
Qed.

Lemma runDue_fresh (fs : list (W -> W)) (w : W) :
  fold_right runDue w (map NewOnceRunner fs) = runInOrder (rev fs) w.
Proof.
  induction fs as [|f fs IH]; [reflexivity|].
  cbn [map fold_right rev]. unfold runInOrder in *.
  rewrite fold_left_app, IH. reflexivity.
Qed.

Lemma fire_settled (t : trigger) (r : Runner W) (w : W) :
  stop r = true ->
  snd (fire t r w) = w
  /\ stop (fst (fire t r w)) = true
  /\ done (fst (fire t r w)) = done r.
Proof.
  intros Hs. destruct t; cbn [fire].
  - unfold Stop. destruct (shut r); [auto|].
    unfold runShutdown, Shutdown. cbn [Server].
    destruct (Server r); [|cbn; auto].
    unfold stop_Run. cbn [stop]. rewrite Hs. cbn. auto.
  - unfold Shutdown. destruct (Server r); [|cbn; auto].
    unfold stop_Run. rewrite Hs. cbn. auto.
Qed.

Lemma fireAll_settled (ts : list trigger) :
  forall (r : Runner W) (w : W),
    stop r = true ->
    snd (fireAll ts r w) = w /\ done (fst (fireAll ts r w)) = done r.
Proof.
  induction ts as [|t ts IH]; intros r w Hs; [now cbn|].
  cbn [fireAll]. destruct (fire_settled t r w Hs) as (Hw & Hs' & Hd).
  destruct (fire t r w) as [r' w']. cbn [fst snd] in *. subst w'.
  destruct (IH r' w Hs') as [H1 H2]. rewrite H1, H2. auto.
Qed.

Lemma fire_first (t : trigger) (r : Runner W) (err : option string) (w : W) :
  Server r = Some err -> stop r = false -> shut r = false ->
  snd (fire t r w) = fold_right runDue w (stopfs r)
  /\ stop (fst (fire t r w)) = true
  /\ done (fst (fire t r w)) = true.
Proof.
  intros Hsrv Hs Hsh. destruct t; cbn [fire].
  - unfold Stop. rewrite Hsh. unfold runShutdown, Shutdown. cbn [Server].
    rewrite Hsrv. unfold stop_Run. cbn [stop]. rewrite Hs.
    rewrite runStopfs_eq. cbn. auto.
  - unfold Shutdown. rewrite Hsrv. unfold stop_Run. rewrite Hs.
    rewrite runStopfs_eq. cbn. auto.
Qed.

Lemma hookSteps_length (n : nat) :
  forall (r : Runner W) (w : W), length (hookSteps r n w) = n.
Proof.
  induction n as [|i IH]; intros r w; [reflexivity|].
  cbn [hookSteps]. destruct (stopfs r !! i) as [f|].
  - rewrite Run_settles. cbn [length]. now rewrite IH.
  - cbn [length]. now rewrite IH.
Qed.

Lemma hookSteps_lookup (pre : list (OnceRunner W)) :
  forall (post : list (OnceRunner W)) (r : Runner W) (w : W) (k : nat),
    stopfs r = pre ++ post -> (k < length pre)%nat ->
    exists rk : Runner W,
      hookSteps r (length pre) w !! k =
      Some (rk, fold_right runDue w (drop (length pre - S k) pre))
      /\ done rk = done r.
Proof.
  induction pre as [|o pre IH] using rev_ind; intros post r w k Hr Hk.
  - cbn in Hk. lia.
  - rewrite length_app, Nat.add_1_r in *. cbn [hookSteps].
    rewrite <- app_assoc in Hr. cbn [app] in Hr.
    rewrite Hr, list_lookup_middle by reflexivity.
    rewrite Run_settles.
    set (r1 := with_stopfs r (<[length pre := settle o]> (pre ++ o :: post))).
    assert (Hr1 : stopfs r1 = pre ++ settle o :: post).
    { unfold r1. cbn [with_stopfs stopfs].
      replace (length pre) with (length pre + 0)%nat at 1 by lia.
      now rewrite insert_app_r. }
    destruct k as [|k].
    + exists r1. split; [|reflexivity]. cbn [lookup list_lookup].
      replace (S (length pre) - 1)%nat with (length pre) by lia.
      rewrite drop_app_length. reflexivity.
    + destruct (IH (settle o :: post) r1 (runDue o w) k Hr1) as (rk & Hk' & Hd);
        [lia|].
      exists rk. split; [|exact Hd].
      change (hookSteps r1 (length pre) (runDue o w) !! k
              = Some (rk, fold_right runDue w
                            (drop (S (length pre) - S (S k)) (pre ++ [o])))).
      rewrite Hk'. f_equal. f_equal.
      replace (S (length pre) - S (S k))%nat with (length pre - S k)%nat
        by lia.
      rewrite drop_app_le by lia. now rewrite fold_right_app.
Qed.

Lemma hookSteps_last (n : nat) :
  forall (r : Runner W) (w : W),
    List.last (hookSteps r n w) (r, w) = runHooks r n w.
Proof.
  assert (Hlast : forall (l : list (Runner W * W)) (x d : Runner W * W),
             List.last (x :: l) d = List.last l x).
  { induction l as [|y l IH]; intros x d; [reflexivity|].
    change (List.last (y :: l) d = List.last (y :: l) x).
    now rewrite !IH. }
  induction n as [|i IH]; intros r w; [reflexivity|].
  cbn [hookSteps runHooks]. destruct (stopfs r !! i) as [f|].
  - destruct (Run f w) as [f' w']. rewrite Hlast. apply IH.
  - rewrite Hlast. apply IH.
Qed.

Lemma runStopfsSteps_fresh (fs : list (W -> W)) (r : Runner W) (w : W) :
  stopfs r = map NewOnceRunner fs -> done r = false ->
  length (runStopfsSteps r w) = S (length fs)
  /\ (forall k : nat,
        (k < length fs)%nat ->
        exists rk : Runner W,
          runStopfsSteps r w !! k =
          Some (rk, runInOrder (rev (drop (length fs - S k) fs)) w)
          /\ Wait rk = None)
  /\ (exists rn : Runner W,
        runStopfsSteps r w !! length fs
        = Some (rn, runInOrder (rev fs) w)
        /\ Wait rn = Some tt
        /\ Forall (fun o => ran o = true) (stopfs rn)).
Proof.
  intros Hr Hd. unfold runStopfsSteps. rewrite runHooks_all.
  assert (Hn : length (stopfs r) = length fs)
    by now rewrite Hr, length_map.
  split; [|split].
  - rewrite length_app, hookSteps_length. cbn [length]. lia.
  - intros k Hk.
    destruct (hookSteps_lookup (stopfs r) [] r w k) as (rk & Hlk & Hdk);
      [now rewrite app_nil_r | lia |].
    exists rk. split.
    + rewrite lookup_app_l by (rewrite hookSteps_length; lia).
      rewrite Hlk. repeat f_equal.
      rewrite Hn, Hr, skipn_map. apply runDue_fresh.
    + unfold Wait. now rewrite Hdk, Hd.
  - exists (close_done (with_stopfs r (map settle (stopfs r)))).
    split; [|split].
    + rewrite lookup_app_r by (rewrite hookSteps_length; lia).
      rewrite hookSteps_length.
      replace (length fs - length (stopfs r))%nat with 0%nat by lia.
      cbn [lookup list_lookup]. f_equal. f_equal.
      rewrite Hr. apply runDue_fresh.
    + reflexivity.
    + cbn [close_done with_stopfs stopfs].
      generalize (stopfs r). intros l.
      induction l as [|o l IH]; cbn [map]; constructor;
        [reflexivity | exact IH].
Qed.

(** C4.  On a runner that has been given a server, with the functions
    [fs] registered in that order: whatever triggers fire, and however
    many, the functions have run once each, the last registered first.
    The first trigger runs [runStopfs], whose steps are, in this order:
    one turn of the loop for each function, the last registered first,
    with [done] still open after every turn, so that [Wait] blocks; then
    the deferred [close], after which every once-runner has run and [Wait]
    returns.  [Wait] blocks before the stop and in the state the loop ends
    in, and returns in the state the triggers leave. *)
Theorem hooks_run_in_reverse_once (fs : list (W -> W)) (err : option string)
  (t : trigger) (ts : list trigger) (w : W) :
  let r := with_Server (RegisterOnShutdown NewRunner fs) err in
  let loop := runHooks r (length (stopfs r)) w in
  snd (fireAll (t :: ts) r w) = runInOrder (rev fs) w
  /\ Wait r = None
  /\ Wait (fst (fireAll (t :: ts) r w)) = Some tt
  /\ snd loop = runInOrder (rev fs) w
  /\ Forall (fun o => ran o = true) (stopfs (fst loop))
  /\ Wait (fst loop) = None
  /\ runStopfs r w = (close_done (fst loop), snd loop)
  /\ (exists r' : Runner W,
        stopfs r' = stopfs r /\ done r' = false /\
        fire t r w = runStopfs r' w)
  /\ (forall r' : Runner W,
        stopfs r' = stopfs r -> done r' = false ->
        runStopfs r' w = List.last (runStopfsSteps r' w) (r', w)
        /\ length (runStopfsSteps r' w) = S (length fs)
        /\ (forall k : nat,
              (k < length fs)%nat ->
              exists rk : Runner W,
                runStopfsSteps r' w !! k =
                Some (rk, runInOrder (rev (drop (length fs - S k) fs)) w)
                /\ Wait rk = None)
        /\ (exists rn : Runner W,
              runStopfsSteps r' w !! length fs
              = Some (rn, runInOrder (rev fs) w)
              /\ Wait rn = Some tt
              /\ Forall (fun o => ran o = true) (stopfs rn))).
Proof.
  intros r loop.
  destruct (RegisterOnShutdown_fields fs NewRunner)
    as (Hfs & Hsrv & Hs & Hsh & Hd).
  cbn in Hfs, Hs, Hsh, Hd.
  assert (Hr : stopfs r = map NewOnceRunner fs) by exact Hfs.
  assert (Hloop : loop = (with_stopfs r (map settle (stopfs r)),
                          fold_right runDue w (stopfs r)))
    by apply runHooks_all.
  assert (Hdone : done r = false) by exact Hd.
  assert (Hstop : stop r = false) by exact Hs.
  assert (Hshut : shut r = false) by exact Hsh.
  assert (Hserver : Server r = Some err) by reflexivity.
  clearbody r.
  assert (Hfire : exists r' : Runner W,
             stopfs r' = stopfs r /\ done r' = false /\
             fire t r w = runStopfs r' w).
  { destruct t; cbn [fire].
    - exists {| Server := Server r; stopfs := stopfs r; stop := true;
                shut := true; done := done r |}.
      split; [reflexivity|]. split; [exact Hdone|].
      unfold Stop. rewrite Hshut. unfold runShutdown, Shutdown.
      cbn [Server]. rewrite Hserver. unfold stop_Run. cbn [stop].
      rewrite Hstop. cbn [Server stopfs shut done].
      rewrite ?Hserver.
      match goal with
      | |- context [runStopfs ?x w] => destruct (runStopfs x w)
      end.
      reflexivity.
    - exists {| Server := Server r; stopfs := stopfs r; stop := true;
                shut := shut r; done := done r |}.
      split; [reflexivity|]. split; [exact Hdone|].
      unfold Shutdown. rewrite Hserver. unfold stop_Run. rewrite Hstop.
      rewrite ?Hserver.
      match goal with
      | |- context [runStopfs ?x w] => destruct (runStopfs x w)
      end.
      reflexivity. }
  destruct (fire_first t r err w) as (Hw1 & Hs1 & Hd1);
    [exact Hserver | exact Hstop | exact Hshut |].
  cbn [fireAll].
  destruct (fire t r w) as [r1 w1] eqn:Ef. cbn [fst snd] in Hw1, Hs1, Hd1.
  destruct (fireAll_settled ts r1 w1 Hs1) as [Hw2 Hd2].
  split; [rewrite Hw2, Hw1, Hr; apply runDue_fresh|].
  split; [unfold Wait; now rewrite Hdone|].
  split; [unfold Wait; now rewrite Hd2, Hd1|].
  split; [rewrite Hloop; cbn [snd]; rewrite Hr; apply runDue_fresh|].
  split.
  { rewrite Hloop. cbn [fst with_stopfs stopfs].
    generalize (stopfs r). intros l.
    induction l as [|o l IH]; cbn [map]; constructor;
      [reflexivity | exact IH]. }
  split.
  { rewrite Hloop. unfold Wait. cbn [fst with_stopfs done].
    now rewrite Hdone. }
  split; [rewrite runStopfs_eq, Hloop; reflexivity|].
  split; [exact Hfire|].
  intros r' Hr' Hd'. split; [reflexivity|].
  apply runStopfsSteps_fresh; [now rewrite Hr', Hr | exact Hd'].
Qed.

(** C9.  While no server has been set, [Shutdown] returns the error that
    the server has not been started and changes nothing, and [Stop] runs
    no shutdown function, leaves the once-runners and the guard of
    [runStopfs] as they were, and does not close [done]. *)
Theorem stop_before_start (r : Runner W) (w : W) :
  Server r = None ->
  Shutdown r w = (r, w, Some "the server has not been started")
  /\ snd (Stop r w) = w
  /\ stopfs (fst (Stop r w)) = stopfs r
  /\ stop (fst (Stop r w)) = stop r
  /\ done (fst (Stop r w)) = done r
  /\ Wait (fst (Stop r w)) = Wait r.
Proof.
  intros Hsrv. unfold Stop, runShutdown, Shutdown, Wait. rewrite Hsrv.
  destruct (shut r); cbn; rewrite ?Hsrv; cbn; auto 10.
Qed.

End RunnerProperties.

(** * Examples *)

Ltac no_occurrence :=
  let i := fresh "i" in
  let Hi := fresh "Hi" in
  intros [i Hi];
  refine (proj1 (strings_Index_none _ _ _) _ i Hi);
  [discriminate | vm_compute; reflexivity].

Ltac not_rejected :=
  unfold rejected, malformed, crowded;
  intros [H|[H|[[H|H]|[H|H]]]];
  [ discriminate H | discriminate H | discriminate H
  | apply H; reflexivity
  | revert H; no_occurrence
  | vm_compute in H; discriminate H ].

Example middlewares_enter_in_order_leave_in_reverse :
  @RespHeader sampleExternals
    (fst (nest (map (@tracing sampleExternals) ["A"; "B"]) markHandler
            (heap_of tracedRoute) emptyContext))
    TraceHeader
  = ["A-enter"; "B-enter"; "H"; "B-exit"; "A-exit"].
Proof. vm_compute. reflexivity. Qed.

Lemma addRoute_registers_nesting_witness :
  ~ panics (snd (@addRoute sampleExternals tracedRoute "" "" "/p"
                   (Some markHandler) [MethodGet; MethodPost] sampleShip))
  /\ routes (fst (@addRoute sampleExternals tracedRoute "" "" "/p"
                    (Some markHandler) [MethodGet; MethodPost] sampleShip))
     = routes sampleShip ++
       registrations "" "" "/p" [MethodGet; MethodPost]
         (nest (@composedMiddlewares sampleExternals tracedRoute) markHandler)
  /\ routes (fst (@POST sampleExternals tracedRoute (Some markHandler)
                    sampleShip))
     = [RouteInfo.mk "" "" "/p" MethodPost
          (nest (@composedMiddlewares sampleExternals tracedRoute)
             markHandler)].
Proof.
  assert (H : ~ panics (snd (@addRoute sampleExternals tracedRoute "" "" "/p"
                               (Some markHandler) [MethodGet; MethodPost]
                               sampleShip))).
  { vm_compute. exact (fun f => f). }
  split; [exact H|].
  destruct (@addRoute_registers_nesting sampleExternals tracedRoute
              "" "" "/p" markHandler [MethodGet; MethodPost] sampleShip H)
    as (Hroutes & _ & _ & _ & _ & Hverbs).
  split; [exact Hroutes|].
  refine (Hverbs (@POST sampleExternals) [MethodPost] _ _).
  - do 9 right. left. reflexivity.
  - vm_compute. exact (fun f => f).
Defined.

Example header_check_examples :
  let m next := @checkHeaders sampleExternals (headers guardedRoute) next
                  (heap_of guardedRoute) in
  snd (m okHandler emptyContext)
    = Some {| Code := 400; Err := "missing the header 'X-Key'" |}
  /\ snd (m okHandler (requestWith "X-Key" "k"))
    = Some {| Code := 400; Err := "invalid header 'X-Mode: '" |}
  /\ snd (m okHandler
            {| reqHeader := {[ "X-Key" := ["k"]; "X-Mode" := ["v2"] ]};
               urlParams := ∅; resHeader := ∅; resStatus := None;
               resBody := [] |})
    = None.
Proof. vm_compute. repeat split. Qed.

Lemma header_check_in_order_witness :
  headers guardedRoute <> []
  /\ exists m : Middleware,
       @buildHeaderMiddleware sampleExternals guardedRoute = Some m
       /\ (exists e : string,
             m okHandler (heap_of guardedRoute) emptyContext
             = (emptyContext, Some {| Code := StatusBadRequest; Err := e |})).
Proof.
  assert (H : headers guardedRoute <> []) by discriminate.
  split; [exact H|].
  destruct (@header_check_in_order sampleExternals guardedRoute okHandler
              (heap_of guardedRoute) emptyContext H) as (m & Hm & _ & Hstep).
  exists m. split; [exact Hm|].
  refine (proj1 (Hstep [] {| Key := "X-Key"; Values := [] |}
                   [{| Key := "X-Mode"; Values := ["v1"; "v2"] |}]
                   eq_refl (List.Forall_nil _)) eq_refl eq_refl).
Defined.

(** C3, as stated, fails on [StaticFile]: the path below starts with a
    slash and has no doubled slash, the handlers and methods are those
    [StaticFile] supplies, no middleware is composed, and the registration
    panics all the same. *)
Lemma StaticFile_parameter_path_counterexample :
  panics (snd (@StaticFile sampleExternals (sampleRoute "/files/:name")
                 "/srv/a.txt" sampleShip))
  /\ forall (h : Handler) (m : string),
       ~ @rejected sampleExternals (sampleRoute "/files/:name")
           "/files/:name" (Some h) [m] sampleShip.
Proof.
  split; [vm_compute; exact I|].
  intros h m. not_rejected.
Qed.

Example Map_keeps_what_it_registered_before_a_panic :
  exists v : string,
    @Map sampleExternals (sampleRoute "/p")
      [(MethodGet, Some okHandler); (MethodPost, None)] sampleShip
    = ({| MiddlewareMaxNum := 128;
          routes := [RouteInfo.mk "" "" "/p" MethodGet okHandler] |},
       Panicked v).
Proof. eexists. reflexivity. Qed.

Lemma static_routes_refuse_parameters_witness :
  (contains (path (sampleRoute "/files/:name")) ":" \/
   contains (path (sampleRoute "/files/:name")) "*")
  /\ (exists v : string,
        @StaticFile sampleExternals (sampleRoute "/files/:name") "/srv/a.txt"
          sampleShip = (sampleShip, Panicked v)).
Proof.
  assert (H : contains (path (sampleRoute "/files/:name")) ":" \/
              contains (path (sampleRoute "/files/:name")) "*").
  { left. exists 7%nat. reflexivity. }
  split; [exact H|].
  exact (proj1 (@static_routes_refuse_parameters sampleExternals
                  (sampleRoute "/files/:name") "/srv/a.txt" sampleFS "/srv"
                  sampleShip H)).
Defined.

(** C5 fails on the code at this input: a route asks for [X-A], registers
    GET, and is then told to ask for [X-B] too.  A request with [X-A]
    alone reaches the handler while the route is as it was registered,
    and is refused by the same registered handler once the route has been
    changed. *)
Lemma HasHeader_after_GET_reaches_registered_handler :
  let r1 := @HasHeader sampleExternals (sampleRoute "/p") "X-A" [] in
  let s1 := fst (@GET sampleExternals r1 (Some okHandler) sampleShip) in
  let r2 := @HasHeader sampleExternals r1 "X-B" [] in
  let ctx := requestWith "X-A" "1" in
  exists ri : RouteInfo.t,
    routes s1 = [ri]
    /\ RouteInfo.Method ri = MethodGet
    /\ RouteInfo.Handler ri (heap_of r1) ctx
       = ({| reqHeader := reqHeader ctx; urlParams := ∅; resHeader := ∅;
             resStatus := Some StatusOK; resBody := [] |}, None)
    /\ RouteInfo.Handler ri (heap_of r2) ctx
       = (ctx, Some {| Code := StatusBadRequest;
                       Err := "missing the header 'X-B'" |}).
Proof.
  eexists. split; [reflexivity|]. split; [reflexivity|].
  split; vm_compute; reflexivity.
Qed.

Lemma StaticFile_head_metadata_witness :
  @CanonicalHeaderKey sampleExternals HeaderEtag
    <> @CanonicalHeaderKey sampleExternals HeaderContentLength
  /\ ~ (contains (path (sampleRoute "/a.txt")) ":" \/
        contains (path (sampleRoute "/a.txt")) "*" \/
        malformed (path (sampleRoute "/a.txt")) \/
        contains (path (sampleRoute "/a.txt")) "//" \/
        @crowded sampleExternals (sampleRoute "/a.txt") sampleShip)
  /\ exists ctx' : Context,
       @serveFileMetadata sampleExternals (sampleRoute "/a.txt") emptyContext
         "/srv/a.txt" = (ctx', None)
       /\ resStatus ctx' = Some 200
       /\ resBody ctx' = []
       /\ @RespHeader sampleExternals ctx' HeaderEtag = ["616263"]
       /\ @RespHeader sampleExternals ctx' HeaderContentLength = ["3"].
Proof.
  assert (H1 : @CanonicalHeaderKey sampleExternals HeaderEtag
               <> @CanonicalHeaderKey sampleExternals HeaderContentLength)
    by discriminate.
  assert (H2 : ~ (contains (path (sampleRoute "/a.txt")) ":" \/
                  contains (path (sampleRoute "/a.txt")) "*" \/
                  malformed (path (sampleRoute "/a.txt")) \/
                  contains (path (sampleRoute "/a.txt")) "//" \/
                  @crowded sampleExternals (sampleRoute "/a.txt") sampleShip)).
  { unfold malformed, crowded.
    intros [H|[H|[[H|H]|[H|H]]]].
    - revert H. no_occurrence.
    - revert H. no_occurrence.
    - discriminate H.
    - apply H. reflexivity.
    - revert H. no_occurrence.
    - vm_compute in H. discriminate H. }
  split; [exact H1|]. split; [exact H2|].
  destruct (@StaticFile_head_metadata sampleExternals (sampleRoute "/a.txt")
              "/srv/a.txt" sampleShip emptyContext H1 H2)
    as (_ & _ & _ & _ & _ & Hhead).
  exact (Hhead sampleFile {| IsDir := false; Size := 3 |}
           [Byte.x61; Byte.x62; Byte.x63] eq_refl eq_refl eq_refl eq_refl).
Defined.

Lemma Static_never_lists_witness :
  @newOnlyFileFS sampleExternals "/srv" "" = Ok (notDirFile sampleDir)
  /\ (forall count : Z,
        Readdir sampleDir count = ([{| IsDir := false; Size := 3 |}], None))
  /\ (forall count : Z, Readdir (notDirFile sampleDir) count = ([], None)).
Proof.
  assert (H : @newOnlyFileFS sampleExternals "/srv" "" =
              Ok (notDirFile sampleDir)) by reflexivity.
  split; [exact H|]. split; [reflexivity|].
  exact (proj1 (@Static_never_lists sampleExternals (sampleRoute "/static")
                  "/srv" "" (notDirFile sampleDir) sampleShip H)).
Defined.

Lemma Group_prefix_and_middlewares_witness :
  validPrefix "/api/"
  /\ Forall validPrefix ["/v1"; "/users/"]
  /\ Group.Group {| Group.prefix := "/root"; Group.mdwares := [] |}
       "/api/" []
     = Returned {| Group.prefix := "/root/api"; Group.mdwares := [] |}
  /\ Group.descend {| Group.prefix := "/root"; Group.mdwares := [] |}
       ["/v1"; "/users/"]
     = Returned {| Group.prefix := "/root/v1/users"; Group.mdwares := [] |}.
Proof.
  assert (H1 : validPrefix "/api/") by (split; [discriminate | reflexivity]).
  assert (H2 : Forall validPrefix ["/v1"; "/users/"]).
  { repeat constructor; discriminate. }
  split; [exact H1|]. split; [exact H2|].
  destruct (Group_prefix_and_middlewares
              {| Group.prefix := "/root"; Group.mdwares := [] |}
              "/api/" [] ["/v1"; "/users/"] H1 H2) as (Hg & _ & Hd & _).
  split; [exact Hg | exact Hd].
Defined.

Example three_hooks_stop_twice :
  let r := Runner.with_Server
             (Runner.RegisterOnShutdown Runner.NewRunner
                [logHook "h1"; logHook "h2"; logHook "h3"]) None in
  snd (Runner.fireAll [Runner.CallStop; Runner.CallShutdown; Runner.CallStop]
         r [])
  = ["h3"; "h2"; "h1"].
Proof. vm_compute. reflexivity. Qed.

(** The steps of [runStopfs] for three functions: what [Wait] finds and
    what has been logged after each of them. *)
Example three_hooks_step_by_step :
  let r := Runner.with_Server
             (Runner.RegisterOnShutdown Runner.NewRunner
                [logHook "h1"; logHook "h2"; logHook "h3"]) None in
  map (fun step => (Runner.Wait (fst step), snd step))
    (Runner.runStopfsSteps r [])
  = [(None, ["h3"]);
     (None, ["h3"; "h2"]);
     (None, ["h3"; "h2"; "h1"]);
     (Some tt, ["h3"; "h2"; "h1"])].
Proof. vm_compute. reflexivity. Qed.

Lemma stop_before_start_witness :
  let r := Runner.RegisterOnShutdown Runner.NewRunner [logHook "h1"] in
  Runner.Server r = None
  /\ Runner.Shutdown r []
     = (r, [], Some "the server has not been started")
  /\ snd (Runner.Stop r []) = [].
Proof.
  intros r.
  assert (H : Runner.Server r = None) by reflexivity.
  split; [exact H|].
  destruct (stop_before_start (list string) r [] H) as (Hs & Hw & _).
  split; [exact Hs | exact Hw].
Defined.

(** * Further properties of the route builder *)

Section RouteProperties.

Context {ext : Externals}.

Lemma TrimSuffix_keeps_first_byte (s : string) :
  first_byte_is s "/" = true ->
  strings_TrimSuffix s "/" = "" \/
  first_byte_is (strings_TrimSuffix s "/") "/" = true.
Proof.
  intros Hs. unfold strings_TrimSuffix.
  destruct (strings_HasSuffix s "/"); [|now right].
  destruct s as [|c s]; [discriminate|].
  cbn [String.length]. 
  destruct (S (String.length s) - 1)%nat as [|n] eqn:E.
  - left. reflexivity.
  - right. cbn [substring]. exact Hs.
Qed.

Lemma first_byte_append (a b : string) (c : ascii) :
  first_byte_is a c = true -> first_byte_is (a +:+ b) c = true.
Proof. destruct a as [|x a]; [discriminate | intros H; exact H]. Qed.

(** [newRoute] panics exactly when the path is empty or does not start
    with a slash.  Otherwise the route has no name and no header
    predicate, keeps the middlewares it is given, and its path is the
    prefix, one trailing slash trimmed, followed by the path; under an
    empty prefix or one that starts with a slash that path starts with a
    slash too, so that [addRoute] does not refuse it as malformed. *)
Theorem newRoute_builds_the_path (a : addr) (prefix host path : string)
  (ms : list Middleware) :
  (panics (newRoute a prefix host path ms) <-> malformed path)
  /\ (~ malformed path ->
      newRoute a prefix host path ms =
      Returned {| self := a; host := host;
                  path := strings_TrimSuffix prefix "/" +:+ path;
                  name := ""; mdwares := ms; headers := [] |})
  /\ (~ malformed path ->
      prefix = "" \/ first_byte_is prefix "/" = true ->
      ~ malformed (strings_TrimSuffix prefix "/" +:+ path)).
Proof.
  unfold newRoute.
  destruct (first_byte_is path "/") eqn:Hf.
  - assert (Hok : ~ malformed path).
    { intros H. apply first_byte_is_false in H. congruence. }
    destruct (String.eqb_spec path "") as [->|Hne]; [discriminate|].
    cbn [negb panics]. split; [tauto|]. split; [reflexivity|].
    intros _ Hp Hbad. apply first_byte_is_false in Hbad.
    destruct Hp as [->|Hp].
    + change (strings_TrimSuffix "" "/" +:+ path) with path in Hbad.
      congruence.
    + destruct (TrimSuffix_keeps_first_byte prefix Hp) as [E|E].
      * rewrite E in Hbad. change ("" +:+ path) with path in Hbad.
        congruence.
      * rewrite (first_byte_append _ path _ E) in Hbad. discriminate.
  - assert (Hbad : malformed path) by now apply first_byte_is_false.
    destruct (String.eqb path ""); cbn [negb panics]; tauto.
Qed.

Lemma composed_length (r : Route) :
  length (composedMiddlewares r) =
  (length (mdwares r) + match headers r with [] => 0 | _ :: _ => 1 end)%nat.
Proof.
  unfold composedMiddlewares, buildHeaderMiddleware.
  destruct (headers r) as [|kv kvs]; cbn [length Nat.eqb app].
  - lia.
  - rewrite length_app. reflexivity.
Qed.

(** The header predicates of a route, however many, take one place among
    the composed middlewares.  So a route with exactly [MiddlewareMaxNum]
    middlewares registers as long as it has no header predicate, and
    panics, registering nothing, as soon as it has one. *)
Theorem header_predicates_take_one_slot (r : Route) (name host path : string)
  (h : Handler) (methods : list string) (s : Ship) :
  Z.of_nat (length (mdwares r)) = MiddlewareMaxNum s ->
  methods <> [] -> ~ malformed path -> ~ contains path "//" ->
  length (composedMiddlewares r) =
    (length (mdwares r) + match headers r with [] => 0 | _ :: _ => 1 end)%nat
  /\ (headers r = [] ->
      snd (addRoute r name host path (Some h) methods s) = Returned tt)
  /\ (forall (headerK : string) (headerV : list string),
        exists v : string,
          addRoute (HasHeader r headerK headerV) name host path (Some h)
            methods s = (s, Panicked v)).
Proof.
  intros Hmax Hm Hp Hd. split; [apply composed_length|]. split.
  - intros Hh. rewrite addRoute_accepts; [reflexivity|].
    unfold rejected, crowded. rewrite composed_length, Hh.
    intros [H|[H|[H|[H|H]]]]; try discriminate; try tauto. lia.
  - intros headerK headerV. apply addRoute_rejects.
    unfold rejected, crowded. do 4 right.
    rewrite composed_length. cbn [HasHeader headers mdwares].
    destruct (headers r); cbn [app]; lia.
Qed.

Lemma checkHeaders_final (next : Handler) (heap : RouteHeap) (ctx : Context)
  (kvs : list kvalues) :
  Exists (fun kv => Values kv <> []) kvs ->
  forall more : list kvalues,
    checkHeaders (kvs ++ more) next heap ctx = checkHeaders kvs next heap ctx.
Proof.
  induction kvs as [|kv kvs IH]; intros Hex more.
  - inversion Hex.
  - cbn [app checkHeaders].
    destruct (Values kv) as [|v vs] eqn:Ev; cbn [length Nat.eqb].
    + destruct (String.eqb (GetHeader ctx (Key kv)) ""); [reflexivity|].
      apply IH. inversion Hex as [? ? H|? ? H]; subst; [congruence | exact H].
    + reflexivity.
Qed.

(** Once a route has a header predicate that lists values, the predicates
    added after it change nothing: on every request the header check does
    with them what it does without them. *)
Theorem predicates_after_values_are_never_checked (r : Route) (kv : kvalues)
  (headerK : string) (headerV : list string) (next : Handler)
  (heap : RouteHeap) (ctx : Context) :
  In kv (headers r) -> Values kv <> [] ->
  checkHeaders (headers (HasHeader r headerK headerV)) next heap ctx =
  checkHeaders (headers r) next heap ctx.
Proof.
  intros Hin Hv. cbn [HasHeader headers]. apply checkHeaders_final.
  apply List.Exists_exists. exists kv. split; assumption.
Qed.

(** The header check takes a header for missing when its first value is
    empty, whether the request lacks the header or carries it with an
    empty value: a predicate without values then refuses the request, and
    a predicate that lists the empty string lets it through to the
    handler at once. *)
Theorem header_presence_is_a_nonempty_value (key : string)
  (rest : list kvalues) (next : Handler) (heap : RouteHeap) (ctx : Context) :
  (reqHeader ctx !! CanonicalHeaderKey key = None \/
   reqHeader ctx !! CanonicalHeaderKey key = Some [] \/
   exists more : list string,
     reqHeader ctx !! CanonicalHeaderKey key = Some ("" :: more)) ->
  checkHeaders ({| Key := key; Values := [] |} :: rest) next heap ctx =
    (ctx, Some {| Code := StatusBadRequest;
                  Err := "missing the header '" +:+ key +:+ "'" |})
  /\ (forall values : list string,
        In "" values ->
        checkHeaders ({| Key := key; Values := values |} :: rest)
          next heap ctx = next heap ctx).
Proof.
  intros Hreq.
  assert (Hget : GetHeader ctx key = "").
  { unfold GetHeader. destruct Hreq as [->|[->|[more ->]]]; reflexivity. }
  split.
  - cbn [checkHeaders Key Values length Nat.eqb]. now rewrite Hget.
  - intros values Hin. cbn [checkHeaders Key Values]. rewrite Hget.
    destruct values as [|v vs]; [destruct Hin|]. cbn [length Nat.eqb].
    apply valueListed_In in Hin. now rewrite Hin.
Qed.

Lemma nest_app (a b : list Middleware) (h : Handler) :
  nest (a ++ b) h = nest a (nest b h).
Proof. unfold nest. apply fold_right_app. Qed.

(** Middlewares added by [Use] go inside the ones the route already has:
    two calls of [Use] are one call with the two lists in order, and on a
    route without header predicate the handler composed after [Use] is the
    old chain around the new middlewares around the handler.
    [NoMiddlewares] drops the middlewares and keeps the header predicates:
    the handler composed after it is the header check around the handler,
    or the handler itself when there is no predicate. *)
Theorem Use_adds_inner_layers (r : Route) (a b : list Middleware)
  (h : Handler) :
  Use (Use r a) b = Use r (a ++ b)
  /\ (headers r = [] ->
      nest (composedMiddlewares (Use r a)) h = nest (mdwares r) (nest a h))
  /\ (headers r = [] -> composedMiddlewares (NoMiddlewares r) = [])
  /\ (headers r <> [] ->
      exists m : Middleware,
        buildHeaderMiddleware r = Some m /\
        composedMiddlewares (NoMiddlewares r) = [m] /\
        nest (composedMiddlewares (Use r a)) h =
        nest (mdwares r) (nest a (m h))).
Proof.
  split; [|split; [|split]].
  - unfold Use. cbn. now rewrite app_assoc.
  - intros Hh. rewrite composed_without_headers by exact Hh.
    cbn [Use mdwares]. apply nest_app.
  - intros Hh. now rewrite composed_without_headers.
  - intros Hh. destruct (composed_with_headers r Hh) as (m & Hm & _).
    exists m. split; [exact Hm|].
    unfold composedMiddlewares, buildHeaderMiddleware in *.
    cbn [NoMiddlewares Use headers mdwares self].
    destruct (length (headers r) =? 0)%nat; [discriminate|].
    injection Hm as <-. split; [reflexivity|].
    cbn [app]. now rewrite !nest_app.
Qed.

(** [Redirect] registers one route, under the first of the methods it is
    given unless that is empty, under GET when it is given none; methods
    after the first are ignored.  The handler is the redirect inside the
    route's middlewares, and the route keeps its name, host and path. *)
Theorem Redirect_registers_one_route (r : Route) (code : Z) (toURL : string)
  (method : list string) (s : Ship) :
  ~ (malformed (path r) \/ contains (path r) "//" \/ crowded r s) ->
  let rmethod :=
    match method with
    | [] => MethodGet
    | m :: _ => if String.eqb m "" then MethodGet else m
    end in
  Redirect r code toURL method s =
  ({| MiddlewareMaxNum := MiddlewareMaxNum s;
      routes :=
        routes s ++
        [RouteInfo.mk (name r) (host r) (path r) rmethod
           (nest (composedMiddlewares r)
              (fun _ ctx => ctx_Redirect code toURL ctx))] |},
   Returned tt).
Proof.
  intros Hok rmethod. unfold Redirect, Method.
  rewrite addRoute_accepts.
  - unfold registrations. cbn [map]. repeat f_equal.
    unfold rmethod. destruct method as [|m ms]; [reflexivity|].
    now destruct (String.eqb m "").
  - unfold rejected. intros [H|[H|H]]; [discriminate | discriminate | tauto].
Qed.

End RouteProperties.

Section MapProperties.

Context {ext : Externals}.

Lemma accepted_decides (r : Route) (s : Ship) (mh : string * option Handler) :
  accepted r s mh \/ ~ accepted r s mh.
Proof.
  unfold accepted.
  destruct (addRoute_decides r (path r) (snd mh) [fst mh] s); tauto.
Qed.

Lemma Map_refuses (r : Route) (s : Ship)
  (before : list (string * option Handler)) (mh : string * option Handler)
  (after : list (string * option Handler)) :
  Forall (accepted r s) before -> ~ accepted r s mh ->
  panics (snd (Map r (before ++ mh :: after) s)).
Proof.
  intros Hall Hbad. rewrite Map_accepted by assumption.
  assert (Hrej : rejected r (path r) (snd mh) [fst mh] s).
  { unfold accepted in Hbad.
    destruct (addRoute_decides r (path r) (snd mh) [fst mh] s);
      [assumption | contradiction]. }
  set (s1 := {| MiddlewareMaxNum := MiddlewareMaxNum s;
                routes := routes s ++ registeredBy r before |}).
  apply (rejected_same_max r (path r) (snd mh) [fst mh] s s1 eq_refl) in Hrej.
  destruct (addRoute_rejects r (name r) (host r) (path r) _ _ _ Hrej)
    as [v Hv].
  unfold Map. cbn [forEach]. unfold bind, Method. now rewrite Hv.
Qed.

Lemma Map_panics_iff (r : Route) (s : Ship)
  (entries : list (string * option Handler)) :
  panics (snd (Map r entries s)) <-> ~ Forall (accepted r s) entries.
Proof.
  split.
  - intros Hp Hall.
    pose proof (Map_accepted r entries [] s Hall) as E.
    rewrite app_nil_r in E. rewrite E in Hp. exact Hp.
  - intros Hnot.
    assert (Hsplit : exists before mh after,
               entries = before ++ mh :: after /\
               Forall (accepted r s) before /\ ~ accepted r s mh).
    { induction entries as [|mh entries IH]; [exfalso; apply Hnot; constructor|].
      destruct (accepted_decides r s mh) as [Hok|Hbad].
      - destruct IH as (before & mh' & after & -> & Hb & Hm).
        + intros Hall. apply Hnot. now constructor.
        + exists (mh :: before), mh', after.
          split; [reflexivity|]. split; [now constructor | exact Hm].
      - exists [], mh, entries. split; [reflexivity|]. split; [constructor|].
        exact Hbad. }
    destruct Hsplit as (before & mh & after & -> & Hb & Hm).
    now apply Map_refuses.
Qed.

(** [Map] visits the entries of a Go map in an order of the runtime's
    choice.  The order does not decide whether it panics (it does exactly
    when [Method] refuses some entry), and when it does not panic the
    routes it has registered are the same ones in every order: one a
    method, with that method's handler inside the route's middlewares. *)
Theorem Map_does_not_depend_on_the_order (r : Route) (s : Ship)
  (entries entries' : list (string * option Handler)) :
  Permutation entries entries' ->
  (panics (snd (Map r entries s)) <-> panics (snd (Map r entries' s)))
  /\ (~ panics (snd (Map r entries s)) ->
      routes (fst (Map r entries s)) = routes s ++ registeredBy r entries
      /\ Permutation (routes (fst (Map r entries s)))
                     (routes (fst (Map r entries' s)))).
Proof.
  intros Hperm. split.
  - rewrite !Map_panics_iff. now rewrite Hperm.
  - intros Hnp.
    assert (Hall : Forall (accepted r s) entries).
    { destruct (Map_panics_iff r s entries) as [_ Hback].
      assert (Hdec : Forall (accepted r s) entries \/
                     ~ Forall (accepted r s) entries).
      { clear. induction entries as [|mh entries IH]; [left; constructor|].
        destruct (accepted_decides r s mh) as [Hok|Hbad].
        - destruct IH as [IH|IH]; [left; now constructor|].
          right. intros H. inversion H; subst. contradiction.
        - right. intros H. inversion H; subst. contradiction. }
      destruct Hdec as [H|H]; [exact H | exfalso; exact (Hnp (Hback H))]. }
    assert (Hall' : Forall (accepted r s) entries') by now rewrite <- Hperm.
    pose proof (Map_accepted r entries [] s Hall) as E.
    pose proof (Map_accepted r entries' [] s Hall') as E'.
    rewrite app_nil_r in E, E'. rewrite E, E'. cbn.
    split; [reflexivity|].
    apply Permutation_app_head. unfold registeredBy.
    now apply Permutation_flat_map.
Qed.

End MapProperties.

(** * Further properties of groups *)

Lemma validPrefix_decides (p : string) :
  (validPrefix p /\
   (String.length (strings_TrimSuffix p "/") =? 0)%nat = false /\
   first_byte_is (strings_TrimSuffix p "/") "/" = true)
  \/ (~ validPrefix p /\
      ((String.length (strings_TrimSuffix p "/") =? 0)%nat = true \/
       first_byte_is (strings_TrimSuffix p "/") "/" = false)).
Proof.
  unfold validPrefix, first_byte_is.
  destruct (strings_TrimSuffix p "/") as [|c t]; cbn.
  - right. split; [intros [H _]; congruence | now left].
  - destruct (Ascii.eqb_spec c "/") as [->|Hne].
    + left. split; [split; [discriminate | reflexivity] | auto].
    + right. split; [intros [_ H]; congruence | now right].
Qed.

(** [newGroup], hence [Group] and [GroupNone], panics exactly on the
    prefixes that, one trailing slash trimmed, are empty or do not start
    with a slash; the prefix made of a single slash is one of them.  When
    the parent's prefix starts with a slash or is empty, so does the
    child's start with a slash: every route group under a root keeps a
    prefix that starts with a slash. *)
Theorem newGroup_accepts_exactly_the_valid_prefixes (pprefix p : string)
  (ms : list Middleware) :
  (panics (Group.newGroup pprefix p ms) <-> ~ validPrefix p)
  /\ ~ validPrefix "/"
  /\ (forall g : Group.t,
        pprefix = "" \/ first_byte_is pprefix "/" = true ->
        Group.newGroup pprefix p ms = Returned g ->
        first_byte_is (Group.prefix g) "/" = true).
Proof.
  split; [|split].
  - unfold Group.newGroup. cbv zeta.
    destruct (validPrefix_decides p) as [(Hv & Hl & Hf)|(Hv & [Hl|Hf])].
    + rewrite Hl, Hf. cbn. tauto.
    + rewrite Hl. cbn. tauto.
    + destruct (String.length (strings_TrimSuffix p "/") =? 0)%nat;
        [cbn; tauto|]. rewrite Hf. cbn. tauto.
  - intros [H _]. apply H. reflexivity.
  - intros g Hpp. unfold Group.newGroup. cbv zeta.
    destruct (validPrefix_decides p) as [(Hv & Hl & Hf)|(Hv & [Hl|Hf])].
    + rewrite Hl, Hf. cbn [negb]. intros [= <-]. cbn [Group.prefix].
      destruct Hpp as [->|Hpp]; [exact Hf|].
      destruct pprefix; [discriminate | exact Hpp].
    + rewrite Hl. discriminate.
    + destruct (String.length (strings_TrimSuffix p "/") =? 0)%nat;
        [discriminate|]. rewrite Hf. discriminate.
Qed.

(** * Further properties of the runner *)

Section RunnerEdges.

Import Runner.

Variable W : Type.

(** Once the shutdown functions have run, functions registered afterwards
    are never run: whatever triggers fire later, they leave the world as
    it is and the channel [done] as it was. *)
Theorem functions_registered_after_the_stop_never_run (r : Runner W)
  (late : list (W -> W)) (ts : list trigger) (w : W) :
  stop r = true ->
  snd (fireAll ts (RegisterOnShutdown r late) w) = w
  /\ done (fst (fireAll ts (RegisterOnShutdown r late) w)) = done r
  /\ stopfs (RegisterOnShutdown r late) = stopfs r ++ map NewOnceRunner late.
Proof.
  intros Hs.
  destruct (RegisterOnShutdown_fields W late r) as (Hfs & _ & Hs' & _ & Hd).
  destruct (fireAll_settled W ts (RegisterOnShutdown r late) w) as [Hw Hd'].
  - now rewrite Hs'.
  - rewrite Hw, Hd', Hd. auto.
Qed.

(** [Shutdown] on a runner with a server returns what the server's
    [Shutdown] returned, error or not.  When the stop sequence has not run
    yet, the shutdown functions that had not run have run and [done] is
    closed, whatever the server returned; when it has run already, the
    runner and the world are left as they are. *)
Theorem Shutdown_passes_the_server_error_on (r : Runner W)
  (err : option string) (w : W) :
  Server r = Some err ->
  snd (Shutdown r w) = err
  /\ (stop r = false ->
      snd (fst (Shutdown r w)) = fold_right runDue w (stopfs r)
      /\ Forall (fun o => ran o = true) (stopfs (fst (fst (Shutdown r w))))
      /\ Wait (fst (fst (Shutdown r w))) = Some tt)
  /\ (stop r = true -> fst (Shutdown r w) = (r, w)).
Proof.
  intros Hsrv. unfold Shutdown. rewrite Hsrv. unfold stop_Run.
  destruct (stop r) eqn:Hs.
  - split; [reflexivity|]. split; [discriminate | reflexivity].
  - rewrite runStopfs_eq. cbn.
    split; [reflexivity|]. split; [|discriminate].
    intros _. repeat split.
    generalize (stopfs r). intros l.
    induction l as [|o l IH]; cbn [map]; constructor;
      [reflexivity | exact IH].
Qed.

(** [Stop] on a runner without server uses up the guard of [Stop]: once a
    server is set, [Stop] (what a signal, the end of serving and the
    server's own shutdown call) does nothing, so [done] stays open and
    [Wait] keeps blocking until [Shutdown] is called, which still runs the
    shutdown functions. *)
Theorem Stop_before_Start_disables_Stop (r : Runner W) (err : option string)
  (w w' : W) :
  Server r = None -> shut r = false -> stop r = false -> done r = false ->
  let started := with_Server (fst (Stop r w)) err in
  Stop started w' = (started, w')
  /\ Wait (fst (Stop started w')) = None
  /\ snd (fst (Shutdown started w')) = fold_right runDue w' (stopfs r)
  /\ Wait (fst (fst (Shutdown started w'))) = Some tt.
Proof.
  intros Hsrv Hsh Hs Hd started.
  assert (Hst : fst (Stop r w) =
                {| Server := None; stopfs := stopfs r; stop := stop r;
                   shut := true; done := done r |}).
  { unfold Stop, runShutdown, Shutdown. rewrite Hsh. cbn [Server].
    now rewrite Hsrv. }
  unfold started. rewrite Hst. cbn [with_Server Server stopfs stop shut done].
  rewrite Hs, Hd. split; [reflexivity|]. split; [reflexivity|].
  unfold Shutdown. cbn [Server]. unfold stop_Run. cbn [stop].
  rewrite runStopfs_eq. cbn. auto.
Qed.

End RunnerEdges.

(** * Properties of [Runner.Start] *)

Section ServingProperties.

Import Serving.

Variable H : Type.

Lemma startServer_cases (server : HTTPServer H) (cert key : string) :
  (Handler server = None /\
   exists v : string, startServer server cert key = Panicked v)
  \/ (Handler server <> None /\
      exists c : serving H,
        startServer server cert key = Returned c /\ served c = server /\
        overTLS c =
        (TLSConfig server
         || negb (String.eqb cert "") && negb (String.eqb key ""))).
Proof.
  unfold startServer. destruct (Handler server) as [h|] eqn:E.
  - right. split; [discriminate|].
    destruct (TLSConfig server
              || negb (String.eqb cert "") && negb (String.eqb key ""));
      eexists; repeat split.
  - left. split; [reflexivity | eexists; reflexivity].
Qed.

(** [Start] panics exactly when the runner's server was given an address
    that is not empty and is not the one passed to [Start], or when
    neither that server nor the runner has a handler.  Otherwise it serves
    on the address passed to [Start], with the server's own handler when
    it has one and the runner's handler if not. *)
Theorem Start_serves_on_the_address_it_is_given (r : Fields H)
  (addr : string) (tlsFiles : list string) :
  let conflict :=
    exists server : HTTPServer H,
      Server r = Some server /\ Addr server <> "" /\ Addr server <> addr in
  let handler :=
    match Server r with
    | Some server =>
        match Handler server with
        | Some h => Some h
        | None => RunnerHandler r
        end
    | None => RunnerHandler r
    end in
  (panics (Start r addr tlsFiles) <-> conflict \/ handler = None)
  /\ (forall c : serving H,
        Start r addr tlsFiles = Returned c ->
        Addr (served c) = addr /\ Handler (served c) = handler /\
        handler <> None).
Proof.
  intros conflict handler. unfold Start.
  destruct (match tlsFiles with
            | [c; k] =>
                if negb (String.eqb c "") && negb (String.eqb k "")
                then (c, k) else ("", "")
            | _ => ("", "")
            end) as [cert key].
  set (s0 := match Server r with
             | Some server => server
             | None => {| Addr := addr; Handler := RunnerHandler r;
                          TLSConfig := false |}
             end).
  set (s1 := match Handler s0 with
             | Some _ => s0
             | None => {| Addr := Addr s0; Handler := RunnerHandler r;
                          TLSConfig := TLSConfig s0 |}
             end).
  assert (Hh : Handler s1 = handler).
  { unfold s1, s0, handler. destruct (Server r) as [server|]; cbn.
    - destruct (Handler server) eqn:E; cbn; [exact E | reflexivity].
    - destruct (RunnerHandler r); reflexivity. }
  assert (Ha : Addr s1 = Addr s0).
  { unfold s1. now destruct (Handler s0). }
  assert (Hc : conflict <-> Addr s0 <> "" /\ Addr s0 <> addr).
  { unfold conflict, s0. destruct (Server r) as [server|]; cbn.
    - split.
      + intros (server' & [= <-] & H1 & H2). auto.
      + intros [H1 H2]. exists server. auto.
    - split.
      + intros (server' & E & _). discriminate.
      + intros [H1 H2]. congruence. }
  destruct (String.eqb_spec (Addr s1) "") as [E0|E0].
  - set (s2 := {| Addr := addr; Handler := Handler s1;
                  TLSConfig := TLSConfig s1 |}).
    destruct (startServer_cases s2 cert key)
      as [(Hn & v & ->)|(Hn & c & -> & Hc1 & _)]; cbn [Handler s2] in Hn.
    + cbn [panics]. split.
      * split; [intros _; right; congruence|auto].
      * discriminate.
    + cbn [panics]. split.
      * split; [tauto|]. intros [Hcf|Hno]; [|congruence].
        apply Hc in Hcf. destruct Hcf as [Hcf _]. congruence.
      * intros c' [= <-]. rewrite Hc1. cbn. rewrite <- Hh. auto.
  - destruct (String.eqb_spec (Addr s1) addr) as [E1|E1]; cbn [negb].
    + destruct (startServer_cases s1 cert key)
        as [(Hn & v & ->)|(Hn & c & -> & Hc1 & _)].
      * cbn [panics]. split.
        -- split; [intros _; right; congruence|auto].
        -- discriminate.
      * cbn [panics]. split.
        -- split; [tauto|]. intros [Hcf|Hno]; [|congruence].
           apply Hc in Hcf. destruct Hcf as [_ Hcf]. congruence.
        -- intros c' [= <-]. rewrite Hc1. rewrite <- Hh. auto.
    + cbn [panics]. split.
      * split; [|auto]. intros _. left. apply Hc. split; congruence.
      * discriminate.
Qed.

(** When [Start] serves, it serves over TLS exactly when the server has a
    TLS configuration or [Start] is given two file names, neither empty.
    Given one file name, three, or an empty one, the names are dropped and
    the choice is left to the server's configuration. *)
Theorem Start_serves_over_TLS_exactly_when (r : Fields H) (addr : string)
  (tlsFiles : list string) (c : serving H) :
  Start r addr tlsFiles = Returned c ->
  let bothFiles :=
    exists cert key : string,
      tlsFiles = [cert; key] /\ cert <> "" /\ key <> "" in
  (overTLS c = true <-> TLSConfig (served c) = true \/ bothFiles)
  /\ (bothFiles ->
      exists cert key : string,
        tlsFiles = [cert; key] /\
        c = ListenAndServeTLS (served c) cert key)
  /\ (~ bothFiles -> TLSConfig (served c) = true ->
      c = ListenAndServeTLS (served c) "" "").
Proof.
  intros Hstart bothFiles.
  assert (Hfiles :
            (bothFiles /\ exists cert key,
                tlsFiles = [cert; key] /\ cert <> "" /\ key <> "" /\
                (match tlsFiles with
                 | [c; k] =>
                     if negb (String.eqb c "") && negb (String.eqb k "")
                     then (c, k) else ("", "")
                 | _ => ("", "")
                 end) = (cert, key))
            \/ (~ bothFiles /\
                (match tlsFiles with
                 | [c; k] =>
                     if negb (String.eqb c "") && negb (String.eqb k "")
                     then (c, k) else ("", "")
                 | _ => ("", "")
                 end) = ("", ""))).
  { unfold bothFiles.
    destruct tlsFiles as [|c1 [|k1 [|x rest]]].
    - right. split; [|reflexivity]. intros (? & ? & E & _). discriminate.
    - right. split; [|reflexivity]. intros (? & ? & E & _). discriminate.
    - destruct (String.eqb_spec c1 "") as [->|Hc1]; cbn [negb andb].
      + right. split; [|reflexivity].
        intros (? & ? & [= <- <-] & Hne & _). congruence.
      + destruct (String.eqb_spec k1 "") as [->|Hk1]; cbn [negb].
        * right. split; [|reflexivity].
          intros (? & ? & [= <- <-] & _ & Hne). congruence.
        * left. split; [exists c1, k1; auto|]. exists c1, k1. auto.
    - right. split; [|reflexivity]. intros (? & ? & E & _). discriminate. }
  unfold Start in Hstart.
  destruct Hfiles as [(Hb & cert & key & Ht & Hc & Hk & Hsel)|(Hnb & Hsel)];
    rewrite Hsel in Hstart.
  - assert (Hpair : negb (String.eqb cert "") && negb (String.eqb key "")
                    = true).
    { destruct (String.eqb_spec cert ""); [contradiction|].
      destruct (String.eqb_spec key ""); [contradiction|]. reflexivity. }
    assert (Hc' : exists server,
               startServer server cert key = Returned c).
    { revert Hstart.
      repeat match goal with
             | |- context [if ?b then _ else _] => destruct b
             end; try discriminate; eauto. }
    destruct Hc' as (server & Hs). unfold startServer in Hs.
    destruct (Handler server); [|discriminate].
    rewrite Hpair, orb_true_r in Hs. injection Hs as <-. cbn.
    split; [tauto|]. split; [|tauto]. intros _. exists cert, key. auto.
  - assert (Hc' : exists server, startServer server "" "" = Returned c).
    { revert Hstart.
      repeat match goal with
             | |- context [if ?b then _ else _] => destruct b
             end; try discriminate; eauto. }
    destruct Hc' as (server & Hs). unfold startServer in Hs.
    destruct (Handler server); [|discriminate].
    cbn [String.eqb negb andb] in Hs. rewrite orb_false_r in Hs.
    destruct (TLSConfig server) eqn:Et; injection Hs as <-; cbn;
      rewrite ?Et.
    + split; [tauto|]. split; [tauto | reflexivity].
    + split; [|split; [tauto | discriminate]].
      split; [discriminate|]. intros [E|E]; [discriminate | contradiction].
Qed.

End ServingProperties.

(** * Properties of the CORS middleware *)

Section CORSProperties.

Import CORS.

Context {ext : Externals}.

Variable matchSubdomain : string -> string -> bool.
Variable ctx_Method : Context -> string.

Lemma pickOrigin_range (credentials : bool) (origin : string)
  (origins : list string) :
  forall allowOrigin : string,
    let picked :=
      pickOrigin matchSubdomain credentials origin origins allowOrigin in
    picked = allowOrigin \/ picked = origin \/
    (credentials = false /\ picked = "*").
Proof.
  induction origins as [|o origins IH]; intros allowOrigin; cbn zeta.
  - left. reflexivity.
  - cbn [pickOrigin].
    destruct (String.eqb_spec o "*") as [->|Hstar].
    + destruct (matchSubdomain origin "*"); [auto|].
      destruct credentials.
      * destruct (IH origin) as [H|[H|[H _]]]; cbn zeta in H; auto.
        discriminate.
      * destruct (IH "*") as [H|[H|[_ H]]]; cbn zeta in H; auto.
    + destruct (String.eqb_spec o origin) as [->|Hne]; [auto|].
      destruct (matchSubdomain origin o); [auto|]. apply IH.
Qed.

Lemma pickOrigin_star (credentials : bool) (origins : list string) :
  pickOrigin matchSubdomain credentials "*" origins "*" = "*".
Proof.
  induction origins as [|o origins IH]; [reflexivity|].
  cbn [pickOrigin].
  destruct (String.eqb_spec o "*") as [->|Hstar].
  - destruct (matchSubdomain "*" "*"); [reflexivity|].
    now destruct credentials.
  - destruct (String.eqb_spec o "*") as [E|_]; [contradiction|].
    now destruct (matchSubdomain "*" o).
Qed.

Lemma pickOrigin_listed (credentials : bool) (origin : string)
  (origins : list string) :
  In origin origins ->
  forall allowOrigin : string,
    pickOrigin matchSubdomain credentials origin origins allowOrigin = origin.
Proof.
  induction origins as [|o origins IH]; intros Hin allowOrigin;
    [destruct Hin|].
  cbn [pickOrigin].
  destruct (String.eqb_spec o "*") as [->|Hstar].
  - destruct (matchSubdomain origin "*"); [reflexivity|].
    destruct Hin as [<-|Hin].
    + destruct credentials; apply pickOrigin_star.
    + now apply IH.
  - destruct (String.eqb_spec o origin) as [->|Hne]; [reflexivity|].
    destruct (matchSubdomain origin o); [reflexivity|].
    destruct Hin as [E|Hin]; [contradiction | now apply IH].
Qed.

Lemma pickOrigin_unlisted (credentials : bool) (origin : string)
  (origins : list string) :
  ~ In "*" origins -> ~ In origin origins ->
  (forall o : string, In o origins -> matchSubdomain origin o = false) ->
  forall allowOrigin : string,
    pickOrigin matchSubdomain credentials origin origins allowOrigin
    = allowOrigin.
Proof.
  induction origins as [|o origins IH]; intros Hstar Hin Hsub allowOrigin;
    [reflexivity|].
  cbn [pickOrigin].
  destruct (String.eqb_spec o "*") as [->|_]; [exfalso; apply Hstar; now left|].
  destruct (String.eqb_spec o origin) as [->|_];
    [exfalso; apply Hin; now left|].
  rewrite (Hsub o) by now left.
  apply IH; [| |intros o' Ho'; apply Hsub; now right];
    intros H; [apply Hstar | apply Hin]; now right.
Qed.

(** An origin that the configuration lists is answered with itself,
    wherever it stands in the list and whatever stands around it; an
    origin that is not listed, when the list has no star and no entry
    that [matchSubdomain] accepts for it, is answered with the empty
    string. *)
Theorem CORS_answers_listed_origins (config : list CORSConfig)
  (origin : string) :
  let conf := defaults config in
  let picked :=
    pickOrigin matchSubdomain (AllowCredentials conf) origin
      (AllowOrigins conf) "" in
  (In origin (AllowOrigins conf) -> picked = origin)
  /\ (~ In "*" (AllowOrigins conf) -> ~ In origin (AllowOrigins conf) ->
      (forall o : string,
         In o (AllowOrigins conf) -> matchSubdomain origin o = false) ->
      picked = "")
  /\ (config = [] -> AllowOrigins conf = ["*"])
  /\ (forall c rest, config = c :: rest -> AllowOrigins c <> [] ->
      AllowOrigins conf = AllowOrigins c).
Proof.
  intros conf picked. split; [|split; [|split]].
  - intros Hin. now apply pickOrigin_listed.
  - intros Hstar Hin Hsub. now apply pickOrigin_unlisted.
  - intros ->. reflexivity.
  - intros c rest -> Hne. unfold conf, defaults.
    destruct (AllowOrigins c) as [|o os] eqn:E; [congruence|].
    cbn [length Nat.eqb]. rewrite E.
    destruct (length (AllowMethods c) =? 0)%nat; cbn; now rewrite ?E.
Qed.

(** The middleware answers a preflight request (method OPTIONS) itself:
    the next handler is not called, the status is 204 and no error is
    returned.  Every other request goes on to the next handler, with the
    request header, the status and the body as they were; what the next
    handler returns is returned. *)
Theorem CORS_answers_preflight_itself (config : list CORSConfig)
  (next : Handler) (heap : RouteHeap) (ctx : Context) :
  (ctx_Method ctx = MethodOptions ->
   (forall next' : Handler,
      CORS matchSubdomain ctx_Method config next' heap ctx =
      CORS matchSubdomain ctx_Method config next heap ctx)
   /\ snd (CORS matchSubdomain ctx_Method config next heap ctx) = None
   /\ resStatus (fst (CORS matchSubdomain ctx_Method config next heap ctx))
      = Some StatusNoContent
   /\ resBody (fst (CORS matchSubdomain ctx_Method config next heap ctx))
      = resBody ctx)
  /\ (ctx_Method ctx <> MethodOptions ->
      exists ctx' : Context,
        CORS matchSubdomain ctx_Method config next heap ctx = next heap ctx'
        /\ reqHeader ctx' = reqHeader ctx
        /\ urlParams ctx' = urlParams ctx
        /\ resStatus ctx' = resStatus ctx
        /\ resBody ctx' = resBody ctx).
Proof.
  split.
  - intros Hm. unfold CORS. cbv zeta. rewrite Hm, String.eqb_refl.
    cbn [negb]. split; [reflexivity|].
    repeat match goal with
           | |- context [if ?b then _ else _] => destruct b
           end; cbn; auto.
  - intros Hm. unfold CORS. cbv zeta.
    destruct (String.eqb_spec (ctx_Method ctx) MethodOptions) as [E|_];
      [contradiction|]. cbn [negb].
    eexists. split; [reflexivity|].
    repeat match goal with
           | |- context [if ?b then _ else _] => destruct b
           end; cbn; auto.
Qed.

Lemma RespHeader_if_SetHeader (b : bool) (ctx : Context)
  (key key' value : string) :
  CanonicalHeaderKey key <> CanonicalHeaderKey key' ->
  RespHeader (if b then SetHeader ctx key value else ctx) key'
  = RespHeader ctx key'.
Proof.
  intros Hne. destruct b; [|reflexivity].
  now apply RespHeader_SetHeader_other.
Qed.

(** The value the middleware gives to Access-Control-Allow-Origin, on a
    preflight answer as on a request it passes on, is the empty string,
    the origin of the request, or the star, and it is never the star when
    the configuration allows credentials (unless the request's origin is
    itself the star).  (The names of the headers the middleware sets are
    taken to be distinct once canonical.) *)
Theorem CORS_allowed_origin_is_the_request_origin_or_star
  (config : list CORSConfig) (next : Handler) (heap : RouteHeap)
  (ctx : Context) :
  (forall key : string,
     In key [HeaderAccessControlAllowMethods;
             HeaderAccessControlAllowCredentials;
             HeaderAccessControlAllowHeaders;
             HeaderAccessControlExposeHeaders;
             HeaderAccessControlMaxAge] ->
     CanonicalHeaderKey key
     <> CanonicalHeaderKey HeaderAccessControlAllowOrigin) ->
  let conf := defaults config in
  let origin := GetHeader ctx HeaderOrigin in
  let picked :=
    pickOrigin matchSubdomain (AllowCredentials conf) origin
      (AllowOrigins conf) "" in
  (picked = "" \/ picked = origin \/
   (AllowCredentials conf = false /\ picked = "*"))
  /\ (ctx_Method ctx = MethodOptions ->
      RespHeader (fst (CORS matchSubdomain ctx_Method config next heap ctx))
        HeaderAccessControlAllowOrigin = [picked])
  /\ (ctx_Method ctx <> MethodOptions ->
      exists ctx' : Context,
        CORS matchSubdomain ctx_Method config next heap ctx = next heap ctx'
        /\ RespHeader ctx' HeaderAccessControlAllowOrigin = [picked]).
Proof.
  intros Hkeys conf origin picked.
  assert (Hm : CanonicalHeaderKey HeaderAccessControlAllowMethods
               <> CanonicalHeaderKey HeaderAccessControlAllowOrigin)
    by (apply Hkeys; cbn; auto).
  assert (Hc : CanonicalHeaderKey HeaderAccessControlAllowCredentials
               <> CanonicalHeaderKey HeaderAccessControlAllowOrigin)
    by (apply Hkeys; cbn; auto).
  assert (Hh : CanonicalHeaderKey HeaderAccessControlAllowHeaders
               <> CanonicalHeaderKey HeaderAccessControlAllowOrigin)
    by (apply Hkeys; cbn; auto).
  assert (He : CanonicalHeaderKey HeaderAccessControlExposeHeaders
               <> CanonicalHeaderKey HeaderAccessControlAllowOrigin)
    by (apply Hkeys; cbn; auto 10).
  assert (Ha : CanonicalHeaderKey HeaderAccessControlMaxAge
               <> CanonicalHeaderKey HeaderAccessControlAllowOrigin)
    by (apply Hkeys; cbn; auto 10).
  split; [apply pickOrigin_range|]. split.
  - intros Hopt. unfold CORS. cbv zeta. rewrite Hopt, String.eqb_refl.
    cbn [negb]. fold conf. fold origin. fold picked.
    unfold NoContent, RespHeader at 1. cbn [fst resHeader].
    match goal with
    | |- default [] (resHeader ?c !! _) = _ =>
        change (RespHeader c HeaderAccessControlAllowOrigin = [picked])
    end.
    rewrite RespHeader_if_SetHeader by exact Ha.
    match goal with
    | |- RespHeader (if ?b then _ else if ?b' then _ else _) _ = _ =>
        destruct b; [|destruct b']
    end;
      rewrite ?RespHeader_SetHeader_other by assumption;
      rewrite RespHeader_if_SetHeader by exact Hc;
      rewrite RespHeader_SetHeader_other by exact Hm;
      apply RespHeader_SetHeader.
  - intros Hopt. unfold CORS. cbv zeta.
    destruct (String.eqb_spec (ctx_Method ctx) MethodOptions) as [E|_];
      [contradiction|]. cbn [negb]. fold conf. fold origin. fold picked.
    eexists. split; [reflexivity|].
    rewrite RespHeader_if_SetHeader by exact He.
    rewrite RespHeader_if_SetHeader by exact Hc.
    apply RespHeader_SetHeader.
Qed.

(** On a preflight request the middleware answers
    Access-Control-Allow-Headers with the configured headers joined by
    commas and, when none is configured (or they join to the empty
    string), with the Access-Control-Request-Headers of the request, when
    the request has one; and when the configured maximum age is positive
    it sets Access-Control-Max-Age to that number of seconds.  (The two
    header names are taken to be distinct once canonical.) *)
Theorem CORS_preflight_echoes_the_requested_headers
  (config : list CORSConfig) (next : Handler) (heap : RouteHeap)
  (ctx : Context) :
  CanonicalHeaderKey HeaderAccessControlMaxAge
  <> CanonicalHeaderKey HeaderAccessControlAllowHeaders ->
  ctx_Method ctx = MethodOptions ->
  let conf := defaults config in
  let configured := strings_Join (AllowHeaders conf) "," in
  let requested := GetHeader ctx HeaderAccessControlRequestHeaders in
  let answer := fst (CORS matchSubdomain ctx_Method config next heap ctx) in
  (configured <> "" ->
   RespHeader answer HeaderAccessControlAllowHeaders = [configured])
  /\ (configured = "" -> requested <> "" ->
      RespHeader answer HeaderAccessControlAllowHeaders = [requested])
  /\ (MaxAge conf > 0 ->
      RespHeader answer HeaderAccessControlMaxAge = [fmt_d (MaxAge conf)]).
Proof.
  intros Hkeys Hopt conf configured requested answer.
  unfold answer, CORS. cbv zeta. rewrite Hopt, String.eqb_refl.
  cbn [negb]. fold conf. fold configured.
  unfold NoContent. cbn [fst].
  split; [|split].
  - intros Hc. unfold RespHeader at 1. cbn [resHeader].
    match goal with
    | |- default [] (resHeader ?c !! _) = _ =>
        change (RespHeader c HeaderAccessControlAllowHeaders = [configured])
    end.
    rewrite RespHeader_if_SetHeader by exact Hkeys.
    destruct (String.eqb_spec configured "") as [E|_]; [contradiction|].
    cbn [negb]. apply RespHeader_SetHeader.
  - intros Hc Hr. unfold RespHeader at 1. cbn [resHeader].
    match goal with
    | |- default [] (resHeader ?c !! _) = _ =>
        change (RespHeader c HeaderAccessControlAllowHeaders = [requested])
    end.
    rewrite RespHeader_if_SetHeader by exact Hkeys.
    rewrite Hc. cbn [String.eqb negb].
    destruct (AllowCredentials conf);
      match goal with
      | |- context [GetHeader ?c HeaderAccessControlRequestHeaders] =>
          change (GetHeader c HeaderAccessControlRequestHeaders)
            with requested
      end;
      (destruct (String.eqb_spec requested "") as [E|_]; [contradiction|]);
      cbn [negb]; apply RespHeader_SetHeader.
  - intros Hage. unfold RespHeader at 1. cbn [resHeader].
    match goal with
    | |- default [] (resHeader ?c !! _) = _ =>
        change (RespHeader c HeaderAccessControlMaxAge
                = [fmt_d (MaxAge conf)])
    end.
    destruct (Z.gtb_spec (MaxAge conf) 0) as [_|Hle]; [|lia].
    apply RespHeader_SetHeader.
Qed.

End CORSProperties.

(** * The index of the profiling routes *)

Lemma substring_middle (a b c : string) :
  substring (String.length a) (String.length b) (a +:+ b +:+ c) = b.
Proof.
  induction a as [|x a IH]; [|exact IH].
  change (substring 0 (String.length b) (b +:+ c) = b).
  apply substring_left.
Qed.

Lemma strings_Index_first (s substr : string) (n : nat) :
  substr <> "" ->
  substring n (String.length substr) s = substr ->
  (forall p : nat, (p < n)%nat ->
                   substring p (String.length substr) s <> substr) ->
  strings_Index s substr = Z.of_nat n.
Proof.
  intros Hne Hat Hbefore. unfold strings_Index.
  destruct (String.index 0 substr s) as [m|] eqn:E.
  - f_equal. destruct (Nat.lt_trichotomy m n) as [Hlt|[->|Hgt]];
      [|reflexivity|].
    + exfalso. apply (Hbefore m Hlt). apply (index_correct1 _ _ _ _ E).
    + exfalso. apply (index_correct2 _ _ _ _ E n); [lia | exact Hgt | exact Hat].
  - exfalso. apply (index_correct3 _ n _ _ E Hne); [lia | exact Hat].
Qed.

(** The index handler of the profiling routes serves the profile named by
    what follows the first [/debug/pprof/] of the request path, and the
    index page when nothing follows it. *)
Theorem pprof_index_serves_the_named_profile (before name : string) :
  (forall p : nat,
     (p < String.length before)%nat ->
     substring p 13 (before +:+ "/debug/pprof/" +:+ name)
     <> "/debug/pprof/") ->
  pprofIndexTarget (before +:+ "/debug/pprof/" +:+ name) =
  match name with
  | "" => None
  | _ => Some name
  end.
Proof.
  intros Hfirst. unfold pprofIndexTarget.
  rewrite (strings_Index_first _ "/debug/pprof/" (String.length before));
    [|discriminate | apply (substring_middle before "/debug/pprof/" name)
     | exact Hfirst].
  cbv zeta. rewrite !append_length. cbn [String.length].
  destruct name as [|c name].
  - cbn [String.length].
    destruct (Z.gtb_spec (Z.of_nat (String.length before + (13 + 0)))
                (Z.of_nat (String.length before) + 13)); [lia | reflexivity].
  - destruct (Z.gtb_spec
                (Z.of_nat (String.length before
                           + (13 + String.length (String c name))))
                (Z.of_nat (String.length before) + 13)) as [_|Hle];
      [|cbn [String.length] in Hle; lia].
    f_equal.
    replace (Z.to_nat (Z.of_nat (String.length before) + 13))
      with (String.length (before +:+ "/debug/pprof/"))
      by (rewrite append_length; cbn [String.length]; lia).
    replace (String.length before + (13 + String.length (String c name))
             - String.length (before +:+ "/debug/pprof/"))%nat
      with (String.length (String c name))
      by (rewrite append_length; cbn [String.length]; lia).
    rewrite <- append_assoc. apply substring_right.
Qed.

(** * Examples for the further properties *)

Ltac well_formed :=
  unfold malformed;
  let H := fresh "H" in
  intros [H|H]; [discriminate H | apply H; reflexivity].

Lemma header_predicates_take_one_slot_witness :
  Z.of_nat (length (mdwares tracedRoute)) = MiddlewareMaxNum tightShip
  /\ [MethodGet] <> []
  /\ ~ malformed "/p"
  /\ ~ contains "/p" "//"
  /\ snd (@addRoute sampleExternals tracedRoute "" "" "/p" (Some markHandler)
            [MethodGet] tightShip) = Returned tt
  /\ (exists v : string,
        @addRoute sampleExternals
          (@HasHeader sampleExternals tracedRoute "X-Key" [])
          "" "" "/p" (Some markHandler) [MethodGet] tightShip
        = (tightShip, Panicked v)).
Proof.
  assert (H1 : Z.of_nat (length (mdwares tracedRoute))
               = MiddlewareMaxNum tightShip) by reflexivity.
  assert (H2 : [MethodGet] <> []) by discriminate.
  assert (H3 : ~ malformed "/p") by well_formed.
  assert (H4 : ~ contains "/p" "//") by no_occurrence.
  split; [exact H1|]. split; [exact H2|]. split; [exact H3|].
  split; [exact H4|].
  destruct (@header_predicates_take_one_slot sampleExternals tracedRoute
              "" "" "/p" markHandler [MethodGet] tightShip H1 H2 H3 H4)
    as (_ & Hplain & Hguarded).
  split; [exact (Hplain eq_refl) | exact (Hguarded "X-Key" [])].
Defined.

Lemma predicates_after_values_are_never_checked_witness :
  In {| Key := "X-Mode"; Values := ["v1"; "v2"] |} (headers guardedRoute)
  /\ Values {| Key := "X-Mode"; Values := ["v1"; "v2"] |} <> []
  /\ @checkHeaders sampleExternals
       (headers (@HasHeader sampleExternals guardedRoute "X-Token" []))
       okHandler (heap_of guardedRoute)
       {| reqHeader := {[ "X-Key" := ["k"]; "X-Mode" := ["v1"] ]};
          urlParams := ∅; resHeader := ∅; resStatus := None; resBody := [] |}
     = @checkHeaders sampleExternals (headers guardedRoute)
         okHandler (heap_of guardedRoute)
         {| reqHeader := {[ "X-Key" := ["k"]; "X-Mode" := ["v1"] ]};
            urlParams := ∅; resHeader := ∅; resStatus := None;
            resBody := [] |}.
Proof.
  assert (H1 : In {| Key := "X-Mode"; Values := ["v1"; "v2"] |}
                 (headers guardedRoute)) by (right; left; reflexivity).
  assert (H2 : Values {| Key := "X-Mode"; Values := ["v1"; "v2"] |} <> [])
    by discriminate.
  split; [exact H1|]. split; [exact H2|].
  exact (@predicates_after_values_are_never_checked sampleExternals
           guardedRoute _ "X-Token" [] okHandler (heap_of guardedRoute) _
           H1 H2).
Defined.

Lemma header_presence_is_a_nonempty_value_witness :
  (reqHeader (requestWith "X-Key" "")
     !! @CanonicalHeaderKey sampleExternals "X-Key" = None \/
   reqHeader (requestWith "X-Key" "")
     !! @CanonicalHeaderKey sampleExternals "X-Key" = Some [] \/
   exists more : list string,
     reqHeader (requestWith "X-Key" "")
       !! @CanonicalHeaderKey sampleExternals "X-Key" = Some ("" :: more))
  /\ @checkHeaders sampleExternals [{| Key := "X-Key"; Values := [] |}]
       okHandler (heap_of guardedRoute) (requestWith "X-Key" "")
     = (requestWith "X-Key" "",
        Some {| Code := StatusBadRequest;
                Err := "missing the header 'X-Key'" |}).
Proof.
  assert (H : reqHeader (requestWith "X-Key" "")
                !! @CanonicalHeaderKey sampleExternals "X-Key" = None \/
              reqHeader (requestWith "X-Key" "")
                !! @CanonicalHeaderKey sampleExternals "X-Key" = Some [] \/
              exists more : list string,
                reqHeader (requestWith "X-Key" "")
                  !! @CanonicalHeaderKey sampleExternals "X-Key"
                = Some ("" :: more)).
  { right. right. exists []. vm_compute. reflexivity. }
  split; [exact H|].
  exact (proj1 (@header_presence_is_a_nonempty_value sampleExternals "X-Key"
                  [] okHandler (heap_of guardedRoute)
                  (requestWith "X-Key" "") H)).
Defined.

Lemma Redirect_registers_one_route_witness :
  ~ (malformed (path (sampleRoute "/old")) \/
     contains (path (sampleRoute "/old")) "//" \/
     @crowded sampleExternals (sampleRoute "/old") sampleShip)
  /\ routes (fst (@Redirect sampleExternals (sampleRoute "/old") 301 "/new"
                    [""; MethodPost] sampleShip))
     = [RouteInfo.mk "" "" "/old" MethodGet
          (fun _ ctx => @ctx_Redirect sampleExternals 301 "/new" ctx)].
Proof.
  assert (H : ~ (malformed (path (sampleRoute "/old")) \/
                 contains (path (sampleRoute "/old")) "//" \/
                 @crowded sampleExternals (sampleRoute "/old") sampleShip)).
  { intros [H|[H|H]].
    - revert H. well_formed.
    - revert H. no_occurrence.
    - vm_compute in H. discriminate H. }
  split; [exact H|].
  rewrite (@Redirect_registers_one_route sampleExternals (sampleRoute "/old")
             301 "/new" [""; MethodPost] sampleShip H).
  reflexivity.
Defined.

Lemma Map_does_not_depend_on_the_order_witness :
  Permutation [(MethodGet, Some okHandler); (MethodPost, Some markHandler)]
              [(MethodPost, Some markHandler); (MethodGet, Some okHandler)]
  /\ (panics (snd (@Map sampleExternals (sampleRoute "/p")
                     [(MethodGet, Some okHandler);
                      (MethodPost, Some markHandler)] sampleShip))
      <-> panics (snd (@Map sampleExternals (sampleRoute "/p")
                         [(MethodPost, Some markHandler);
                          (MethodGet, Some okHandler)] sampleShip))).
Proof.
  assert (H : Permutation
                [(MethodGet, Some okHandler); (MethodPost, Some markHandler)]
                [(MethodPost, Some markHandler); (MethodGet, Some okHandler)])
    by apply perm_swap.
  split; [exact H|].
  exact (proj1 (@Map_does_not_depend_on_the_order sampleExternals
                  (sampleRoute "/p") sampleShip _ _ H)).
Defined.

Example group_of_a_single_slash_panics :
  Group.newGroup "" "/" [] = Panicked "the prefix must not be empty"
  /\ Group.newGroup "" "api" []
     = Panicked "prefix 'api' must start with '/'".
Proof. split; reflexivity. Qed.

Lemma functions_registered_after_the_stop_never_run_witness :
  let stopped :=
    fst (Runner.Stop (Runner.with_Server idleRunner None) []) in
  Runner.stop stopped = true
  /\ snd (Runner.fireAll [Runner.CallStop; Runner.CallShutdown]
            (Runner.RegisterOnShutdown stopped [logHook "late"]) ["h1"])
     = ["h1"].
Proof.
  intros stopped.
  assert (H : Runner.stop stopped = true) by reflexivity.
  split; [exact H|].
  exact (proj1 (functions_registered_after_the_stop_never_run (list string)
                  stopped [logHook "late"]
                  [Runner.CallStop; Runner.CallShutdown] ["h1"] H)).
Defined.

Lemma Shutdown_passes_the_server_error_on_witness :
  let r := Runner.with_Server idleRunner (Some "context deadline exceeded") in
  Runner.Server r = Some (Some "context deadline exceeded")
  /\ snd (Runner.Shutdown r []) = Some "context deadline exceeded"
  /\ snd (fst (Runner.Shutdown r [])) = ["h1"].
Proof.
  intros r.
  assert (H1 : Runner.Server r = Some (Some "context deadline exceeded"))
    by reflexivity.
  split; [exact H1|].
  destruct (Shutdown_passes_the_server_error_on (list string) r _ [] H1)
    as (He & Hfresh & _).
  split; [exact He | exact (proj1 (Hfresh eq_refl))].
Defined.

Lemma Stop_before_Start_disables_Stop_witness :
  Runner.Server idleRunner = None
  /\ Runner.shut idleRunner = false
  /\ Runner.stop idleRunner = false
  /\ Runner.done idleRunner = false
  /\ Runner.Stop
       (Runner.with_Server (fst (Runner.Stop idleRunner [])) None) []
     = (Runner.with_Server (fst (Runner.Stop idleRunner [])) None, []).
Proof.
  assert (H1 : Runner.Server idleRunner = None) by reflexivity.
  assert (H2 : Runner.shut idleRunner = false) by reflexivity.
  assert (H3 : Runner.stop idleRunner = false) by reflexivity.
  assert (H4 : Runner.done idleRunner = false) by reflexivity.
  split; [exact H1|]. split; [exact H2|]. split; [exact H3|].
  split; [exact H4|].
  exact (proj1 (Stop_before_Start_disables_Stop (list string) idleRunner
                  None [] [] H1 H2 H3 H4)).
Defined.

Example Start_examples :
  Serving.Start {| Serving.Server := None; Serving.RunnerHandler := Some tt |}
    ":8080" ["cert.pem"]
  = Returned (Serving.ListenAndServe
                {| Serving.Addr := ":8080"; Serving.Handler := Some tt;
                   Serving.TLSConfig := false |})
  /\ Serving.Start
       {| Serving.Server :=
            Some {| Serving.Addr := ":80"; Serving.Handler := Some tt;
                    Serving.TLSConfig := false |};
          Serving.RunnerHandler := None |}
       ":8080" []
     = Panicked "Runner.Server.Addr is not set to ':8080'"
  /\ Serving.Start
       {| Serving.Server := None; Serving.RunnerHandler := @None unit |}
       ":8080" []
     = Panicked "Runner: Server.Handler is nil".
Proof. repeat split. Qed.

Lemma Start_serves_over_TLS_exactly_when_witness :
  let server :=
    {| Serving.Addr := ":8443"; Serving.Handler := Some tt;
       Serving.TLSConfig := false |} in
  Serving.Start
    {| Serving.Server := None; Serving.RunnerHandler := Some tt |}
    ":8443" ["cert.pem"; "key.pem"]
  = Returned (Serving.ListenAndServeTLS server "cert.pem" "key.pem")
  /\ (Serving.overTLS
        (Serving.ListenAndServeTLS server "cert.pem" "key.pem") = true
      <-> Serving.TLSConfig server = true \/
          exists cert key : string,
            ["cert.pem"; "key.pem"] = [cert; key] /\ cert <> "" /\ key <> "").
Proof.
  intros server.
  assert (H : Serving.Start
                {| Serving.Server := None;
                   Serving.RunnerHandler := Some tt |}
                ":8443" ["cert.pem"; "key.pem"]
              = Returned (Serving.ListenAndServeTLS server
                            "cert.pem" "key.pem")) by reflexivity.
  split; [exact H|].
  exact (proj1 (Start_serves_over_TLS_exactly_when unit _ _ _ _ H)).
Defined.

Example CORS_examples :
  CORS.pickOrigin noSubdomain true "https://b.example"
    (CORS.AllowOrigins (CORS.defaults [sampleCORS])) "" = "https://b.example"
  /\ CORS.pickOrigin noSubdomain true "https://evil.example"
       (CORS.AllowOrigins (CORS.defaults [sampleCORS])) "" = ""
  /\ CORS.pickOrigin noSubdomain false "https://any.example"
       (CORS.AllowOrigins (CORS.defaults [])) "" = "*"
  /\ strings_Join (CORS.AllowMethods (CORS.defaults [])) ","
     = "HEAD,GET,POST,PUT,PATCH,DELETE".
Proof. repeat split. Qed.

Lemma CORS_allowed_origin_is_the_request_origin_or_star_witness :
  (forall key : string,
     In key [CORS.HeaderAccessControlAllowMethods;
             CORS.HeaderAccessControlAllowCredentials;
             CORS.HeaderAccessControlAllowHeaders;
             CORS.HeaderAccessControlExposeHeaders;
             CORS.HeaderAccessControlMaxAge] ->
     @CanonicalHeaderKey sampleExternals key
     <> @CanonicalHeaderKey sampleExternals
          CORS.HeaderAccessControlAllowOrigin)
  /\ @RespHeader sampleExternals
       (fst (@CORS.CORS sampleExternals noSubdomain alwaysOptions
               [sampleCORS] okHandler (heap_of guardedRoute)
               (requestWith "Origin" "https://a.example")))
       CORS.HeaderAccessControlAllowOrigin
     = ["https://a.example"].
Proof.
  assert (H : forall key : string,
             In key [CORS.HeaderAccessControlAllowMethods;
                     CORS.HeaderAccessControlAllowCredentials;
                     CORS.HeaderAccessControlAllowHeaders;
                     CORS.HeaderAccessControlExposeHeaders;
                     CORS.HeaderAccessControlMaxAge] ->
             @CanonicalHeaderKey sampleExternals key
             <> @CanonicalHeaderKey sampleExternals
                  CORS.HeaderAccessControlAllowOrigin).
  { intros key [<-|[<-|[<-|[<-|[<-|[]]]]]]; discriminate. }
  split; [exact H|].
  destruct (@CORS_allowed_origin_is_the_request_origin_or_star sampleExternals
              noSubdomain alwaysOptions [sampleCORS] okHandler
              (heap_of guardedRoute)
              (requestWith "Origin" "https://a.example") H)
    as (_ & Hpre & _).
  rewrite (Hpre eq_refl). vm_compute. reflexivity.
Defined.

Lemma CORS_preflight_echoes_the_requested_headers_witness :
  @CanonicalHeaderKey sampleExternals CORS.HeaderAccessControlMaxAge
  <> @CanonicalHeaderKey sampleExternals CORS.HeaderAccessControlAllowHeaders
  /\ alwaysOptions (requestWith "Access-Control-Request-Headers" "X-Token")
     = MethodOptions
  /\ @RespHeader sampleExternals
       (fst (@CORS.CORS sampleExternals noSubdomain alwaysOptions
               [sampleCORS] okHandler (heap_of guardedRoute)
               (requestWith "Access-Control-Request-Headers" "X-Token")))
       CORS.HeaderAccessControlAllowHeaders
     = ["X-Token"]
  /\ @RespHeader sampleExternals
       (fst (@CORS.CORS sampleExternals noSubdomain alwaysOptions
               [sampleCORS] okHandler (heap_of guardedRoute)
               (requestWith "Access-Control-Request-Headers" "X-Token")))
       CORS.HeaderAccessControlMaxAge
     = ["600"].
Proof.
  assert (H1 : @CanonicalHeaderKey sampleExternals
                 CORS.HeaderAccessControlMaxAge
               <> @CanonicalHeaderKey sampleExternals
                    CORS.HeaderAccessControlAllowHeaders) by discriminate.
  assert (H2 : alwaysOptions
                 (requestWith "Access-Control-Request-Headers" "X-Token")
               = MethodOptions) by reflexivity.
  split; [exact H1|]. split; [exact H2|].
  destruct (@CORS_preflight_echoes_the_requested_headers sampleExternals
              noSubdomain alwaysOptions [sampleCORS] okHandler
              (heap_of guardedRoute)
              (requestWith "Access-Control-Request-Headers" "X-Token")
              H1 H2) as (_ & Hecho & Hage).
  split.
  - rewrite Hecho; [vm_compute; reflexivity | reflexivity | ].
    vm_compute. discriminate.
  - rewrite Hage; [reflexivity | reflexivity].
Defined.

Lemma pprof_index_serves_the_named_profile_witness :
  (forall p : nat,
     (p < String.length "/admin")%nat ->
     substring p 13 ("/admin" +:+ "/debug/pprof/" +:+ "heap")
     <> "/debug/pprof/")
  /\ pprofIndexTarget "/admin/debug/pprof/heap" = Some "heap"
  /\ pprofIndexTarget "/admin/debug/pprof/" = None.
Proof.
  assert (H : forall name : string, forall p : nat,
             (p < String.length "/admin")%nat ->
             substring p 13 ("/admin" +:+ "/debug/pprof/" +:+ name)
             <> "/debug/pprof/").
  { intros name p Hp.
    do 6 (destruct p as [|p]; [discriminate|]).
    exfalso. cbn [String.length] in Hp. lia. }
  split; [exact (H "heap")|]. split.
  - exact (pprof_index_serves_the_named_profile "/admin" "heap" (H "heap")).
  - exact (pprof_index_serves_the_named_profile "/admin" "" (H "")).
Defined.

(** * C3: when registration fails *)

Section RegisteringProperties.

Import Registering.

Context {ext : Externals}.

Lemma nil_decides (ms : list (option Middleware)) :
  In None ms \/ ~ In None ms.
Proof.
  induction ms as [|m ms IH]; [right; intros []|].
  destruct m as [f|]; [|left; now left].
  destruct IH as [IH|IH]; [left; now right|].
  right. intros [H|H]; [discriminate | contradiction].
Qed.

Lemma wrapFrom_without_nil (ms1 : list (option Middleware)) :
  ~ In None ms1 ->
  forall (ms2 : list (option Middleware)) (h : Handler),
    wrapFrom (ms1 ++ ms2) (length ms1) h = Returned (nest (nonNil ms1) h).
Proof.
  induction ms1 as [|m ms1 IH] using rev_ind; intros Hnil ms2 h;
    [reflexivity|].
  rewrite length_app, Nat.add_1_r. cbn [wrapFrom].
  rewrite <- app_assoc. cbn [app].
  rewrite list_lookup_middle by reflexivity.
  destruct m as [f|]; [|exfalso; apply Hnil; apply in_or_app; right; now left].
  rewrite IH by (intros H; apply Hnil; apply in_or_app; now left).
  unfold nonNil, nest. rewrite omap_app, fold_right_app. reflexivity.
Qed.

Lemma wrapFrom_with_nil (ms1 : list (option Middleware)) :
  In None ms1 ->
  forall (ms2 : list (option Middleware)) (h : Handler),
    wrapFrom (ms1 ++ ms2) (length ms1) h =
    Panicked "invalid memory address or nil pointer dereference".
Proof.
  induction ms1 as [|m ms1 IH] using rev_ind; intros Hnil ms2 h;
    [destruct Hnil|].
  rewrite length_app, Nat.add_1_r. cbn [wrapFrom].
  rewrite <- app_assoc. cbn [app].
  rewrite list_lookup_middle by reflexivity.
  destruct m as [f|]; [|reflexivity].
  apply IH. apply in_app_or in Hnil.
  destruct Hnil as [H|[H|[]]]; [exact H | discriminate].
Qed.

Lemma composed_nil (r : t) :
  In None (composedMiddlewares r) <-> In None (mdwares r).
Proof.
  unfold composedMiddlewares. destruct (buildHeaderMiddleware r); [|tauto].
  cbn [app]. split.
  - intros H. apply in_app_or in H.
    destruct H as [H|[H|[]]]; [exact H | discriminate].
  - intros H. apply in_or_app. now left.
Qed.

Lemma forEach_handOver (dispatch : Dispatcher) (name host path : string)
  (handler : Handler) (methods : list string) :
  forall s : Ship,
    forEach methods
      (fun method => dispatch name host path method handler) s =
    handOver dispatch (registrations name host path methods handler) s.
Proof.
  unfold handOver.
  induction methods as [|m methods IH]; intros s; [reflexivity|].
  cbn [registrations map forEach]. unfold bind.
  cbn [RouteInfo.Name RouteInfo.Host RouteInfo.Path RouteInfo.Method
       RouteInfo.Handler].
  destruct (dispatch name host path m handler s) as [s1 [u|v]];
    [apply IH | reflexivity].
Qed.

Lemma handOver_app (dispatch : Dispatcher) (l1 l2 : list RouteInfo.t) :
  forall s : Ship,
    handOver dispatch (l1 ++ l2) s =
    (handOver dispatch l1 ;; handOver dispatch l2) s.
Proof.
  unfold handOver.
  induction l1 as [|ri l1 IH]; intros s; [reflexivity|].
  cbn [app forEach]. unfold bind in *.
  destruct (dispatch _ _ _ _ _ s) as [s1 [u|v]]; [|reflexivity].
  apply IH.
Qed.

Lemma handOver_recording (l : list RouteInfo.t) :
  forall s : Ship,
    handOver ship_addRoute l s =
    ({| MiddlewareMaxNum := MiddlewareMaxNum s; routes := routes s ++ l |},
     Returned tt).
Proof.
  unfold handOver.
  induction l as [|ri l IH]; intros s.
  - cbn. rewrite app_nil_r. now destruct s.
  - cbn [forEach]. unfold bind. cbn [ship_addRoute]. rewrite IH.
    cbn. rewrite <- app_assoc. now destruct ri.
Qed.

Lemma handOver_keeps_the_maximum (dispatch : Dispatcher)
  (l : list RouteInfo.t) :
  keepsTheMaximum dispatch ->
  forall s : Ship,
    MiddlewareMaxNum (fst (handOver dispatch l s)) = MiddlewareMaxNum s.
Proof.
  intros Hk. unfold handOver.
  induction l as [|ri l IH]; intros s; [reflexivity|].
  cbn [forEach]. unfold bind.
  pose proof (Hk (RouteInfo.Name ri) (RouteInfo.Host ri) (RouteInfo.Path ri)
                (RouteInfo.Method ri) (RouteInfo.Handler ri) s) as Hs.
  destruct (dispatch _ _ _ _ _ s) as [s1 [u|v]]; cbn [fst] in *.
  - now rewrite IH.
  - exact Hs.
Qed.

Lemma refused_same_max (r : t) (path : string) (handler : option Handler)
  (methods : list string) (s s' : Ship) :
  MiddlewareMaxNum s' = MiddlewareMaxNum s ->
  refused r path handler methods s' <-> refused r path handler methods s.
Proof. intros H. unfold refused, crowded. now rewrite H. Qed.

(** What [addRoute] does, whatever the dispatcher, in every state with
    the maximum of [s]. *)
Lemma addRoute_cases (r : t) (name host path : string)
  (handler : option Handler) (methods : list string) (s : Ship) :
  (refused r path handler methods s /\
   exists v : string, forall (dispatch : Dispatcher) (s' : Ship),
     MiddlewareMaxNum s' = MiddlewareMaxNum s ->
     addRoute dispatch r name host path handler methods s' = (s', Panicked v))
  \/ (~ refused r path handler methods s /\
      exists h : Handler,
        handler = Some h /\
        forall (dispatch : Dispatcher) (s' : Ship),
          MiddlewareMaxNum s' = MiddlewareMaxNum s ->
          addRoute dispatch r name host path handler methods s' =
          handOver dispatch
            (registrations name host path methods (wrapped r h)) s').
Proof.
  unfold refused, malformed, contains, crowded, addRoute.
  destruct handler as [h|];
    [|left; split; [now left | eexists; reflexivity]].
  destruct methods as [|m methods];
    [left; split; [now (right; left) | eexists; reflexivity]|].
  cbn [length Nat.eqb].
  destruct (first_byte_is path "/") eqn:Hf.
  2:{ left. split; [|rewrite orb_true_r; eexists; reflexivity].
      do 2 right. left. now apply first_byte_is_false. }
  assert (Hlen : (String.length path =? 0)%nat = false).
  { destruct path; [discriminate | reflexivity]. }
  assert (Hwf : ~ (path = "" \/ String.get 0 path <> Some "/"%char)).
  { intros H. apply first_byte_is_false in H. congruence. }
  rewrite Hlen. cbn [orb negb].
  destruct (Z.eqb_spec (strings_Index path "//") (-1)) as [Hidx|Hidx].
  2:{ left. split; [|eexists; reflexivity]. do 3 right. left.
      unfold strings_Index in Hidx.
      destruct (String.index 0 "//" path) as [i|] eqn:E; [|congruence].
      exists i. apply (index_correct1 _ _ _ _ E). }
  assert (Hnd : ~ (exists i : nat, substring i (String.length "//") path = "//")).
  { intros [i Hi].
    apply (proj1 (strings_Index_none path "//" ltac:(discriminate)) Hidx i Hi). }
  cbn [negb]. cbv beta zeta.
  pose proof (Z.gtb_spec (Z.of_nat (length (composedMiddlewares r)))
                (MiddlewareMaxNum s)) as Hspec.
  destruct (Z.of_nat (length (composedMiddlewares r)) >? MiddlewareMaxNum s)
    eqn:Hgtb; inversion Hspec as [Hgt|Hle].
  { left. split; [do 4 right; left; lia|].
    eexists. intros dispatch s' Hs'. rewrite Hs', Hgtb. reflexivity. }
  destruct (nil_decides (composedMiddlewares r)) as [Hnil|Hnil].
  - left. split; [do 5 right; now apply composed_nil|].
    eexists. intros dispatch s' Hs'. rewrite Hs', Hgtb.
    rewrite <- (app_nil_r (composedMiddlewares r)) at 1.
    rewrite wrapFrom_with_nil by exact Hnil. reflexivity.
  - right. split.
    + intros [H|[H|[H|[H|[H|H]]]]]; try discriminate; try tauto; try lia.
      apply Hnil. now apply composed_nil.
    + exists h. split; [reflexivity|]. intros dispatch s' Hs'.
      rewrite Hs', Hgtb.
      rewrite <- (app_nil_r (composedMiddlewares r)) at 1.
      rewrite wrapFrom_without_nil by exact Hnil.
      apply forEach_handOver.
Qed.

Lemma addRoute_fails_by_itself (r : t) (name host path : string)
  (handler : option Handler) (methods : list string) (s : Ship) :
  failsByItself
    (fun dispatch => addRoute dispatch r name host path handler methods) s
  <-> refused r path handler methods s.
Proof.
  destruct (addRoute_cases r name host path handler methods s)
    as [[Hbad [v Hv]]|[Hok (h & _ & Hh)]].
  - split; [auto|]. intros _. exists v. intros d. now apply Hv.
  - split; [|contradiction]. intros [v Hv]. exfalso.
    specialize (Hv ship_addRoute).
    rewrite Hh, handOver_recording in Hv by reflexivity.
    discriminate.
Qed.

Lemma addRoute_hands_over (dispatch : Dispatcher) (r : t)
  (name host path : string) (handler : option Handler)
  (methods : list string) (s : Ship) :
  ~ refused r path handler methods s ->
  exists h : Handler,
    handler = Some h /\
    addRoute dispatch r name host path handler methods s =
    handOver dispatch (registrations name host path methods (wrapped r h)) s.
Proof.
  intros Hok.
  destruct (addRoute_cases r name host path handler methods s)
    as [[Hbad _]|[_ (h & Hh & Heq)]]; [contradiction|].
  exists h. split; [exact Hh|]. now apply Heq.
Qed.

(** A call that hands [l1] over, followed by one that hands [l2] over. *)
Lemma then_handOver (dispatch : Dispatcher) (m k : Reg unit)
  (l1 l2 : list RouteInfo.t) (s : Ship) :
  keepsTheMaximum dispatch ->
  m s = handOver dispatch l1 s ->
  (forall s1 : Ship,
      MiddlewareMaxNum s1 = MiddlewareMaxNum s ->
      k s1 = handOver dispatch l2 s1) ->
  (m ;; k) s = handOver dispatch (l1 ++ l2) s.
Proof.
  intros Hkeep Hm Hk. rewrite handOver_app. unfold bind. rewrite Hm.
  pose proof (handOver_keeps_the_maximum dispatch l1 Hkeep s) as Hmax.
  destruct (handOver dispatch l1 s) as [s1 [u|v]]; [|reflexivity].
  apply Hk. exact Hmax.
Qed.

Lemma handOver_stops_at_a_refusal (dispatch : Dispatcher)
  (l1 l2 : list RouteInfo.t) (ri : RouteInfo.t) (s s1 s2 : Ship)
  (v : string) :
  handOver dispatch l1 s = (s1, Returned tt) ->
  dispatch (RouteInfo.Name ri) (RouteInfo.Host ri) (RouteInfo.Path ri)
    (RouteInfo.Method ri) (RouteInfo.Handler ri) s1 = (s2, Panicked v) ->
  handOver dispatch (l1 ++ ri :: l2) s = (s2, Panicked v).
Proof.
  intros H1 H2. rewrite handOver_app. unfold bind. rewrite H1.
  unfold handOver. cbn [forEach]. unfold bind. now rewrite H2.
Qed.

Lemma handOver_all (dispatch : Dispatcher) (l : list RouteInfo.t) :
  forall s : Ship,
    ~ panics (snd (handOver dispatch l s)) ->
    snd (handOver dispatch l s) = Returned tt.
Proof.
  intros s H. destruct (handOver dispatch l s) as [s1 [[]|v]];
    [reflexivity | now destruct H].
Qed.

(** ** The other entry points *)

Lemma redirect_method (method : list string) :
  let rmethod :=
    match method with
    | m :: _ => if negb (String.eqb m "") then m else MethodGet
    | [] => MethodGet
    end in
  (forall (m : string) (rest : list string),
      method = m :: rest -> m <> "" -> rmethod = m)
  /\ (method = [] -> rmethod = MethodGet)
  /\ (forall rest : list string, method = "" :: rest -> rmethod = MethodGet).
Proof.
  cbv zeta. repeat split.
  - intros m rest -> Hm.
    destruct (String.eqb_spec m ""); [contradiction | reflexivity].
  - now intros ->.
  - now intros rest ->.
Qed.

Lemma StaticFile_cases_in_full (r : t) (filePath : string) (s : Ship) :
  let bad := contains (path r) ":" \/ contains (path r) "*" \/
             malformed (path r) \/ contains (path r) "//" \/ crowded r s \/
             In None (mdwares r) in
  (bad /\ exists v : string, forall dispatch : Dispatcher,
        StaticFile dispatch r filePath s = (s, Panicked v))
  \/ (~ bad /\
      forall dispatch : Dispatcher,
        keepsTheMaximum dispatch ->
        StaticFile dispatch r filePath s =
        handOver dispatch
          [RouteInfo.mk "" (host r) (path r) MethodGet
             (wrapped r (fun _ ctx => ctx_File filePath ctx));
           RouteInfo.mk "" (host r) (path r) MethodHead
             (wrapped r (fun _ ctx => serveFileMetadata r ctx filePath))] s).
Proof.
  cbv zeta. unfold StaticFile.
  destruct (strings_Contains (path r) ":" || strings_Contains (path r) "*")
    eqn:G.
  { left. split; [|eexists; reflexivity].
    apply static_guard in G. tauto. }
  assert (HG : ~ (contains (path r) ":" \/ contains (path r) "*")).
  { intros H. apply static_guard in H. congruence. }
  destruct (addRoute_cases r "" (host r) (path r)
              (Some (fun _ ctx => ctx_File filePath ctx)) [MethodGet] s)
    as [[Hbad [v Hv]]|[Hok (h & Hh & Heq)]].
  - left. split.
    + destruct Hbad as [H|[H|H]]; [discriminate | discriminate | tauto].
    + exists v. intros dispatch. unfold bind.
      now rewrite Hv by reflexivity.
  - right. split.
    + intros H. apply Hok. unfold refused. tauto.
    + intros dispatch Hkeep. injection Hh as <-.
      apply (then_handOver dispatch _ _ [_] [_] s Hkeep).
      * now apply Heq.
      * intros s1 Hs1.
        destruct (addRoute_cases r "" (host r) (path r)
                    (Some (fun _ ctx => serveFileMetadata r ctx filePath))
                    [MethodHead] s)
          as [[Hbad _]|[_ (h' & Hh' & Heq')]].
        -- exfalso. apply Hok.
           destruct Hbad as [H|[H|H]]; [discriminate | discriminate|].
           unfold refused. tauto.
        -- injection Hh' as <-. now apply Heq'.
Qed.

Lemma Map_hands_over (dispatch : Dispatcher) (r : t) (s0 : Ship)
  (entries : list (string * option Handler)) :
  keepsTheMaximum dispatch ->
  Forall (fun mh => ~ refused r (path r) (snd mh) [fst mh] s0) entries ->
  forall s : Ship,
    MiddlewareMaxNum s = MiddlewareMaxNum s0 ->
    Map dispatch r entries s = handOver dispatch (registeredBy r entries) s.
Proof.
  intros Hkeep Hall. unfold Map.
  induction Hall as [|mh entries Hmh Hall IH]; intros s Hs; [reflexivity|].
  cbn [forEach registeredBy flat_map].
  destruct (addRoute_cases r (name r) (host r) (path r) (snd mh) [fst mh] s0)
    as [[Hbad _]|[_ (h & Hh & Heq)]]; [contradiction|].
  rewrite Hh.
  apply (then_handOver dispatch _ _ _ _ s Hkeep).
  - unfold Method. rewrite <- Hh. now apply Heq.
  - intros s1 Hs1. apply IH. congruence.
Qed.

Lemma Map_stops_at_the_first_refused (r : t) (s0 : Ship)
  (before after : list (string * option Handler))
  (mh : string * option Handler) :
  Forall (fun mh => ~ refused r (path r) (snd mh) [fst mh] s0) before ->
  refused r (path r) (snd mh) [fst mh] s0 ->
  exists v : string,
    forall dispatch : Dispatcher,
      keepsTheMaximum dispatch ->
      forall s : Ship,
        MiddlewareMaxNum s = MiddlewareMaxNum s0 ->
        Map dispatch r (before ++ mh :: after) s =
        (handOver dispatch (registeredBy r before) ;; panic v) s.
Proof.
  intros Hall Hbad.
  destruct (addRoute_cases r (name r) (host r) (path r) (snd mh) [fst mh] s0)
    as [[_ [v Hv]]|[Hok _]]; [|contradiction].
  exists v. intros dispatch Hkeep. unfold Map.
  induction Hall as [|a before Ha Hall IH]; intros s Hs.
  - cbn [app forEach]. unfold bind, Method. cbn [handOver forEach ret].
    unfold handOver. cbn [registeredBy flat_map forEach]. unfold ret.
    now rewrite Hv.
  - cbn [app forEach registeredBy flat_map].
    destruct (addRoute_cases r (name r) (host r) (path r) (snd a) [fst a] s0)
      as [[Hbad' _]|[_ (h & Hh & Heq)]]; [contradiction|].
    pose proof (handOver_keeps_the_maximum dispatch
                  (registrations (name r) (host r) (path r) [fst a]
                     (wrapped r h)) Hkeep s) as Hmax.
    unfold bind in *. unfold Method at 1. rewrite Heq by exact Hs.
    rewrite Hh. cbv iota. rewrite handOver_app. unfold bind.
    destruct (handOver dispatch _ s) as [s1 [u|w]]; [|reflexivity].
    cbn [fst] in Hmax. apply IH. congruence.
Qed.

Lemma StaticFS_cases_in_full (r : t) (fs : FileSystem) (s : Ship) :
  let rpath := path_Join (path r) "/*" in
  let bad := contains (path r) ":" \/ contains (path r) "*" \/
             malformed rpath \/ contains rpath "//" \/ crowded r s \/
             In None (mdwares r) in
  (bad /\ exists v : string, forall dispatch : Dispatcher,
        StaticFS dispatch r fs s = (s, Panicked v))
  \/ (~ bad /\
      forall dispatch : Dispatcher,
        StaticFS dispatch r fs s =
        handOver dispatch
          (registrations "" (host r) rpath [MethodHead; MethodGet]
             (wrapped r (serveFS r fs))) s).
Proof.
  cbv zeta. unfold StaticFS.
  destruct (strings_Contains (path r) ":" || strings_Contains (path r) "*")
    eqn:G.
  { left. split; [|eexists; reflexivity].
    apply static_guard in G. tauto. }
  assert (HG : ~ (contains (path r) ":" \/ contains (path r) "*")).
  { intros H. apply static_guard in H. congruence. }
  cbv zeta.
  destruct (addRoute_cases r "" (host r) (path_Join (path r) "/*")
              (Some (serveFS r fs)) [MethodHead; MethodGet] s)
    as [[Hbad [v Hv]]|[Hok (h & Hh & Heq)]].
  - left. split.
    + destruct Hbad as [H|[H|H]]; [discriminate | discriminate | tauto].
    + exists v. intros dispatch. now apply Hv.
  - right. split.
    + intros H. apply Hok. unfold refused. tauto.
    + intros dispatch. injection Hh as <-. now apply Heq.
Qed.

Lemma recording_keeps_the_maximum : keepsTheMaximum ship_addRoute.
Proof. intros name host path method handler s. reflexivity. Qed.

(** From the two cases of a call to the condition under which it fails
    by itself. *)
Lemma fails_by_itself_iff (call : Dispatcher -> Reg unit) (bad : Prop)
  (l : list RouteInfo.t) (s : Ship) :
  (bad /\ exists v : string, forall dispatch : Dispatcher,
        call dispatch s = (s, Panicked v))
  \/ (~ bad /\ call ship_addRoute s = handOver ship_addRoute l s) ->
  failsByItself call s <-> bad.
Proof.
  intros [[Hbad Hv]|[Hok Heq]].
  - split; [auto | intros _; exact Hv].
  - split; [|contradiction]. intros [v Hv]. exfalso.
    specialize (Hv ship_addRoute).
    rewrite Heq, handOver_recording in Hv. discriminate.
Qed.

Lemma redirect_refused (r : t) (h : Handler) (rmethod : string) (s : Ship) :
  refused r (path r) (Some h) [rmethod] s <->
  malformed (path r) \/ contains (path r) "//" \/ crowded r s \/
  In None (mdwares r).
Proof.
  unfold refused. split; [|tauto].
  intros [H|[H|H]]; [discriminate | discriminate | exact H].
Qed.

(** C3, amended.  Registration through a route, for any dispatcher
    (the router may refuse a registration, a duplicate for one) and for
    middlewares that may be nil.  A call fails by itself when it panics
    before it has called the dispatcher, with the same value whatever the
    dispatcher is.
    - [addRoute] fails by itself exactly when the handler is nil, or no
      method is given, or the path is empty or does not start with a
      slash, or the path contains two slashes in a row, or the composed
      middlewares (those of the route, and the header check when the
      route has predicates) are more than [MiddlewareMaxNum], or a
      middleware of the route is nil.  Otherwise it hands the wrapped
      handler to the dispatcher once a requested method, in the order of
      the methods, until the dispatcher refuses one.
    - [Method], [Any] and the nine verbs do so with the route's name,
      host and path, each with its methods.
    - [Redirect] can fail by itself under the path, count and nil
      conditions only, and registers its handler under the first method
      given if that is not empty, under GET otherwise.
    - [StaticFile], [StaticFS] and [Static] also fail by themselves when
      the route's path contains a colon or a star; [StaticFile] registers
      GET then HEAD on the route's path, [StaticFS] and [Static] register
      HEAD then GET on the path joined with [/*].
    - [Map] goes entry by entry: when no entry is refused it hands all of
      them over, and at the first refused one it panics after the entries
      before it have been handed over.
    - Handing over to the dispatcher that records appends the
      registrations; handing over to one that refuses stops at the
      refusal, with the panic of the dispatcher. *)
Theorem registration_fails_exactly_when (dispatch : Dispatcher) (r : t)
  (s : Ship) :
  keepsTheMaximum dispatch ->
  (forall (name host path : string) (handler : option Handler)
          (methods : list string),
      (failsByItself
         (fun d => addRoute d r name host path handler methods) s
       <-> refused r path handler methods s)
      /\ (~ refused r path handler methods s ->
          exists h : Handler,
            handler = Some h /\
            addRoute dispatch r name host path handler methods s =
            handOver dispatch
              (registrations name host path methods (wrapped r h)) s))
  /\ (forall (handler : option Handler) (methods : list string)
             (verb : Dispatcher -> t -> option Handler -> Reg unit)
             (verbMethods : list string),
         In (verb, verbMethods)
            [(fun d r handler => Method d r handler methods, methods);
             (Any, AllMethods);
             (CONNECT, [MethodConnect]); (OPTIONS, [MethodOptions]);
             (HEAD, [MethodHead]); (PATCH, [MethodPatch]);
             (TRACE, [MethodTrace]); (GET, [MethodGet]);
             (PUT, [MethodPut]); (POST, [MethodPost]);
             (DELETE, [MethodDelete])] ->
         (failsByItself (fun d => verb d r handler) s
          <-> refused r (path r) handler verbMethods s)
         /\ (~ refused r (path r) handler verbMethods s ->
             exists h : Handler,
               handler = Some h /\
               verb dispatch r handler s =
               handOver dispatch
                 (registrations (name r) (host r) (path r) verbMethods
                    (wrapped r h)) s))
  /\ (forall (code : Z) (toURL : string) (method : list string),
         let bad := malformed (path r) \/ contains (path r) "//" \/
                    crowded r s \/ In None (mdwares r) in
         (failsByItself (fun d => Redirect d r code toURL method) s <-> bad)
         /\ (~ bad ->
             exists rmethod : string,
               (forall (m : string) (rest : list string),
                   method = m :: rest -> m <> "" -> rmethod = m)
               /\ (method = [] -> rmethod = MethodGet)
               /\ (forall rest : list string,
                      method = "" :: rest -> rmethod = MethodGet)
               /\ Redirect dispatch r code toURL method s =
                  handOver dispatch
                    [RouteInfo.mk (name r) (host r) (path r) rmethod
                       (wrapped r (fun _ ctx => ctx_Redirect code toURL ctx))]
                    s))
  /\ (forall filePath : string,
         let bad := contains (path r) ":" \/ contains (path r) "*" \/
                    malformed (path r) \/ contains (path r) "//" \/
                    crowded r s \/ In None (mdwares r) in
         (failsByItself (fun d => StaticFile d r filePath) s <-> bad)
         /\ (~ bad ->
             StaticFile dispatch r filePath s =
             handOver dispatch
               [RouteInfo.mk "" (host r) (path r) MethodGet
                  (wrapped r (fun _ ctx => ctx_File filePath ctx));
                RouteInfo.mk "" (host r) (path r) MethodHead
                  (wrapped r
                     (fun _ ctx => serveFileMetadata r ctx filePath))] s))
  /\ (forall (fs0 : FileSystem) (dirpath : string)
             (serve : Dispatcher -> Reg unit) (fs : FileSystem),
         In (serve, fs)
            [(fun d => StaticFS d r fs0, fs0);
             (fun d => Static d r dirpath, newOnlyFileFS dirpath)] ->
         let rpath := path_Join (path r) "/*" in
         let bad := contains (path r) ":" \/ contains (path r) "*" \/
                    malformed rpath \/ contains rpath "//" \/
                    crowded r s \/ In None (mdwares r) in
         (failsByItself serve s <-> bad)
         /\ (~ bad ->
             serve dispatch s =
             handOver dispatch
               [RouteInfo.mk "" (host r) rpath MethodHead
                  (wrapped r (serveFS r fs));
                RouteInfo.mk "" (host r) rpath MethodGet
                  (wrapped r (serveFS r fs))] s))
  /\ (forall entries : list (string * option Handler),
         Forall (fun mh => ~ refused r (path r) (snd mh) [fst mh] s)
           entries ->
         Map dispatch r entries s =
         handOver dispatch (registeredBy r entries) s)
  /\ (forall (before after : list (string * option Handler))
             (mh : string * option Handler),
         Forall (fun mh => ~ refused r (path r) (snd mh) [fst mh] s)
           before ->
         refused r (path r) (snd mh) [fst mh] s ->
         exists v : string,
           Map dispatch r (before ++ mh :: after) s =
           (handOver dispatch (registeredBy r before) ;; panic v) s)
  /\ (forall l : list RouteInfo.t,
         handOver ship_addRoute l s =
         ({| MiddlewareMaxNum := MiddlewareMaxNum s;
             routes := routes s ++ l |}, Returned tt))
  /\ (forall (l1 l2 : list RouteInfo.t) (ri : RouteInfo.t) (s1 s2 : Ship)
             (v : string),
         handOver dispatch l1 s = (s1, Returned tt) ->
         dispatch (RouteInfo.Name ri) (RouteInfo.Host ri) (RouteInfo.Path ri)
           (RouteInfo.Method ri) (RouteInfo.Handler ri) s1
         = (s2, Panicked v) ->
         handOver dispatch (l1 ++ ri :: l2) s = (s2, Panicked v)).
Proof.
  intros Hkeep.
  assert (Hverb : forall (handler : option Handler) (methods : list string),
             (failsByItself (fun d => Method d r handler methods) s
              <-> refused r (path r) handler methods s)
             /\ (~ refused r (path r) handler methods s ->
                 exists h : Handler,
                   handler = Some h /\
                   Method dispatch r handler methods s =
                   handOver dispatch
                     (registrations (name r) (host r) (path r) methods
                        (wrapped r h)) s)).
  { intros handler methods. split.
    - exact (addRoute_fails_by_itself r (name r) (host r) (path r)
               handler methods s).
    - exact (addRoute_hands_over dispatch r (name r) (host r) (path r)
               handler methods s). }
  split; [|split; [|split; [|split; [|split; [|split; [|split; [|split]]]]]]].
  - intros name host path handler methods. split.
    + apply addRoute_fails_by_itself.
    + apply addRoute_hands_over.
  - intros handler methods verb verbMethods Hin. cbn [In] in Hin.
    repeat (destruct Hin as [Hin|Hin];
            [injection Hin as <- <-; apply Hverb|]).
    destruct Hin.
  - intros code toURL method. cbv zeta.
    pose proof (redirect_method method) as Hm. cbv zeta in Hm.
    set (rmethod := match method with
                    | m :: _ => if negb (String.eqb m "") then m else MethodGet
                    | [] => MethodGet
                    end) in Hm.
    set (h := fun (_ : RouteHeap) ctx => ctx_Redirect code toURL ctx).
    destruct (Hverb (Some h) [rmethod]) as [Hiff Hover].
    rewrite redirect_refused in Hiff, Hover.
    split; [exact Hiff|].
    intros Hok. exists rmethod.
    destruct Hm as (Hm1 & Hm2 & Hm3).
    repeat split; [exact Hm1 | exact Hm2 | exact Hm3|].
    destruct (Hover Hok) as (h' & Hh' & Heq). injection Hh' as <-.
    exact Heq.
  - intros filePath. cbv zeta.
    pose proof (StaticFile_cases_in_full r filePath s) as Hc.
    cbv zeta in Hc. split.
    + eapply fails_by_itself_iff.
      destruct Hc as [Hc|[Hok Heq]]; [left; exact Hc|].
      right. split; [exact Hok|].
      apply Heq, recording_keeps_the_maximum.
    + intros Hok. destruct Hc as [[Hbad _]|[_ Heq]]; [contradiction|].
      now apply Heq.
  - intros fs0 dirpath serve fs Hin. cbv zeta.
    assert (Hfs : forall fs : FileSystem,
               (failsByItself (fun d => StaticFS d r fs) s <->
                contains (path r) ":" \/ contains (path r) "*" \/
                malformed (path_Join (path r) "/*") \/
                contains (path_Join (path r) "/*") "//" \/
                crowded r s \/ In None (mdwares r))
               /\ (~ (contains (path r) ":" \/ contains (path r) "*" \/
                      malformed (path_Join (path r) "/*") \/
                      contains (path_Join (path r) "/*") "//" \/
                      crowded r s \/ In None (mdwares r)) ->
                   StaticFS dispatch r fs s =
                   handOver dispatch
                     [RouteInfo.mk "" (host r) (path_Join (path r) "/*")
                        MethodHead (wrapped r (serveFS r fs));
                      RouteInfo.mk "" (host r) (path_Join (path r) "/*")
                        MethodGet (wrapped r (serveFS r fs))] s)).
    { intros fs'. pose proof (StaticFS_cases_in_full r fs' s) as Hc.
      cbv zeta in Hc. split.
      - eapply fails_by_itself_iff.
        destruct Hc as [Hc|[Hok Heq]]; [left; exact Hc|].
        right. split; [exact Hok | apply Heq].
      - intros Hok. destruct Hc as [[Hbad _]|[_ Heq]]; [contradiction|].
        apply Heq. }
    cbn [In] in Hin.
    destruct Hin as [Hin|[Hin|[]]]; injection Hin as <- <-; apply Hfs.
  - intros entries Hall. now apply (Map_hands_over dispatch r s).
  - intros before after mh Hall Hbad.
    destruct (Map_stops_at_the_first_refused r s before after mh Hall Hbad)
      as [v Hv].
    exists v. now apply Hv.
  - intros l. apply handOver_recording.
  - intros l1 l2 ri s1 s2 v. apply handOver_stops_at_a_refusal.
Qed.

End RegisteringProperties.

(** ** The two embeddings agree *)

Section TheTwoEmbeddings.

Context {ext : Externals}.

Lemma fromBuilder_composed (r : Route) :
  Registering.composedMiddlewares (fromBuilder r) =
  map Some (composedMiddlewares r).
Proof.
  unfold Registering.composedMiddlewares, composedMiddlewares,
    Registering.buildHeaderMiddleware, buildHeaderMiddleware.
  cbn [fromBuilder Registering.headers Registering.mdwares Registering.self].
  destruct (length (headers r) =? 0)%nat; [reflexivity|].
  cbn [app]. now rewrite map_app.
Qed.

Lemma lookup_map_Some (ms : list Middleware) :
  forall n : nat,
    map Some ms !! n =
    match ms !! n with Some m => Some (Some m) | None => None end.
Proof.
  induction ms as [|m ms IH]; intros [|n]; try reflexivity.
  apply IH.
Qed.

Lemma fromBuilder_wrapFrom (ms : list Middleware) (n : nat) :
  forall h : Handler,
    Registering.wrapFrom (map Some ms) n h = Returned (wrapFrom ms n h).
Proof.
  induction n as [|n IH]; intros h; [reflexivity|].
  cbn [Registering.wrapFrom wrapFrom].
  rewrite lookup_map_Some.
  destruct (ms !! n) as [m|]; apply IH.
Qed.

(** On a route without nil middleware and with the dispatcher that
    records, the registration in full is the registration of the first
    embedding. *)
Lemma fromBuilder_addRoute (r : Route) (name host path : string)
  (handler : option Handler) (methods : list string) (s : Ship) :
  Registering.addRoute ship_addRoute (fromBuilder r) name host path handler
    methods s
  = addRoute r name host path handler methods s.
Proof.
  unfold Registering.addRoute, addRoute.
  destruct handler as [h|]; [|reflexivity].
  destruct (length methods =? 0)%nat; [reflexivity|].
  destruct ((String.length path =? 0)%nat || negb (first_byte_is path "/"));
    [reflexivity|].
  destruct (negb (strings_Index path "//" =? -1)); [reflexivity|].
  cbv zeta. rewrite fromBuilder_composed, length_map.
  destruct (Z.of_nat (length (composedMiddlewares r)) >? MiddlewareMaxNum s);
    [reflexivity|].
  rewrite <- (length_map Some (composedMiddlewares r)) at 1.
  rewrite length_map, fromBuilder_wrapFrom. reflexivity.
Qed.

End TheTwoEmbeddings.

(** ** Examples of registrations that fail *)

Lemma registration_fails_exactly_when_witness :
  Registering.keepsTheMaximum refusingDuplicates
  /\ @Registering.GET sampleExternals refusingDuplicates
       (fromBuilder (sampleRoute "/p")) (Some okHandler) sampleShip
     = ({| MiddlewareMaxNum := 128;
           routes := [RouteInfo.mk "" "" "/p" MethodGet okHandler] |},
        Returned tt)
  /\ Registering.failsByItself
       (fun d => @Registering.GET sampleExternals d nilRoute (Some okHandler))
       sampleShip.
Proof.
  assert (Hkeep : Registering.keepsTheMaximum refusingDuplicates).
  { intros name host path method handler s. unfold refusingDuplicates.
    destruct (existsb _ (routes s)); reflexivity. }
  split; [exact Hkeep|]. split.
  - destruct (@registration_fails_exactly_when sampleExternals
                refusingDuplicates (fromBuilder (sampleRoute "/p"))
                sampleShip Hkeep) as (_ & Hverb & _).
    destruct (Hverb (Some okHandler) [] (@Registering.GET sampleExternals)
                [MethodGet]) as [Hiff Hover].
    { do 7 right. left. reflexivity. }
    destruct Hover as (h & Hh & Heq).
    { intros Hr. apply Hiff in Hr. destruct Hr as [v Hv].
      specialize (Hv ship_addRoute). vm_compute in Hv. discriminate. }
    injection Hh as <-. rewrite Heq. reflexivity.
  - destruct (@registration_fails_exactly_when sampleExternals
                refusingDuplicates nilRoute sampleShip Hkeep)
      as (_ & Hverb & _).
    destruct (Hverb (Some okHandler) [] (@Registering.GET sampleExternals)
                [MethodGet]) as [Hiff _].
    { do 7 right. left. reflexivity. }
    apply Hiff. do 5 right. cbn. left. reflexivity.
Defined.

(** [r.Use(nil)] makes the registration panic in the loop that composes
    the middlewares, although the handler, the methods, the path and the
    number of middlewares are as [addRoute] asks. *)
Example nil_middleware_panics :
  @Registering.GET sampleExternals ship_addRoute nilRoute (Some okHandler)
    sampleShip
  = (sampleShip,
     Panicked "invalid memory address or nil pointer dereference")
  /\ ~ (Some okHandler = None \/ [MethodGet] = [] \/
        malformed (Registering.path nilRoute) \/
        contains (Registering.path nilRoute) "//" \/
        @Registering.crowded sampleExternals nilRoute sampleShip).
Proof.
  split; [reflexivity|].
  intros [H|[H|[H|[H|H]]]]; try discriminate.
  - destruct H as [H|H]; [discriminate | apply H; reflexivity].
  - apply strings_Contains_true in H; [|discriminate].
    vm_compute in H. discriminate.
Qed.

(** The route layer accepts the same registration twice; it is the
    dispatcher that refuses the second, and the first stays. *)
Example duplicate_is_refused_by_the_dispatcher :
  let get := @Registering.GET sampleExternals refusingDuplicates
               (fromBuilder (sampleRoute "/p")) (Some okHandler) in
  snd (get sampleShip) = Returned tt
  /\ snd ((get ;; get) sampleShip) = Panicked "the route has been registered"
  /\ routes (fst ((get ;; get) sampleShip)) = routes (fst (get sampleShip))
  /\ ~ @Registering.refused sampleExternals (fromBuilder (sampleRoute "/p"))
         "/p" (Some okHandler) [MethodGet] (fst (get sampleShip)).
Proof.
  cbv zeta. repeat split.
  intros [H|[H|[H|[H|[H|H]]]]]; try discriminate.
  - destruct H as [H|H]; [discriminate | apply H; reflexivity].
  - apply strings_Contains_true in H; [|discriminate].
    vm_compute in H. discriminate.
  - destruct H.
Qed.

(** [Any] hands the nine methods over in the order of [AllMethods], and a
    dispatcher that refuses the fifth keeps the first four. *)
Example Any_stops_where_the_dispatcher_refuses :
  let taken :=
    {| MiddlewareMaxNum := 128;
       routes := [RouteInfo.mk "" "" "/p" MethodGet okHandler] |} in
  let any := @Registering.Any sampleExternals refusingDuplicates
               (fromBuilder (sampleRoute "/p")) (Some okHandler) in
  snd (any taken) = Panicked "the route has been registered"
  /\ map RouteInfo.Method (routes (fst (any taken))) =
     [MethodGet; MethodConnect; MethodHead; MethodOptions; MethodTrace]
  /\ map RouteInfo.Method (routes (fst (any sampleShip))) = AllMethods.
Proof. cbv zeta. repeat split. Qed.
